(** * Dapbase: the table engine of [dapbase.connection.js]

    A shallow embedding of the schema validator, the table store, the
    relationship enforcer, the field cipher and the query pipeline, and the
    properties the specification states about them; then the checks of the
    [validate] command of [cli.js], and further properties of both.

    Modelling conventions.
    - Values are the JSON data the store persists ([json]); a missing
      property ([undefined]) is [None] in [option json].  The numbers
      among the values are integers; the number a string stands for may be
      any finite ratio or an infinity ([number]); strings are sequences of
      one-byte code units.  A table file
      is rewritten with [JSON.stringify] and read back with [JSON.parse],
      which is the identity on this universe, so a table unit on disk is its
      [Table] record.
    - Objects keep their properties in insertion order (an association list
      read with [get], written with [set]); no property name is an array
      index.  The names under which the engine looks a property up (column
      names, the keys of conditions and updates, the fields of joins,
      sorting and selection) are not names of properties that every object
      inherits ([constructor], [toString] and the like); a row may hold a
      field of such a name, and the one place where the engine looks up a
      field name of the row in another object, the undefined-field test of
      [validateRow], takes the inherited properties into account
      ([inherited]).  Column definitions, relationships and options are records: a
      property the object does not have is [None], a flag is its
      truthiness.  The patterns of a schema are regular expressions the
      runtime accepts.
    - [===] and [Array.prototype.includes] compare objects and arrays by
      reference.  Their operands below always come from two different
      [JSON.parse] results or from the caller and a parse result, so two
      objects or arrays are never identical; the one place where a reference
      meets itself (the self-exclusion filter of [update]) is modelled by the
      position of the row.
    - The services of the runtime the engine calls (regular expressions,
      [Date.parse], the numeric value of a string, [JSON.parse] of a string,
      the cipher, [uuidv4], the clock, [Array.prototype.sort]) are the
      fields of the class [Runtime]. *)

From Stdlib Require Import ZArith String Ascii List Bool Lia.
From stdpp Require Import base option list strings pretty gmap fin_maps.
Import ListNotations.

Local Open Scope string_scope.
Local Open Scope Z_scope.

(** ** Values *)

#[local] Set Warnings "-register-all".

Inductive json : Type :=
| JNull
| JBool (b : bool)
| JNum (z : Z)
| JStr (s : string)
| JArr (items : list json)
| JObj (fields : list (string * json)).

(** A JavaScript object: property name to value, in insertion order. *)
Abbreviation object := (list (string * json)).

(** [o[k]] *)
Fixpoint get {A} (o : list (string * A)) (k : string) : option A :=
  match o with
  | [] => None
  | (k', v) :: rest => if String.eqb k' k then Some v else get rest k
  end.

(** [o[k] = v]: an existing property keeps its place, a new one goes last. *)
Fixpoint set {A} (k : string) (v : A) (o : list (string * A)) :
    list (string * A) :=
  match o with
  | [] => [(k, v)]
  | (k', v') :: rest =>
      if String.eqb k' k then (k', v) :: rest else (k', v') :: set k v rest
  end.

(** [delete o[k]] *)
Fixpoint remove {A} (k : string) (o : list (string * A)) : list (string * A) :=
  match o with
  | [] => []
  | (k', v') :: rest =>
      if String.eqb k' k then remove k rest else (k', v') :: remove k rest
  end.

(** [Object.keys(o)] *)
Definition keys {A} (o : list (string * A)) : list string := map fst o.

(** [{...a, ...b}] *)
Definition spread (a b : object) : object :=
  fold_left (fun acc kv => set (fst kv) (snd kv) acc) b a.

(** Truthiness of a value. *)
Definition truthy (v : option json) : bool :=
  match v with
  | None | Some JNull => false
  | Some (JBool b) => b
  | Some (JNum z) => negb (z =? 0)
  | Some (JStr s) => negb (String.eqb s "")
  | Some (JArr _) | Some (JObj _) => true
  end.

(** [value === undefined || value === null] *)
Definition nullish (v : option json) : bool :=
  match v with
  | None | Some JNull => true
  | _ => false
  end.

(** [typeof v] *)
Definition typeof (v : option json) : string :=
  match v with
  | None => "undefined"
  | Some (JBool _) => "boolean"
  | Some (JNum _) => "number"
  | Some (JStr _) => "string"
  | Some JNull | Some (JArr _) | Some (JObj _) => "object"
  end.

(** [a === b] (also the SameValueZero of [includes]: there is no NaN and no
    signed zero among integers). *)
Definition strict_eq (a b : option json) : bool :=
  match a, b with
  | None, None => true
  | Some JNull, Some JNull => true
  | Some (JBool x), Some (JBool y) => Bool.eqb x y
  | Some (JNum x), Some (JNum y) => x =? y
  | Some (JStr x), Some (JStr y) => String.eqb x y
  | _, _ => false
  end.

(** [vs.includes(v)] *)
Definition includes (vs : list (option json)) (v : option json) : bool :=
  existsb (fun x => strict_eq x v) vs.

(** [l.join(sep)] on strings *)
Fixpoint join (sep : string) (l : list string) : string :=
  match l with
  | [] => ""
  | [s] => s
  | s :: rest => s ++ sep ++ join sep rest
  end.

(** [String(v)] on a JSON value. *)
Fixpoint to_string (v : json) : string :=
  match v with
  | JNull => "null"
  | JBool true => "true"
  | JBool false => "false"
  | JNum z => pretty z
  | JStr s => s
  | JArr items =>
      join "," (map (fun x => match x with
                              | JNull => ""
                              | _ => to_string x
                              end) items)
  | JObj _ => "[object Object]"
  end.

(** [String(v)] where [v] may be [undefined]. *)
Definition String_ (v : option json) : string :=
  match v with
  | None => "undefined"
  | Some j => to_string j
  end.

(** [haystack.includes(needle)] on strings *)
Fixpoint str_includes (haystack needle : string) : bool :=
  String.prefix needle haystack ||
  match haystack with
  | EmptyString => false
  | String _ rest => str_includes rest needle
  end.

(** The double quote, for the messages. *)
Definition dq : string := String (ascii_of_nat 34) "".
Definition nl : string := String (ascii_of_nat 10) "".
Definition quoted (s : string) : string := dq ++ s ++ dq.

(** ** Numbers

    What [Number(...)] can give besides NaN: a finite number, as a ratio,
    or an infinity. *)
Inductive number :=
| Finite (numerator : Z) (denominator : positive)
| Infinite (negative : bool).

Definition number_of_Z (z : Z) : number := Finite z 1.

(** [Number.isInteger(x)] *)
Definition is_integer (x : number) : bool :=
  match x with
  | Finite a b => a mod Z.pos b =? 0
  | Infinite _ => false
  end.

(** [x < y] and [x <= y] on numbers *)
Definition number_lt (x y : number) : bool :=
  match x, y with
  | Finite a b, Finite c d => a * Z.pos d <? c * Z.pos b
  | Finite _ _, Infinite negative => negb negative
  | Infinite negative, Finite _ _ => negative
  | Infinite n, Infinite m => n && negb m
  end.

Definition number_le (x y : number) : bool :=
  match x, y with
  | Finite a b, Finite c d => a * Z.pos d <=? c * Z.pos b
  | Finite _ _, Infinite negative => negb negative
  | Infinite negative, Finite _ _ => negative
  | Infinite n, Infinite m => n || negb m
  end.

(** ** The runtime *)

Class Runtime := {
  (** the numeric value of a string ([None] is NaN) *)
  StringToNumber : string -> option number;
  (** [new RegExp(pattern).test(subject)] *)
  RegExp_test : string -> string -> bool;
  (** [!isNaN(Date.parse(s))] *)
  Date_parse_ok : string -> bool;
  (** [JSON.parse(s)]; [None] when it throws *)
  JSON_parse : string -> option json;
  (** [JSON.stringify(v)] *)
  JSON_stringify : json -> string;
  (** [createCipher('aes-256-cbc', key)], [update] and [final] to hex;
      [None] when one of them throws *)
  cipher : string -> string -> option string;
  (** [createDecipher('aes-256-cbc', key)], [update] and [final] from hex;
      [None] when one of them throws *)
  decipher : string -> string -> option string;
  (** the n-th identifier [uuidv4()] hands out *)
  uuidv4 : nat -> string;
  (** [new Date().toISOString()] at the n-th reading of the clock *)
  toISOString : nat -> string;
  (** [rows.sort(compare)] *)
  Array_sort : (object -> object -> Z) -> list object -> list object
}.

Section Coercions.
Context `{Runtime}.

(** [Number(v)]; [None] is NaN.  An object or an array goes through its
    string. *)
Definition Number (v : option json) : option number :=
  match v with
  | None => None
  | Some JNull => Some (number_of_Z 0)
  | Some (JBool b) => Some (number_of_Z (if b then 1 else 0))
  | Some (JNum z) => Some (number_of_Z z)
  | Some (JStr s) => StringToNumber s
  | Some (JArr items) => StringToNumber (to_string (JArr items))
  | Some (JObj _) => None
  end.

(** The primitive an operand of [<] is turned into. *)
Definition to_primitive (v : option json) : option json :=
  match v with
  | Some (JArr items) => Some (JStr (to_string (JArr items)))
  | Some (JObj fields) => Some (JStr (to_string (JObj fields)))
  | _ => v
  end.

(** [a < b] *)
Definition js_lt (a b : option json) : bool :=
  match to_primitive a, to_primitive b with
  | Some (JStr x), Some (JStr y) => String.ltb x y
  | pa, pb =>
      match Number pa, Number pb with
      | Some x, Some y => number_lt x y
      | _, _ => false
      end
  end.

(** [a > b] *)
Definition js_gt (a b : option json) : bool := js_lt b a.

(** [a <= b] *)
Definition js_le (a b : option json) : bool :=
  match to_primitive a, to_primitive b with
  | Some (JStr x), Some (JStr y) => String.leb x y
  | pa, pb =>
      match Number pa, Number pb with
      | Some x, Some y => number_le x y
      | _, _ => false
      end
  end.

(** [a >= b] *)
Definition js_ge (a b : option json) : bool := js_le b a.

End Coercions.

(** ** Schema validation *)

(** A column definition as the table unit stores it.  [required] and
    [unique] are the truthiness of the properties of these names. *)
Record ColumnDefinition := {
  type : option string;
  required : bool;
  unique : bool;
  min : option json;
  max : option json;
  minLength : option json;
  maxLength : option json;
  pattern : option string;
  default : option json
}.

(** [{ type: t }] *)
Definition column_of_type (t : string) : ColumnDefinition :=
  {| type := Some t; required := false; unique := false; min := None;
     max := None; minLength := None; maxLength := None; pattern := None;
     default := None |}.

Abbreviation schema := (list (string * ColumnDefinition)).

(** One accumulated message of [validateRow]. *)
Inductive violation :=
| TypeMismatch (column expected got : string)
| Required (column : string)
| NotUnique (column : string) (value : json)
| BelowMin (column : string) (value minimum : json)
| AboveMax (column : string) (value maximum : json)
| TooShort (column : string) (len : Z) (minimum : json)
| TooLong (column : string) (len : Z) (maximum : json)
| PatternMismatch (column : string) (value : json) (pattern : string)
| UndefinedField (field : string).

(** The column (or field) a message names. *)
Definition violation_column (v : violation) : string :=
  match v with
  | TypeMismatch c _ _ | Required c | NotUnique c _ | BelowMin c _ _
  | AboveMax c _ _ | TooShort c _ _ | TooLong c _ _
  | PatternMismatch c _ _ | UndefinedField c => c
  end.

(** The text pushed on [errors]. *)
Definition message (v : violation) : string :=
  match v with
  | TypeMismatch c t g =>
      "Column " ++ quoted c ++ ": Expected type " ++ quoted t ++ ", got "
      ++ quoted g
  | Required c => "Column " ++ quoted c ++ " is required"
  | NotUnique c v =>
      "Column " ++ quoted c ++ " must be unique. Value "
      ++ quoted (to_string v) ++ " already exists"
  | BelowMin c v m =>
      "Column " ++ quoted c ++ ": Value " ++ to_string v
      ++ " is less than minimum " ++ to_string m
  | AboveMax c v m =>
      "Column " ++ quoted c ++ ": Value " ++ to_string v
      ++ " exceeds maximum " ++ to_string m
  | TooShort c n m =>
      "Column " ++ quoted c ++ ": Length " ++ pretty n
      ++ " is less than minimum " ++ to_string m
  | TooLong c n m =>
      "Column " ++ quoted c ++ ": Length " ++ pretty n
      ++ " exceeds maximum " ++ to_string m
  | PatternMismatch c v p =>
      "Column " ++ quoted c ++ ": Value " ++ quoted (to_string v)
      ++ " doesn't match pattern " ++ quoted p
  | UndefinedField f => "Field " ++ quoted f ++ " is not defined in schema"
  end.

(** The message of the error [validateRow] throws. *)
Definition validation_message (errors : list violation) : string :=
  "Schema validation failed:" ++ nl ++ join nl (map message errors).

(** [/^[0-9a-f]{8}-[0-9a-f]{4}-[0-9a-f]{4}-[0-9a-f]{4}-[0-9a-f]{12}$/i] *)
Definition is_hex (c : ascii) : bool :=
  let n := nat_of_ascii c in
  ((48 <=? n) && (n <=? 57) || (65 <=? n) && (n <=? 70)
   || (97 <=? n) && (n <=? 102))%nat.

Fixpoint hex_run (n : nat) (s : string) : option string :=
  match n with
  | O => Some s
  | S n' =>
      match s with
      | String c rest => if is_hex c then hex_run n' rest else None
      | EmptyString => None
      end
  end.

Definition dash (s : option string) : option string :=
  match s with
  | Some (String c rest) => if Ascii.eqb c "-"%char then Some rest else None
  | _ => None
  end.

Definition uuid_test (s : string) : bool :=
  match
    s1 ← dash (hex_run 8 s);
    s2 ← dash (hex_run 4 s1);
    s3 ← dash (hex_run 4 s2);
    s4 ← dash (hex_run 4 s3);
    hex_run 12 s4
  with
  | Some EmptyString => true
  | _ => false
  end.

(** The names of the properties every object inherits from
    [Object.prototype]; all of them hold a function or an object. *)
Definition inherited (name : string) : bool :=
  existsb (String.eqb name)
    ["constructor"; "hasOwnProperty"; "isPrototypeOf"; "propertyIsEnumerable";
     "toLocaleString"; "toString"; "valueOf"; "__proto__";
     "__defineGetter__"; "__defineSetter__"; "__lookupGetter__";
     "__lookupSetter__"].

Section Validation.
Context `{Runtime}.

(** [validators.types[t]]: [None] when the table has no entry for [t]. *)
Definition type_validator (t : string) : option (json -> bool) :=
  if String.eqb t "text" || String.eqb t "string" then
    Some (fun value => String.eqb (typeof (Some value)) "string")
  else if String.eqb t "int" || String.eqb t "integer" then
    Some (fun value => match Number (Some value) with
                       | Some x => is_integer x
                       | None => false
                       end)
  else if String.eqb t "float" || String.eqb t "number" then
    Some (fun value => bool_decide (is_Some (Number (Some value))))
  else if String.eqb t "boolean" then
    Some (fun value =>
            String.eqb (typeof (Some value)) "boolean"
            || existsb (String.eqb (to_string value)) ["true"; "false"; "1"; "0"])
  else if String.eqb t "uuid" then
    Some (fun value => uuid_test (to_string value))
  else if String.eqb t "timestamp" || String.eqb t "date" then
    Some (fun value => Date_parse_ok (to_string value))
  else if String.eqb t "json" then
    Some (fun value => bool_decide (is_Some (JSON_parse (to_string value))))
  else None.

(** The blocks of one turn of the loop over [Object.entries(schema)], for a
    value that is neither undefined nor null. *)
Definition check_type (column : string) (definition : ColumnDefinition)
    (v : json) : list violation :=
  match type definition with
  | Some t =>
      if negb (String.eqb t "") then
        match type_validator t with
        | Some typeValidator =>
            if negb (typeValidator v)
            then [TypeMismatch column t (typeof (Some v))] else []
        | None => []
        end
      else []
  | None => []
  end.

Definition check_unique (row : object) (existingRows : list object)
    (column : string) (definition : ColumnDefinition) (v : json) :
    list violation :=
  let isNew :=
    negb (existsb (fun r => strict_eq (get r "id") (get row "id")) existingRows) in
  let existingValues := map (fun r => get r column) existingRows in
  if unique definition && (includes existingValues (Some v) && isNew)
  then [NotUnique column v] else [].

Definition check_min (column : string) (definition : ColumnDefinition)
    (v : json) : list violation :=
  match min definition with
  | Some m => if js_lt (Some v) (Some m) then [BelowMin column v m] else []
  | None => []
  end.

Definition check_max (column : string) (definition : ColumnDefinition)
    (v : json) : list violation :=
  match max definition with
  | Some m => if js_gt (Some v) (Some m) then [AboveMax column v m] else []
  | None => []
  end.

Definition check_minLength (column : string) (definition : ColumnDefinition)
    (v : json) : list violation :=
  match minLength definition with
  | Some m =>
      let len := Z.of_nat (String.length (to_string v)) in
      if js_lt (Some (JNum len)) (Some m) then [TooShort column len m] else []
  | None => []
  end.

Definition check_maxLength (column : string) (definition : ColumnDefinition)
    (v : json) : list violation :=
  match maxLength definition with
  | Some m =>
      let len := Z.of_nat (String.length (to_string v)) in
      if js_gt (Some (JNum len)) (Some m) then [TooLong column len m] else []
  | None => []
  end.

Definition check_pattern (column : string) (definition : ColumnDefinition)
    (v : json) : list violation :=
  match pattern definition with
  | Some p =>
      if negb (String.eqb p "") && negb (RegExp_test p (to_string v))
      then [PatternMismatch column v p] else []
  | None => []
  end.

(** The checks of one turn of the loop, in the order the source pushes
    their messages.  Without a value only the required block can fire; with
    one, every other block runs. *)
Definition column_checks (row : object) (existingRows : list object)
    (column : string) (definition : ColumnDefinition) : list violation :=
  let value := get row column in
  if nullish value then
    if required definition then [Required column] else []
  else
    match value with
    | Some v =>
        check_type column definition v
        ++ check_unique row existingRows column definition v
        ++ check_min column definition v
        ++ check_max column definition v
        ++ check_minLength column definition v
        ++ check_maxLength column definition v
        ++ check_pattern column definition v
    | None => []
    end.

(** The default of one turn of the loop: written when the row has no value
    and the definition has a default. *)
Definition apply_default (row validatedRow : object) (column : string)
    (definition : ColumnDefinition) : object :=
  match get row column, default definition with
  | None, Some d => set column d validatedRow
  | _, _ => validatedRow
  end.

(** The loop over the schema, threading [errors] and [validatedRow]. *)
Definition schema_loop (row : object) (existingRows : list object)
    (sch : schema) (acc : list violation * object) : list violation * object :=
  fold_left
    (fun acc cd =>
       ((fst acc ++ column_checks row existingRows (fst cd) (snd cd))%list,
        apply_default row (snd acc) (fst cd) (snd cd)))
    sch acc.

(** The loop over [Object.keys(row)]: fields the schema does not define.
    [schema[field]] is the definition of a column of that name, or, when
    there is none, what the schema object inherits under the name; either
    is truthy. *)
Definition extra_fields (row : object) (sch : schema) : list violation :=
  flat_map
    (fun field =>
       if negb (bool_decide (is_Some (get sch field)) || inherited field)
          && negb (String.eqb field "id")
       then [UndefinedField field] else [])
    (keys row).

End Validation.

(** ** Errors and results *)

(** What an operation throws.  The first group are the engine's own
    [new Error(...)]; the last three are thrown by the runtime: [ENOENT] by
    [fs.readFileSync] on a file that does not exist, [InvalidArgType] by
    [path.join] on a null path, [NullProperty] by reading a property of
    null. *)
Inductive error :=
| UseFirst
| TableNameRequired
| TableExists (tableName : string)
| InvalidColumnDefinition (colName : string)
| NoDatabaseSelected
| TableNotFound (tableName : string)
| SchemaValidationFailed (errors : list violation)
| ForeignTableMissing (foreignTable : string)
| ForeignKeyViolation (field : string) (value : json) (foreignTable : string)
| ColumnExists (columnName : string)
| ColumnMissing (columnName : string)
| ENOENT (file : string)
| InvalidArgType
| NullProperty (property : string).

(** [error.message] *)
Definition error_message (e : error) : string :=
  match e with
  | UseFirst => "Call db.use(" ++ quoted "name" ++ ") first"
  | TableNameRequired => "Table name required"
  | TableExists t => "Table " ++ quoted t ++ " already exists"
  | InvalidColumnDefinition c => "Invalid column definition for " ++ quoted c
  | NoDatabaseSelected => "No database selected"
  | TableNotFound t => "Table " ++ quoted t ++ " not found"
  | SchemaValidationFailed errors => validation_message errors
  | ForeignTableMissing t => "Foreign table " ++ quoted t ++ " does not exist"
  | ForeignKeyViolation f v t =>
      "Foreign key violation: " ++ f ++ "=" ++ to_string v ++ " not found in "
      ++ t
  | ColumnExists c => "Column " ++ quoted c ++ " already exists"
  | ColumnMissing c => "Column " ++ quoted c ++ " does not exist"
  | ENOENT f => "ENOENT: no such file or directory, open " ++ f
  | InvalidArgType => "The path argument must be of type string"
  | NullProperty p => "Cannot read properties of null (reading " ++ p ++ ")"
  end.

Inductive outcome (A : Type) :=
| Returned (a : A)
| Thrown (e : error).
Arguments Returned {A} a.
Arguments Thrown {A} e.

Module SchemaValidator.
Section SchemaValidator.
Context `{Runtime}.

(** [SchemaValidator.validateRow(row, schema, existingRows)] *)
Definition validateRow (row : object) (sch : schema)
    (existingRows : list object) : outcome object :=
  let '(errors, validatedRow) := schema_loop row existingRows sch ([], row) in
  let errors := (errors ++ extra_fields row sch)%list in
  if (0 <? length errors)%nat
  then Thrown (SchemaValidationFailed errors)
  else Returned validatedRow.

End SchemaValidator.
End SchemaValidator.

(** ** Table units and the file system *)

Module Index.
Record definition := {
  type : string;
  unique : bool;
  createdAt : string;
  data : option (list (string * list nat))
}.
End Index.

Record Relationship := { foreignTable : string; foreignKey : string }.

(** [options.encryption]: [{}] has neither property. *)
Record Encryption := { key : option string; fields : option (list string) }.

Record TableOptions := { encryption : Encryption; timestamps : bool }.

Record Table := {
  name : string;
  createdAt : string;
  columns : schema;
  relationships : list (string * Relationship);
  rows : list object;
  indexes : list (string * Index.definition);
  options : TableOptions
}.

Definition with_rows (t : Table) (rs : list object) : Table :=
  {| name := name t; createdAt := createdAt t; columns := columns t;
     relationships := relationships t; rows := rs; indexes := indexes t;
     options := options t |}.

Definition with_columns (t : Table) (cs : schema) : Table :=
  {| name := name t; createdAt := createdAt t; columns := cs;
     relationships := relationships t; rows := rows t; indexes := indexes t;
     options := options t |}.

Definition with_indexes (t : Table) (ix : list (string * Index.definition)) :
    Table :=
  {| name := name t; createdAt := createdAt t; columns := columns t;
     relationships := relationships t; rows := rows t; indexes := ix;
     options := options t |}.

(** The state the engine runs in: the module variable [currentDbPath], the
    database folders with their [<table>.table] files, and how many times
    the clock and the identifier generator have been read. *)
Record World := {
  currentDbPath : option string;
  disk : gmap string (gmap string Table);
  clock : nat
}.

(** The table files of folder [d]. *)
Definition folder (w : World) (d : string) : gmap string Table :=
  match disk w !! d with
  | Some tables => tables
  | None => ∅
  end.

(** A computation of the engine: it returns or throws, and leaves a world. *)
Definition M (A : Type) : Type := World -> outcome A * World.

Definition ret {A} (a : A) : M A := fun w => (Returned a, w).

Definition throw {A} (e : error) : M A := fun w => (Thrown e, w).

Definition bind {A B} (m : M A) (k : A -> M B) : M B :=
  fun w =>
    match m w with
    | (Returned a, w') => k a w'
    | (Thrown e, w') => (Thrown e, w')
    end.

Notation "'let*' x ':=' m 'in' k" := (bind m (fun x => k))
  (at level 10, x pattern, m at level 100, k at level 200).

(** [try { m } catch { h }] *)
Definition try_catch {A} (m : M A) (h : error -> M A) : M A :=
  fun w =>
    match m w with
    | (Returned a, w') => (Returned a, w')
    | (Thrown e, w') => h e w'
    end.

Definition lift {A} (o : outcome A) : M A := fun w => (o, w).

Definition read_currentDbPath : M (option string) :=
  fun w => (Returned (currentDbPath w), w).

(** [fs.existsSync(path.join(d, tableName + '.table'))] *)
Definition existsSync (d tableName : string) : M bool :=
  fun w => (Returned (bool_decide (is_Some (folder w d !! tableName))), w).

(** [JSON.parse(fs.readFileSync(path.join(d, tableName + '.table')))] *)
Definition readTable (d tableName : string) : M Table :=
  fun w =>
    match folder w d !! tableName with
    | Some t => (Returned t, w)
    | None => (Thrown (ENOENT (tableName ++ ".table")), w)
    end.

(** [fs.writeFileSync(path.join(d, tableName + '.table'), JSON.stringify(t))] *)
Definition writeTable (d tableName : string) (t : Table) : M unit :=
  fun w =>
    (Returned tt,
     {| currentDbPath := currentDbPath w;
        disk := <[d := <[tableName := t]> (folder w d)]> (disk w);
        clock := clock w |}).

(** The names of the [.table] files [fs.readdirSync(d)] lists. *)
Definition readdirSync (d : string) : M (list string) :=
  fun w => (Returned (fst <$> map_to_list (folder w d)), w).

Section Clock.
Context `{Runtime}.

(** [new Date().toISOString()] *)
Definition new_Date : M string :=
  fun w =>
    (Returned (toISOString (clock w)),
     {| currentDbPath := currentDbPath w; disk := disk w;
        clock := S (clock w) |}).

(** [uuidv4()] *)
Definition new_uuid : M string :=
  fun w =>
    (Returned (uuidv4 (clock w)),
     {| currentDbPath := currentDbPath w; disk := disk w;
        clock := S (clock w) |}).

End Clock.

(** ** Field cipher *)

Section FieldCipher.
Context `{Runtime}.

(** [!key] is false *)
Definition key_set (key : option string) : bool :=
  match key with
  | Some k => negb (String.eqb k "")
  | None => false
  end.

(** [{ encrypted: true, data: data }] *)
Definition tagged (data : string) : json :=
  JObj [("encrypted", JBool true); ("data", JStr data)].

(** [_encryptField(value, key)] *)
Definition _encryptField (value : json) (key : option string) : json :=
  match key with
  | Some k =>
      if String.eqb k "" then value
      else match cipher k (JSON_stringify value) with
           | Some encrypted => tagged encrypted
           | None => value
           end
  | None => value
  end.

(** [_decryptField(encryptedObj, key)].  Reading [.encrypted] throws on
    null, and is [undefined] on a primitive or an array.  A [data] that is
    no string makes [decipher.update] throw, inside the [try]. *)
Definition _decryptField (encryptedObj : json) (key : option string) :
    outcome json :=
  match encryptedObj with
  | JNull => Thrown (NullProperty "encrypted")
  | JObj props =>
      if negb (truthy (get props "encrypted")) || negb (key_set key)
      then Returned encryptedObj
      else
        match key, get props "data" with
        | Some k, Some (JStr data) =>
            match decipher k data with
            | Some decrypted =>
                match JSON_parse decrypted with
                | Some value => Returned value
                | None => Returned encryptedObj
                end
            | None => Returned encryptedObj
            end
        | _, _ => Returned encryptedObj
        end
  | _ => Returned encryptedObj
  end.

End FieldCipher.

(** ** The engine *)

(** How a caller writes one column of [createTable]: a type name, a
    definition object, or something that is neither. *)
Inductive ColumnSpec :=
| TypeName (t : string)
| Definition_ (d : ColumnDefinition)
| NotADefinition.

(** What the caller hands to [addColumn]: a type name, or a definition
    object.  The [default] of a definition object is absent, JSON data, or a
    function; a function is called once, and [generated] is what that call
    returns ([None] for [undefined]), [definition] holding the other
    properties of the object.  (A function that throws or changes the table
    it is called from is left out.) *)
Inductive ColumnToAdd :=
| OfType (t : string)
| OfDefinition (definition : ColumnDefinition)
| OfGenerator (definition : ColumnDefinition) (generated : option json).

(** [JSON.stringify] of a definition object whose [default] is a function:
    the property is left out. *)
Definition without_default (d : ColumnDefinition) : ColumnDefinition :=
  {| type := type d; required := required d; unique := unique d;
     min := min d; max := max d; minLength := minLength d;
     maxLength := maxLength d; pattern := pattern d; default := None |}.

(** [{ ...row, [k]: v }] as [JSON.stringify] writes it: a property whose
    value is [undefined] is left out. *)
Definition written_with (k : string) (v : option json) (row : object) : object :=
  match v with
  | Some value => set k value row
  | None => remove k row
  end.

Module Join.
(** [{ table, on: { local, foreign }, as, type }] *)
Record spec := {
  table : string;
  local : string;
  foreign : string;
  as_ : option string;
  type : option string
}.
End Join.

(** [orderBy]: a field name, or the array of a field name and a direction. *)
Inductive OrderBy :=
| ByField (field : string)
| ByPair (field : string) (direction : option string).

Module Query.
(** The options of [select]. *)
Record options := {
  where_ : option object;
  join : option (list Join.spec);
  orderBy : option OrderBy;
  limit : option Z;
  offset : option Z;
  fields : option (list string)
}.
End Query.

Module Result.
(** [{ count, rows }] of [update] and [delete] *)
Record t := { count : nat; rows : list object }.
End Result.

(** [Object.keys(where).every(k => row[k] === where[k])] *)
Definition matches (where_ : object) (row : object) : bool :=
  forallb (fun k => strict_eq (get row k) (get where_ k)) (keys where_).

(** [rows.slice(start, stop)] *)
Definition slice {A} (l : list A) (start stop : Z) : list A :=
  let len := Z.of_nat (length l) in
  let k := if start <? 0 then Z.max (len + start) 0 else Z.min start len in
  let final := if stop <? 0 then Z.max (len + stop) 0 else Z.min stop len in
  firstn (Z.to_nat (final - k)) (skipn (Z.to_nat k) l).

Module db.
Section db.
Context `{Runtime}.

(** The loop of [createTable] over [Object.entries(columns)]. *)
Fixpoint normalize (cols : list (string * ColumnSpec))
    (normalizedColumns : schema) : outcome schema :=
  match cols with
  | [] => Returned normalizedColumns
  | (colName, TypeName t) :: rest =>
      normalize rest (set colName (column_of_type t) normalizedColumns)
  | (colName, Definition_ d) :: rest =>
      normalize rest (set colName d normalizedColumns)
  | (colName, NotADefinition) :: rest =>
      Thrown (InvalidColumnDefinition colName)
  end.

(** [{ type: 'uuid', required: true }] *)
Definition id_column : ColumnDefinition :=
  {| type := Some "uuid"; required := true; unique := false;
     min := None; max := None; minLength := None; maxLength := None;
     pattern := None; default := None |}.

(** [createTable(tableName, columns, relationships, options)], where
    [options] is [{ encryption: enc, timestamps: ts }] and either may be
    missing. *)
Definition createTable (tableName : string) (cols : list (string * ColumnSpec))
    (rels : list (string * Relationship)) (enc : option Encryption)
    (ts : option bool) : M unit :=
  let* dbPath := read_currentDbPath in
  match dbPath with
  | None => throw UseFirst
  | Some d =>
      if String.eqb tableName "" then throw TableNameRequired else
      let* found := existsSync d tableName in
      if found then throw (TableExists tableName) else
      let* normalizedColumns := lift (normalize cols []) in
      let normalizedColumns :=
        match get normalizedColumns "id" with
        | Some _ => normalizedColumns
        | None => set "id" id_column normalizedColumns
        end in
      let* now := new_Date in
      let tableData :=
        {| name := tableName;
           createdAt := now;
           columns := normalizedColumns;
           relationships := rels;
           rows := [];
           indexes := [];
           options :=
             {| encryption :=
                  match enc with
                  | Some e => e
                  | None => {| key := None; fields := None |}
                  end;
                timestamps :=
                  match ts with
                  | Some false => false
                  | _ => true
                  end |} |} in
      writeTable d tableName tableData
  end.

(** The loop of [insert] over the relationships of the table. *)
Fixpoint check_foreign_keys (d : string) (rels : list (string * Relationship))
    (validatedRow : object) : M unit :=
  match rels with
  | [] => ret tt
  | (field, rel) :: rest =>
      match get validatedRow field with
      | None => check_foreign_keys d rest validatedRow
      | Some v =>
          let* found := existsSync d (foreignTable rel) in
          if negb found then throw (ForeignTableMissing (foreignTable rel)) else
          let* foreignTableData := readTable d (foreignTable rel) in
          let exists_ :=
            existsb (fun row => strict_eq (get row (foreignKey rel)) (Some v))
                    (rows foreignTableData) in
          if negb exists_
          then throw (ForeignKeyViolation field v (foreignTable rel))
          else check_foreign_keys d rest validatedRow
      end
  end.

(** The loop of [insert] over [encryption.fields]. *)
Definition encrypt_fields (enc : Encryption) (validatedRow : object) : object :=
  match fields enc with
  | Some fs =>
      fold_left
        (fun row field =>
           match get row field with
           | Some v => set field (_encryptField v (key enc)) row
           | None => row
           end)
        fs validatedRow
  | None => validatedRow
  end.

(** The identifier block of [insert]. *)
Definition assign_id (table : Table) (validatedRow : object) : M object :=
  match get (columns table) "id" with
  | Some idc =>
      if bool_decide (type idc = Some "uuid")
         && negb (truthy (get validatedRow "id"))
      then let* id := new_uuid in ret (set "id" (JStr id) validatedRow)
      else ret validatedRow
  | None => ret validatedRow
  end.

(** The timestamp block of [insert]. *)
Definition stamp (table : Table) (validatedRow : object) : M object :=
  if timestamps (options table) then
    let* now := new_Date in
    let r1 := if negb (truthy (get validatedRow "createdAt"))
              then set "createdAt" (JStr now) validatedRow
              else validatedRow in
    let r2 := if negb (truthy (get r1 "updatedAt"))
              then set "updatedAt" (JStr now) r1
              else r1 in
    ret r2
  else ret validatedRow.

(** [insert(tableName, rowData)] *)
Definition insert (tableName : string) (rowData : object) : M object :=
  let* dbPath := read_currentDbPath in
  match dbPath with
  | None => throw NoDatabaseSelected
  | Some d =>
      let* found := existsSync d tableName in
      if negb found then throw (TableNotFound tableName) else
      let* table := readTable d tableName in
      let* validatedRow :=
        lift (SchemaValidator.validateRow rowData (columns table) (rows table)) in
      let* validatedRow := assign_id table validatedRow in
      let* validatedRow := stamp table validatedRow in
      let* _ := check_foreign_keys d (relationships table) validatedRow in
      let validatedRow := encrypt_fields (encryption (options table)) validatedRow in
      let* _ := writeTable d tableName
                  (with_rows table (rows table ++ [validatedRow])) in
      ret validatedRow
  end.

(** [insertMany(tableName, rowsData)]: the [for] loop, with [results]. *)
Fixpoint insertMany_loop (tableName : string) (rowsData : list object)
    (results : list object) : M (list object) :=
  match rowsData with
  | [] => ret results
  | rowData :: rest =>
      let* result := insert tableName rowData in
      insertMany_loop tableName rest (results ++ [result])
  end.

Definition insertMany (tableName : string) (rowsData : list object) :
    M (list object) :=
  insertMany_loop tableName rowsData [].

(** *** select *)

(** [v.encrypted] on a truthy value. *)
Definition property (v : json) (k : string) : option json :=
  match v with
  | JObj props => get props k
  | _ => None
  end.

(** The loop of [select] over [encryption.fields], for one row. *)
Fixpoint decrypt_fields (key : option string) (fs : list string)
    (decrypted : object) : outcome object :=
  match fs with
  | [] => Returned decrypted
  | field :: rest =>
      match get decrypted field with
      | Some v =>
          if truthy (Some v) && String.eqb (typeof (Some v)) "object"
             && truthy (property v "encrypted")
          then match _decryptField v key with
               | Returned plain => decrypt_fields key rest (set field plain decrypted)
               | Thrown e => Thrown e
               end
          else decrypt_fields key rest decrypted
      | None => decrypt_fields key rest decrypted
      end
  end.

Fixpoint decrypt_rows (key : option string) (fs : list string)
    (rs : list object) : outcome (list object) :=
  match rs with
  | [] => Returned []
  | row :: rest =>
      match decrypt_fields key fs row with
      | Returned decrypted =>
          match decrypt_rows key fs rest with
          | Returned more => Returned (decrypted :: more)
          | Thrown e => Thrown e
          end
      | Thrown e => Thrown e
      end
  end.

Definition decrypt_stage (enc : Encryption) (rs : list object) :
    outcome (list object) :=
  match fields enc with
  | Some fs => decrypt_rows (key enc) fs rs
  | None => Returned rs
  end.

(** One operator of a condition object. *)
Definition operator_holds (rowValue : option json) (condition : json)
    (operator : string) (value : json) : bool :=
  if String.eqb operator "$eq" then strict_eq rowValue (Some value)
  else if String.eqb operator "$ne" then negb (strict_eq rowValue (Some value))
  else if String.eqb operator "$gt" then js_gt rowValue (Some value)
  else if String.eqb operator "$gte" then js_ge rowValue (Some value)
  else if String.eqb operator "$lt" then js_lt rowValue (Some value)
  else if String.eqb operator "$lte" then js_le rowValue (Some value)
  else if String.eqb operator "$in" then
    match value with
    | JArr items => includes (map Some items) rowValue
    | _ => false
    end
  else if String.eqb operator "$nin" then
    match value with
    | JArr items => negb (includes (map Some items) rowValue)
    | _ => false
    end
  else if String.eqb operator "$like" then
    str_includes (String_ rowValue) (to_string value)
  else if String.eqb operator "$regex" then
    RegExp_test (to_string value) (String_ rowValue)
  else strict_eq rowValue (Some condition).

(** One entry of [options.where]. *)
Definition condition_holds (row : object) (k : string) (condition : json) :
    bool :=
  match condition with
  | JNull => strict_eq (get row k) (Some condition)
  | JObj operators =>
      forallb (fun ov => operator_holds (get row k) condition (fst ov) (snd ov))
              operators
  | JArr items => includes (map Some items) (get row k)
  | _ => strict_eq (get row k) (Some condition)
  end.

Definition where_stage (where_ : option object) (rs : list object) :
    list object :=
  match where_ with
  | Some conditions =>
      List.filter
        (fun row => forallb (fun kc => condition_holds row (fst kc) (snd kc))
                            conditions)
        rs
  | None => rs
  end.

(** What one join attaches under the alias. *)
Definition attached (related : list object) : json :=
  match related with
  | [] => JNull
  | [one] => JObj one
  | _ => JArr (map JObj related)
  end.

(** [as = joinTable] and [type = 'left'], the defaults of a join. *)
Definition alias (j : Join.spec) : string :=
  match Join.as_ j with
  | Some a => a
  | None => Join.table j
  end.

Definition join_type (j : Join.spec) : string :=
  match Join.type j with
  | Some t => t
  | None => "left"
  end.

(** [joinRows.filter(jrow => jrow[on.foreign] === row[on.local])] *)
Definition related (j : Join.spec) (joinRows : list object) (row : object) :
    list object :=
  List.filter
    (fun jrow => strict_eq (get jrow (Join.foreign j)) (get row (Join.local j)))
    joinRows.

(** The [map] and [filter] of one join over the surviving rows. *)
Definition join_rows (j : Join.spec) (joinRows : list object)
    (rs : list object) : list object :=
  omap
    (fun row =>
       if String.eqb (join_type j) "inner"
          && (length (related j joinRows row) =? 0)%nat
       then None
       else Some (set (alias j) (attached (related j joinRows row)) row))
    rs.

(** The loop over [options.join]. *)
Fixpoint join_loop (d : string) (joins : list Join.spec) (rs : list object) :
    M (list object) :=
  match joins with
  | [] => ret rs
  | j :: rest =>
      let* found := existsSync d (Join.table j) in
      if negb found then
        if String.eqb (join_type j) "inner" then ret [] else join_loop d rest rs
      else
        let* joinData := readTable d (Join.table j) in
        join_loop d rest (join_rows j (rows joinData) rs)
  end.

Definition join_stage (d : string) (joins : option (list Join.spec))
    (rs : list object) : M (list object) :=
  match joins with
  | Some js => join_loop d js rs
  | None => ret rs
  end.

(** The comparison function handed to [sort]. *)
Definition compare_rows (field direction : string) (a b : object) : Z :=
  let aVal := get a field in
  let bVal := get b field in
  let asc := String.eqb direction "asc" in
  if strict_eq aVal bVal then 0
  else if nullish aVal then (if asc then -1 else 1)
  else if nullish bVal then (if asc then 1 else -1)
  else
    let comparison := if js_lt aVal bVal then -1 else 1 in
    if asc then comparison else - comparison.

Definition sort_stage (orderBy : option OrderBy) (rs : list object) :
    list object :=
  match orderBy with
  | Some (ByField field) =>
      if String.eqb field "" then rs
      else Array_sort (compare_rows field "asc") rs
  | Some (ByPair field direction) =>
      Array_sort
        (compare_rows field match direction with Some dir => dir | None => "asc" end)
        rs
  | None => rs
  end.

(** [options.limit || ...] on a number that may be missing *)
Definition nonzero (n : option Z) : bool :=
  match n with
  | Some z => negb (z =? 0)
  | None => false
  end.

Definition paginate (limit offset : option Z) (rs : list object) :
    list object :=
  if nonzero limit || nonzero offset then
    let offset := match offset with
                  | Some z => if z =? 0 then 0 else z
                  | None => 0
                  end in
    let limit := match limit with
                 | Some z => if z =? 0 then Z.of_nat (length rs) else z
                 | None => Z.of_nat (length rs)
                 end in
    slice rs offset (offset + limit)
  else rs.

Definition project (fs : option (list string)) (rs : list object) :
    list object :=
  match fs with
  | Some fs =>
      map (fun row =>
             fold_left
               (fun selected field =>
                  match get row field with
                  | Some v => set field v selected
                  | None => selected
                  end)
               fs [])
          rs
  | None => rs
  end.

(** [select(tableName, options)] *)
Definition select (tableName : string) (opts : Query.options) :
    M (list object) :=
  let* dbPath := read_currentDbPath in
  match dbPath with
  | None => throw NoDatabaseSelected
  | Some d =>
      let* found := existsSync d tableName in
      if negb found then throw (TableNotFound tableName) else
      let* table := readTable d tableName in
      let* rs := lift (decrypt_stage (encryption (options table)) (rows table)) in
      let rs := where_stage (Query.where_ opts) rs in
      let* rs := join_stage d (Query.join opts) rs in
      let rs := sort_stage (Query.orderBy opts) rs in
      let rs := paginate (Query.limit opts) (Query.offset opts) rs in
      let rs := project (Query.fields opts) rs in
      ret rs
  end.

(** *** update *)

(** [table.rows.filter(r => r.id !== row.id)] for the row at position [i]:
    the row itself goes (its [id] is identical to itself whatever it is),
    and so does every other row whose [id] is strictly equal. *)
Fixpoint other_rows (i : nat) (id : option json) (j : nat) (rs : list object) :
    list object :=
  match rs with
  | [] => []
  | r :: rest =>
      if (j =? i)%nat || strict_eq (get r "id") id
      then other_rows i id (S j) rest
      else r :: other_rows i id (S j) rest
  end.

(** The loop of [update] over [encryption.fields]. *)
Definition reencrypt_fields (enc : Encryption) (validatedRow : object) :
    object :=
  match fields enc with
  | Some fs =>
      fold_left
        (fun row field =>
           match get row field with
           | Some v =>
               if negb (truthy (Some v) && truthy (property v "encrypted"))
               then set field (_encryptField v (key enc)) row
               else row
           | None => row
           end)
        fs validatedRow
  | None => validatedRow
  end.

(** The body of the [try] for the matching row at position [i]. *)
Definition revalidate (table : Table) (updates : object) (i : nat)
    (row : object) : M object :=
  let updatedRow := spread row updates in
  let* validatedRow :=
    lift (SchemaValidator.validateRow updatedRow (columns table)
            (other_rows i (get row "id") 0 (rows table))) in
  let* validatedRow :=
    if timestamps (options table) then
      let* now := new_Date in ret (set "updatedAt" (JStr now) validatedRow)
    else ret validatedRow in
  ret (reencrypt_fields (encryption (options table)) validatedRow).

(** The [map] of [update] over the rows, from position [i] on, threading
    [updatedCount] and [updatedRows]. *)
Fixpoint update_loop (table : Table) (updates where_ : object) (i : nat)
    (todo : list object) (updatedCount : nat) (updatedRows : list object) :
    M (list object * (nat * list object)) :=
  match todo with
  | [] => ret ([], (updatedCount, updatedRows))
  | row :: rest =>
      if matches where_ row then
        let* changed :=
          try_catch
            (let* validatedRow := revalidate table updates i row in
             ret (Some validatedRow))
            (fun _ => ret None) in
        match changed with
        | Some validatedRow =>
            let* more :=
              update_loop table updates where_ (S i) rest (S updatedCount)
                          (updatedRows ++ [validatedRow]) in
            ret (validatedRow :: fst more, snd more)
        | None =>
            let* more :=
              update_loop table updates where_ (S i) rest updatedCount
                          updatedRows in
            ret (row :: fst more, snd more)
        end
      else
        let* more :=
          update_loop table updates where_ (S i) rest updatedCount updatedRows in
        ret (row :: fst more, snd more)
  end.

(** [update(tableName, updates, where)] *)
Definition update (tableName : string) (updates where_ : object) :
    M Result.t :=
  let* dbPath := read_currentDbPath in
  match dbPath with
  | None => throw NoDatabaseSelected
  | Some d =>
      let* found := existsSync d tableName in
      if negb found then throw (TableNotFound tableName) else
      let* table := readTable d tableName in
      let* done := update_loop table updates where_ 0 (rows table) 0 [] in
      let updatedCount := fst (snd done) in
      let updatedRows := snd (snd done) in
      let* _ :=
        if (0 <? updatedCount)%nat
        then writeTable d tableName (with_rows table (fst done))
        else ret tt in
      ret {| Result.count := updatedCount; Result.rows := updatedRows |}
  end.

(** *** delete *)

(** The loop of the cascade over the relationships of one other table. *)
Fixpoint cascade_relationships (d tableName tableFile : string)
    (idsToDelete : list (option json)) (rels : list (string * Relationship))
    (otherTable : Table) : M Table :=
  match rels with
  | [] => ret otherTable
  | (field, rel) :: rest =>
      if String.eqb (foreignTable rel) tableName then
        let otherTable :=
          with_rows otherTable
            (List.filter
               (fun row => negb (includes idsToDelete (get row field)))
               (rows otherTable)) in
        let* _ := writeTable d tableFile otherTable in
        cascade_relationships d tableName tableFile idsToDelete rest otherTable
      else
        cascade_relationships d tableName tableFile idsToDelete rest otherTable
  end.

(** The loop of the cascade over the other table files. *)
Fixpoint cascade_tables (d tableName : string) (rowsToDelete : list object)
    (allTables : list string) : M unit :=
  match allTables with
  | [] => ret tt
  | tableFile :: rest =>
      let* otherTable := readTable d tableFile in
      let* _ :=
        cascade_relationships d tableName tableFile
          (map (fun r => get r "id") rowsToDelete)
          (relationships otherTable) otherTable in
      cascade_tables d tableName rowsToDelete rest
  end.

(** [delete(tableName, where, { cascade })] *)
Definition delete (tableName : string) (where_ : object) (cascade : bool) :
    M Result.t :=
  let* dbPath := read_currentDbPath in
  match dbPath with
  | None => throw NoDatabaseSelected
  | Some d =>
      let* found := existsSync d tableName in
      if negb found then throw (TableNotFound tableName) else
      let* table := readTable d tableName in
      let beforeCount := length (rows table) in
      let rowsToDelete := List.filter (matches where_) (rows table) in
      let* _ :=
        if cascade then
          let* files := readdirSync d in
          let allTables :=
            List.filter (fun f => negb (String.eqb f tableName)) files in
          cascade_tables d tableName rowsToDelete allTables
        else ret tt in
      let remaining :=
        List.filter (fun row => negb (matches where_ row)) (rows table) in
      let* _ := writeTable d tableName (with_rows table remaining) in
      ret {| Result.count := (beforeCount - length remaining)%nat;
             Result.rows := rowsToDelete |}
  end.

(** *** Indexes, columns, migration *)

(** The [forEach] that builds a hash index: value of the field (as a
    property name) to the positions of the rows that have it. *)
Fixpoint build_index (field : string) (rs : list object) (idx : nat)
    (index : list (string * list nat)) : list (string * list nat) :=
  match rs with
  | [] => index
  | row :: rest =>
      let index :=
        match get row field with
        | Some v =>
            let k := to_string v in
            match get index k with
            | Some positions => set k (positions ++ [idx])%list index
            | None => set k [idx] index
            end
        | None => index
        end in
      build_index field rest (S idx) index
  end.

(** [addIndex(tableName, field, { type, unique })] *)
Definition addIndex (tableName field : string) (type_ : option string)
    (unique_ : bool) : M unit :=
  let* dbPath := read_currentDbPath in
  match dbPath with
  | None => throw InvalidArgType
  | Some d =>
      let* table := readTable d tableName in
      let* now := new_Date in
      let entry :=
        {| Index.type := match type_ with
                         | Some t => if String.eqb t "" then "value" else t
                         | None => "value"
                         end;
           Index.unique := unique_;
           Index.createdAt := now;
           Index.data :=
             if bool_decide (type_ = Some "hash")
             then Some (build_index field (rows table) 0 [])
             else None |} in
      writeTable d tableName (with_indexes table (set field entry (indexes table)))
  end.

(** [addColumn(tableName, columnName, definition)], the definition being a
    type name or a definition object.  [stored] is the definition as the
    table file holds it; [defaultValue] is [None] when a default function
    returns [undefined]. *)
Definition addColumn (tableName columnName : string)
    (definition : ColumnToAdd) : M unit :=
  let* dbPath := read_currentDbPath in
  match dbPath with
  | None => throw InvalidArgType
  | Some d =>
      let* table := readTable d tableName in
      match get (columns table) columnName with
      | Some _ => throw (ColumnExists columnName)
      | None =>
          let stored := match definition with
                        | OfType t => column_of_type t
                        | OfDefinition def => def
                        | OfGenerator def _ => without_default def
                        end in
          let defaultValue :=
            match definition with
            | OfType _ => Some JNull
            | OfDefinition def =>
                match default def with
                | Some v => Some v
                | None => Some JNull
                end
            | OfGenerator _ generated => generated
            end in
          writeTable d tableName
            (with_rows (with_columns table (set columnName stored (columns table)))
               (map (fun row => written_with columnName defaultValue row)
                  (rows table)))
      end
  end.

(** [removeColumn(tableName, columnName)] *)
Definition removeColumn (tableName columnName : string) : M unit :=
  let* dbPath := read_currentDbPath in
  match dbPath with
  | None => throw InvalidArgType
  | Some d =>
      let* table := readTable d tableName in
      match get (columns table) columnName with
      | None => throw (ColumnMissing columnName)
      | Some _ =>
          writeTable d tableName
            (with_rows (with_columns table (remove columnName (columns table)))
               (map (fun row => remove columnName row) (rows table)))
      end
  end.

(** [migrate(tableName, migrationFn)]; [migrationFn row index rows] is
    [None] when the function throws. *)
Definition migrate (tableName : string)
    (migrationFn : object -> nat -> list object -> option object) : M unit :=
  let* dbPath := read_currentDbPath in
  match dbPath with
  | None => throw InvalidArgType
  | Some d =>
      let* found := existsSync d tableName in
      if negb found then throw (TableNotFound tableName) else
      let* table := readTable d tableName in
      writeTable d tableName
        (with_rows table
           (imap (fun index row =>
                    match migrationFn row index (rows table) with
                    | Some migrated => migrated
                    | None => row
                    end)
                 (rows table)))
  end.

End db.
End db.

(** ** Notions the properties are stated with *)

Section Notions.
Context `{Runtime}.

(** Every message one call of [validateRow] can push: the checks of every
    column, in schema order, then the fields the schema does not define. *)
Definition all_violations (row : object) (sch : schema)
    (existingRows : list object) : list violation :=
  (flat_map (fun cd => column_checks row existingRows (fst cd) (snd cd)) sch
   ++ extra_fields row sch)%list.

(** The default the schema declares for a column, if any. *)
Definition declared_default (sch : schema) (column : string) : option json :=
  match get sch column with
  | Some definition => default definition
  | None => None
  end.

End Notions.

(** ** A runtime to run the engine on examples

    Small stand-ins for the services of the runtime: decimal numerals,
    with or without a fraction, for the numeric value of a string,
    substring search for regular expressions, the key as a prefix of the
    plaintext for the cipher, a stable insertion sort. *)

Fixpoint digits_value (s : string) (acc : Z) : option Z :=
  match s with
  | EmptyString => Some acc
  | String c rest =>
      let n := nat_of_ascii c in
      if ((48 <=? n) && (n <=? 57))%nat
      then digits_value rest (10 * acc + Z.of_nat (n - 48))
      else None
  end.

Definition decimal (s : string) : option Z :=
  match s with
  | EmptyString => Some 0
  | String "-" rest =>
      match digits_value rest 0 with
      | Some z => Some (- z)
      | None => None
      end
  | _ => digits_value s 0
  end.

(** Decimal numerals with a fraction: [12.5] is 125/10. *)
Fixpoint fraction_value (s : string) (acc : Z) (den : positive) :
    option number :=
  match s with
  | EmptyString => Some (Finite acc den)
  | String c rest =>
      let n := nat_of_ascii c in
      if ((48 <=? n) && (n <=? 57))%nat
      then fraction_value rest (10 * acc + Z.of_nat (n - 48)) (10 * den)
      else None
  end.

Fixpoint unsigned_value (s : string) (acc : Z) : option number :=
  match s with
  | EmptyString => Some (Finite acc 1)
  | String c rest =>
      let n := nat_of_ascii c in
      if ((48 <=? n) && (n <=? 57))%nat
      then unsigned_value rest (10 * acc + Z.of_nat (n - 48))
      else if (n =? 46)%nat then fraction_value rest acc 1
      else None
  end.

Definition negated (x : number) : number :=
  match x with
  | Finite a b => Finite (- a) b
  | Infinite negative => Infinite (negb negative)
  end.

Definition unsigned_numeral (s : string) : option number :=
  if String.eqb s "Infinity" then Some (Infinite false)
  else unsigned_value s 0.

Definition numeral (s : string) : option number :=
  match decimal s with
  | Some z => Some (number_of_Z z)
  | None =>
      match s with
      | String "-" rest => option_map negated (unsigned_numeral rest)
      | _ => unsigned_numeral s
      end
  end.

Fixpoint drop_prefix (p s : string) : option string :=
  match p with
  | EmptyString => Some s
  | String a p' =>
      match s with
      | String b s' => if Ascii.eqb a b then drop_prefix p' s' else None
      | EmptyString => None
      end
  end.

Fixpoint insert_sorted (compare : object -> object -> Z) (x : object)
    (sorted : list object) : list object :=
  match sorted with
  | [] => [x]
  | y :: rest =>
      if compare x y <? 0 then x :: y :: rest
      else y :: insert_sorted compare x rest
  end.

Definition insertion_sort (compare : object -> object -> Z)
    (l : list object) : list object :=
  fold_left (fun sorted x => insert_sorted compare x sorted) l [].

Definition test_runtime : Runtime := {|
  StringToNumber := numeral;
  RegExp_test := fun p s => str_includes s p;
  Date_parse_ok := fun s => String.eqb s "2024-01-01T00:00:00.000Z";
  JSON_parse := fun s => match drop_prefix "s:" s with
                         | Some text => Some (JStr text)
                         | None => None
                         end;
  JSON_stringify := fun v => match v with
                             | JStr text => "s:" ++ text
                             | _ => to_string v
                             end;
  cipher := fun k s => Some (k ++ ":" ++ s);
  decipher := fun k c => drop_prefix (k ++ ":") c;
  uuidv4 := fun n => "00000000-0000-4000-8000-0000000000" ++ pretty (10 + n)%nat;
  toISOString := fun n => "2024-01-01T00:00:00.000Z";
  Array_sort := insertion_sort
|}.

(** [{ type: t, required: r, unique: u }], nothing else declared. *)
Definition plain_column (t : string) (r u : bool) : ColumnDefinition :=
  {| type := Some t; required := r; unique := u; min := None; max := None;
     minLength := None; maxLength := None; pattern := None; default := None |}.

(** A world with the database [main] selected and no tables. *)
Definition empty_world : World :=
  {| currentDbPath := Some "main"; disk := {[ "main" := ∅ ]}; clock := O |}.

(** The table read from a lookup, an empty one if there is none. *)
Definition default_table (t : option Table) : Table :=
  match t with
  | Some table => table
  | None =>
      {| name := ""; createdAt := ""; columns := []; relationships := [];
         rows := []; indexes := [];
         options := {| encryption := {| key := None; fields := None |};
                       timestamps := false |} |}
  end.

(** The world in which computation [m] leaves [w]. *)
Definition after {A} (m : M A) (w : World) : World := snd (m w).

(** The columns of the scenario of the specification:
    [{ name: { type: 'text', required: true }, age: { type: 'int', min: 0 } }] *)
Definition scenario_columns : list (string * ColumnSpec) :=
  [("name", Definition_ (plain_column "text" true false));
   ("age", Definition_
             {| type := Some "int"; required := false; unique := false;
                min := Some (JNum 0); max := None; minLength := None;
                maxLength := None; pattern := None; default := None |})].

(** ** Notions for batched inserts *)

Section Batches.
Context `{Runtime}.

(** [inserted n w batch stored w']: inserting the rows of [batch] one after
    the other, each in the world the one before left, succeeds, returns
    [stored] and leaves [w']. *)
Inductive inserted (n : string) : World -> list object -> list object -> World -> Prop :=
| inserted_nil w : inserted n w [] [] w
| inserted_cons w w1 w2 row result batch stored :
    db.insert n row w = (Returned result, w1) ->
    inserted n w1 batch stored w2 ->
    inserted n w (row :: batch) (result :: stored) w2.

(** How many rows table [n] of database [d] holds. *)
Definition stored_count (w : World) (d n : string) : nat :=
  length (rows (default_table (folder w d !! n))).

(** [report] tells, from what a failed [insertMany] hands to its caller
    alone, how many inserts were completed and how many were attempted. *)
Definition surfaces_counts (report : outcome (list object) -> nat * nat) : Prop :=
  forall (w : World) (d n : string) (batch : list object) (e : error),
    currentDbPath w = Some d ->
    fst (db.insertMany n batch w) = Thrown e ->
    report (Thrown e)
    = ((stored_count (snd (db.insertMany n batch w)) d n - stored_count w d n)%nat,
       length batch).

End Batches.

(** A table [people] with a caller-defined integer id and a required name,
    without timestamps. *)
Definition people_columns : list (string * ColumnSpec) :=
  [("id", TypeName "int");
   ("name", Definition_ (plain_column "text" true false));
   ("email", Definition_ (plain_column "text" false true))].

Definition people_world : World :=
  after (db.createTable (H := test_runtime) "people" people_columns [] None
           (Some false))
        empty_world.

(** ** Notions for queries *)

(** The same query without pagination and projection: what [select]
    holds after the sort. *)
Definition unpaged (opts : Query.options) : Query.options :=
  {| Query.where_ := Query.where_ opts; Query.join := Query.join opts;
     Query.orderBy := Query.orderBy opts; Query.limit := None;
     Query.offset := None; Query.fields := None |}.

(** The query that asks for everything, with the given limit and offset. *)
Definition page (limit offset : option Z) : Query.options :=
  {| Query.where_ := None; Query.join := None; Query.orderBy := None;
     Query.limit := limit; Query.offset := offset; Query.fields := None |}.


(** The same query with neither limit nor offset. *)
Definition without_page (opts : Query.options) : Query.options :=
  {| Query.where_ := Query.where_ opts; Query.join := Query.join opts;
     Query.orderBy := Query.orderBy opts; Query.limit := None;
     Query.offset := None; Query.fields := Query.fields opts |}.

(** ** Notions for cascading deletes *)

(** The local fields of the relationships that point at table [tableName]. *)
Definition referencing_fields (tableName : string)
    (rels : list (string * Relationship)) : list string :=
  map fst
    (List.filter (fun fr => String.eqb (foreignTable (snd fr)) tableName) rels).

(** A row that references none of the deleted ids through any of the
    fields. *)
Definition survives (idsToDelete : list (option json)) (fs : list string)
    (row : object) : bool :=
  forallb (fun f => negb (includes idsToDelete (get row f))) fs.

(** Table [t] after the cascade of a delete in [tableName]. *)
Definition pruned (tableName : string) (idsToDelete : list (option json))
    (t : Table) : Table :=
  with_rows t
    (List.filter
       (survives idsToDelete (referencing_fields tableName (relationships t)))
       (rows t)).

(** ** Notions for the field cipher *)

Section CipherNotions.
Context `{Runtime}.

(** [v] is a value the validator accepts for a column of type [t]: it is
    neither undefined nor null, and the type's predicate holds of it. *)
Definition of_declared_type (t : string) (v : json) : Prop :=
  nullish (Some v) = false
  /\ exists check, type_validator t = Some check /\ check v = true.

(** The string of an object is neither a date nor JSON text. *)
Definition rejects_objects : Prop :=
  Date_parse_ok "[object Object]" = false
  /\ JSON_parse "[object Object]" = None.

(** Under [key] the cipher encrypts the JSON text of [v], and the decipher
    gives it back. *)
Definition cipher_works (key : string) (v : json) : Prop :=
  exists encrypted,
    cipher key (JSON_stringify v) = Some encrypted
    /\ decipher key encrypted = Some (JSON_stringify v).

(** Under [key'] the decipher throws on what [key] encrypted from [v], or
    gives text that is not JSON. *)
Definition rejects_wrong_key (key key' : string) (v : json) : Prop :=
  forall encrypted plain,
    cipher key (JSON_stringify v) = Some encrypted ->
    decipher key' encrypted = Some plain ->
    JSON_parse plain = None.

End CipherNotions.

(** ** Notions for uniqueness *)

(** A boolean, a number or a string: the values [===] compares by value. *)
Definition primitive (v : json) : bool :=
  match v with
  | JBool _ | JNum _ | JStr _ => true
  | _ => false
  end.

(** Some row of [rs] has the id of [row]. *)
Definition id_known (rs : list object) (row : object) : bool :=
  existsb (fun r => strict_eq (get r "id") (get row "id")) rs.

(** Two rows for [people] with the same id and the same email. *)
Definition ann : object :=
  [("id", JNum 1); ("name", JStr "Ann"); ("email", JStr "a@x.org")].
Definition bob : object :=
  [("id", JNum 1); ("name", JStr "Bob"); ("email", JStr "a@x.org")].
(** A row with another id and the same email. *)
Definition cyd : object :=
  [("id", JNum 2); ("name", JStr "Cyd"); ("email", JStr "a@x.org")].

(** ** Example tables *)

(** The schema [createTable] stores for [scenario_columns]. *)
Definition scenario_schema : schema :=
  [("name", plain_column "text" true false);
   ("age", {| type := Some "int"; required := false; unique := false;
              min := Some (JNum 0); max := None; minLength := None;
              maxLength := None; pattern := None; default := None |});
   ("id", db.id_column)].

(** A table without encryption and timestamps. *)
Definition plain_table (tableName : string) (cols : schema)
    (rels : list (string * Relationship)) (rs : list object) : Table :=
  {| name := tableName; createdAt := "2024-01-01T00:00:00.000Z";
     columns := cols; relationships := rels; rows := rs; indexes := [];
     options := {| encryption := {| key := None; fields := None |};
                   timestamps := false |} |}.

(** The world with database [main] selected, holding the given tables. *)
Definition world_of (tables : list (string * Table)) : World :=
  {| currentDbPath := Some "main";
     disk := {[ "main" := list_to_map tables ]};
     clock := O |}.

(** Ten rows. *)
Definition item (i : Z) : object := [("id", JNum i)].
Definition items_table : Table :=
  plain_table "items" [("id", column_of_type "int")] []
    (map item [0; 1; 2; 3; 4; 5; 6; 7; 8; 9]).
Definition items_world : World := world_of [("items", items_table)].

(** Users and their posts: [posts.user_id] references [users.id]. *)
Definition users_table : Table :=
  plain_table "users" [("id", column_of_type "int")] []
    [[("id", JNum 1)]; [("id", JNum 2)]].
Definition posts_table : Table :=
  plain_table "posts"
    [("id", column_of_type "int"); ("user_id", column_of_type "int")]
    [("user_id", {| foreignTable := "users"; foreignKey := "id" |})]
    [[("id", JNum 10); ("user_id", JNum 1)];
     [("id", JNum 11); ("user_id", JNum 2)];
     [("id", JNum 12); ("user_id", JNum 1)];
     [("id", JNum 13); ("user_id", JNum 3)]].
Definition blog_world : World :=
  world_of [("users", users_table); ("posts", posts_table)].


(** The table [people] as [createTable] leaves it, and the world after
    [ann] has been inserted. *)
Definition people_table : Table :=
  default_table (folder people_world "main" !! "people").
Definition people_world_ann : World :=
  after (db.insert (H := test_runtime) "people" ann) people_world.

(** ** Selecting a database *)

(** The white space [String.prototype.trim] removes, among one-byte code
    units: tab, line feed, vertical tab, form feed, carriage return, space
    and the no-break space. *)
Definition is_space (c : ascii) : bool :=
  let n := nat_of_ascii c in
  ((9 <=? n) && (n <=? 13) || (n =? 32) || (n =? 160))%nat.

Fixpoint trim_start (s : string) : string :=
  match s with
  | String c rest => if is_space c then trim_start rest else s
  | EmptyString => EmptyString
  end.

Fixpoint trim_end (s : string) : string :=
  match s with
  | String c rest =>
      match trim_end rest with
      | EmptyString => if is_space c then EmptyString else String c EmptyString
      | kept => String c kept
      end
  | EmptyString => EmptyString
  end.

(** [s.trim()] *)
Definition trim (s : string) : string := trim_end (trim_start s).

(** What [use] throws: 'Database name must be a non-empty string'. *)
Inductive use_error := DatabaseNameRequired.

(** [use(databaseName)]: the name is checked before it is trimmed; the
    folder is made when it does not exist.  A database name is the name of
    a folder directly under the root, the empty name being the root
    itself. *)
Definition use (databaseName : string) (w : World) : use_error + World :=
  if String.eqb databaseName "" then inl DatabaseNameRequired
  else
    let currentDb := trim databaseName in
    inr {| currentDbPath := Some currentDb;
           disk := match disk w !! currentDb with
                   | Some _ => disk w
                   | None => <[currentDb := ∅]> (disk w)
                   end;
           clock := clock w |}.

(** ** Notions for the further properties *)

(** The definition [createTable] stores for what the caller wrote. *)
Definition stored_definition (spec : ColumnSpec) : ColumnDefinition :=
  match spec with
  | TypeName t => column_of_type t
  | Definition_ d => d
  | NotADefinition => column_of_type ""
  end.

(** The caller wrote a type name or a definition object. *)
Definition is_definition (spec : ColumnSpec) : bool :=
  match spec with
  | NotADefinition => false
  | _ => true
  end.

(** The fields [insert] fills in by itself when the row has no truthy value
    for them. *)
Definition filled_in (f : string) : bool :=
  String.eqb f "id" || String.eqb f "createdAt" || String.eqb f "updatedAt".

(** [f] is one of the fields the table stores encrypted. *)
Definition encrypted_field (t : Table) (f : string) : Prop :=
  match fields (encryption (options t)) with
  | Some fs => In f fs
  | None => False
  end.

(** A value that is an array or an object: strictly equal to no stored
    value. *)
Definition structured (v : json) : bool :=
  match v with
  | JArr _ | JObj _ => true
  | _ => false
  end.

(** The value [addColumn] writes into the rows there are: the default of a
    definition object that has one, what a default function returns
    ([None] when that is [undefined]), and null otherwise. *)
Definition fill_value (definition : ColumnToAdd) : option json :=
  match definition with
  | OfType _ => Some JNull
  | OfDefinition def =>
      Some match default def with Some v => v | None => JNull end
  | OfGenerator _ generated => generated
  end.

(** The definition [addColumn] stores: a default function is not kept. *)
Definition added_definition (definition : ColumnToAdd) : ColumnDefinition :=
  match definition with
  | OfType t => column_of_type t
  | OfDefinition def => def
  | OfGenerator def _ => without_default def
  end.

(** The positions, counted from [idx], of the rows whose value under
    [field] reads [k] as a property name. *)
Fixpoint positions (field k : string) (rs : list object) (idx : nat) :
    list nat :=
  match rs with
  | [] => []
  | row :: rest =>
      match get row field with
      | Some v =>
          if String.eqb (to_string v) k
          then idx :: positions field k rest (S idx)
          else positions field k rest (S idx)
      | None => positions field k rest (S idx)
      end
  end.

(** ** The [validate] command of the CLI

    The command reads the table units of the default database and counts
    errors and warnings; what it prints besides is left out. *)

Module cli.
Section cli.
Context `{Runtime}.

(** The [switch] on [colDef.type], for a value that is neither undefined
    nor null: whether the row counts as a type error. *)
Definition type_error (t : string) (value : json) : bool :=
  if String.eqb t "int" || String.eqb t "integer" then
    negb match Number (Some value) with
         | Some x => is_integer x
         | None => false
         end
  else if String.eqb t "float" || String.eqb t "number" then
    negb (bool_decide (is_Some (Number (Some value))))
  else if String.eqb t "boolean" then
    negb (String.eqb (typeof (Some value)) "boolean")
    && negb (existsb (String.eqb (to_string value)) ["true"; "false"; "1"; "0"])
  else if String.eqb t "text" || String.eqb t "string" then
    negb (String.eqb (typeof (Some value)) "string")
  else if String.eqb t "uuid" then negb (uuid_test (to_string value))
  else false.

(** [values.filter((v, i) => values.indexOf(v) !== i)], [seen] being the
    values before: [indexOf] finds a value at its own position unless an
    earlier one is strictly equal to it. *)
Fixpoint duplicates (seen values : list json) : list json :=
  match values with
  | [] => []
  | v :: rest =>
      if includes (map Some seen) (Some v)
      then v :: duplicates (seen ++ [v]) rest
      else duplicates (seen ++ [v]) rest
  end.

(** [rows.map(row => row[colName]).filter(v => v !== undefined)] *)
Definition column_values (rs : list object) (colName : string) : list json :=
  omap (fun row => get row colName) rs.

(** The three checks of one column. *)
Definition unique_violated (rs : list object) (colName : string)
    (colDef : ColumnDefinition) : bool :=
  unique colDef
  && (0 <? length (duplicates [] (column_values rs colName)))%nat.

Definition required_missing (rs : list object) (colName : string)
    (colDef : ColumnDefinition) : bool :=
  required colDef
  && (0 <? length (List.filter (fun row => nullish (get row colName)) rs))%nat.

Definition type_mismatch (rs : list object) (colName : string)
    (colDef : ColumnDefinition) : bool :=
  match type colDef with
  | Some t =>
      negb (String.eqb t "")
      && (0 <? length
                 (List.filter
                    (fun row =>
                       match get row colName with
                       | Some value =>
                           if nullish (Some value) then false
                           else type_error t value
                       | None => false
                       end) rs))%nat
  | None => false
  end.

(** One turn of the loop over [Object.entries(schema)], on the counters
    [errors] and [warnings]. *)
Definition column_step (rs : list object) (counters : nat * nat)
    (col : string * ColumnDefinition) : nat * nat :=
  let errors := fst counters in
  let warnings := snd counters in
  let errors :=
    if unique_violated rs (fst col) (snd col) then S errors else errors in
  let errors :=
    if required_missing rs (fst col) (snd col) then S errors else errors in
  let warnings :=
    if type_mismatch rs (fst col) (snd col) then S warnings else warnings in
  (errors, warnings).

(** The check of one relationship: the foreign table is missing, or a
    reference that is neither undefined nor null is not among the values of
    the foreign key. *)
Definition foreign_key_violated (tables : gmap string Table)
    (rs : list object) (field : string) (rel : Relationship) : bool :=
  match tables !! foreignTable rel with
  | None => true
  | Some foreignTable_ =>
      let foreignValues :=
        map (fun row => get row (foreignKey rel)) (rows foreignTable_) in
      (0 <? length
              (List.filter (fun value => negb (includes foreignValues value))
                 (List.filter (fun value => negb (nullish value))
                    (map (fun row => get row field) rs))))%nat
  end.

Definition relationship_step (tables : gmap string Table) (rs : list object)
    (counters : nat * nat) (fr : string * Relationship) : nat * nat :=
  (if foreign_key_violated tables rs (fst fr) (snd fr)
   then S (fst counters) else fst counters,
   snd counters).

(** One turn of the loop over the table files. *)
Definition validate_table (tables : gmap string Table) (counters : nat * nat)
    (tableData : Table) : nat * nat :=
  fold_left (relationship_step tables (rows tableData))
    (relationships tableData)
    (fold_left (column_step (rows tableData)) (columns tableData) counters).

(** [validate()]: [None] when the folder of the default database does not
    exist, the final [errors] and [warnings] otherwise. *)
Definition validate (files : gmap string (gmap string Table))
    (defaultDatabase : string) : option (nat * nat) :=
  match files !! defaultDatabase with
  | None => None
  | Some tables =>
      Some (fold_left (validate_table tables) (snd <$> map_to_list tables)
              (0%nat, 0%nat))
  end.

End cli.
End cli.

(** ** Examples for the further properties *)

(** A table [notes] that keeps timestamps without declaring them, and the
    world after one note has been inserted. *)
Definition notes_world : World :=
  after (db.createTable (H := test_runtime) "notes"
           [("id", TypeName "int"); ("title", TypeName "text")] [] None None)
        empty_world.
Definition note : object := [("id", JNum 1); ("title", JStr "draft")].
Definition notes_world_draft : World :=
  after (db.insert (H := test_runtime) "notes" note) notes_world.
Definition notes_table : Table :=
  default_table (folder notes_world_draft "main" !! "notes").

(** [{ type: 'int', default: 0 }] *)
Definition quantity : ColumnDefinition :=
  {| type := Some "int"; required := false; unique := false; min := None;
     max := None; minLength := None; maxLength := None; pattern := None;
     default := Some (JNum 0) |}.

(** A migration that numbers the rows. *)
Definition numbering (row : object) (index : nat) (all : list object) :
    option object :=
  Some (set "position" (JNum (Z.of_nat index)) row).

(** Posts whose references all resolve, with the users they name. *)
Definition linked_posts_table : Table :=
  plain_table "posts"
    [("id", column_of_type "int"); ("user_id", column_of_type "int")]
    [("user_id", {| foreignTable := "users"; foreignKey := "id" |})]
    [[("id", JNum 10); ("user_id", JNum 1)];
     [("id", JNum 11); ("user_id", JNum 2)]].
Definition linked_tables : gmap string Table :=
  list_to_map [("users", users_table); ("posts", linked_posts_table)].

(** Two people without an email, in a table whose emails are unique. *)
Definition unknown_emails_table : Table :=
  plain_table "people"
    [("id", column_of_type "int"); ("email", plain_column "text" false true)]
    []
    [[("id", JNum 1); ("email", JNull)]; [("id", JNum 2); ("email", JNull)]].

(** A second person, and the table with both. *)
Definition dan : object :=
  [("id", JNum 2); ("name", JStr "Dan"); ("email", JStr "d@x.org")].
Definition people_world_two : World :=
  after (db.insert (H := test_runtime) "people" dan) people_world_ann.
Definition people_table_two : Table :=
  default_table (folder people_world_two "main" !! "people").

(** A row that fails several checks at once, and holds a field whose name
    every object inherits. *)
Definition faulty : object :=
  [("name", JNum 7); ("age", JStr "-1.5"); ("nick", JStr "x");
   ("constructor", JStr "y")].

(** * Properties *)

(** ** Numbers *)

Lemma number_lt_of_Z (x y : Z) :
  number_lt (number_of_Z x) (number_of_Z y) = (x <? y).
Proof. unfold number_lt, number_of_Z. now rewrite !Z.mul_1_r. Qed.

Lemma number_le_of_Z (x y : Z) :
  number_le (number_of_Z x) (number_of_Z y) = (x <=? y).
Proof. unfold number_le, number_of_Z. now rewrite !Z.mul_1_r. Qed.

Lemma is_integer_of_Z (z : Z) : is_integer (number_of_Z z) = true.
Proof. unfold is_integer, number_of_Z. now rewrite Z.mod_1_r. Qed.

(** A string that stands for a number passes the validator of [float]
    whatever the number, and that of [int] when the number is an integer. *)
Lemma float_and_int_validators `{Runtime} (s : string) (x : number) :
  StringToNumber s = Some x ->
  (exists test, type_validator "float" = Some test /\ test (JStr s) = true)
  /\ (exists test, type_validator "int" = Some test
                   /\ test (JStr s) = is_integer x).
Proof.
  intros Hs. split; eexists; (split; [reflexivity|]); cbn [Number].
  - rewrite Hs. apply bool_decide_eq_true_2. eauto.
  - now rewrite Hs.
Qed.

Lemma fraction_is_float_not_int :
  StringToNumber (Runtime := test_runtime) "1.5" = Some (Finite 15 10)
  /\ is_integer (Finite 15 10) = false.
Proof. split; reflexivity. Qed.

(** ** Objects *)

Lemma get_set_eq {A} (k : string) (v : A) (o : list (string * A)) :
  get (set k v o) k = Some v.
Proof.
  induction o as [|[k' v'] rest IH]; simpl.
  - now rewrite String.eqb_refl.
  - destruct (String.eqb k' k) eqn:E; simpl; rewrite E; auto.
Qed.

Lemma get_set_ne {A} (k k' : string) (v : A) (o : list (string * A)) :
  k <> k' -> get (set k v o) k' = get o k'.
Proof.
  intros Hne. induction o as [|[k0 v0] rest IH]; simpl.
  - destruct (String.eqb_spec k k'); congruence.
  - destruct (String.eqb_spec k0 k) as [->|Hk]; simpl.
    + destruct (String.eqb_spec k k'); congruence.
    + destruct (String.eqb_spec k0 k'); auto.
Qed.

Lemma get_set {A} (k k' : string) (v : A) (o : list (string * A)) :
  get (set k v o) k' = if String.eqb k k' then Some v else get o k'.
Proof.
  destruct (String.eqb_spec k k') as [->|Hne].
  - apply get_set_eq.
  - now apply get_set_ne.
Qed.

Lemma get_None_keys {A} (o : list (string * A)) (k : string) :
  get o k = None <-> ~ In k (keys o).
Proof.
  induction o as [|[k' v] rest IH]; simpl.
  - tauto.
  - destruct (String.eqb_spec k' k) as [->|Hne].
    + split; [discriminate | intros Hn; exfalso; apply Hn; now left].
    + rewrite IH. tauto.
Qed.

Lemma get_In {A} (o : list (string * A)) (k : string) (v : A) :
  get o k = Some v -> In (k, v) o.
Proof.
  induction o as [|[k' v'] rest IH]; simpl; [discriminate|].
  destruct (String.eqb_spec k' k) as [->|Hne].
  - intros [= ->]. now left.
  - intros Hg. right. auto.
Qed.

Lemma In_get_NoDup {A} (o : list (string * A)) (k : string) (v : A) :
  NoDup (keys o) -> In (k, v) o -> get o k = Some v.
Proof.
  induction o as [|[k' v'] rest IH]; simpl; [tauto|].
  intros Hnd [Heq|Hin].
  - injection Heq as -> ->. now rewrite String.eqb_refl.
  - apply NoDup_cons in Hnd as [Hk Hrest].
    destruct (String.eqb_spec k' k) as [->|Hne].
    + exfalso. apply Hk. apply list_elem_of_In.
      change (In k (map fst rest)). apply in_map_iff. now exists (k, v).
    + apply IH; auto.
Qed.

(** ** The schema validator *)

Section ValidatorFacts.
Context `{Runtime}.

Lemma schema_loop_spec (row : object) (existingRows : list object)
    (sch : schema) (errors : list violation) (validatedRow : object) :
  schema_loop row existingRows sch (errors, validatedRow)
  = ((errors ++ flat_map (fun cd => column_checks row existingRows (fst cd) (snd cd)) sch)%list,
     fold_left (fun vr cd => apply_default row vr (fst cd) (snd cd)) sch validatedRow).
Proof.
  revert errors validatedRow.
  induction sch as [|[c d] rest IH]; intros errors validatedRow.
  - unfold schema_loop; simpl. now rewrite app_nil_r.
  - unfold schema_loop in *; simpl. rewrite IH. now rewrite <- app_assoc.
Qed.

Lemma validateRow_unfold (row : object) (sch : schema) (existingRows : list object) :
  SchemaValidator.validateRow row sch existingRows
  = match all_violations row sch existingRows with
    | [] => Returned (fold_left (fun vr cd => apply_default row vr (fst cd) (snd cd)) sch row)
    | errors => Thrown (SchemaValidationFailed errors)
    end.
Proof.
  unfold SchemaValidator.validateRow, all_violations.
  rewrite schema_loop_spec. simpl.
  destruct (flat_map _ sch ++ extra_fields row sch)%list; reflexivity.
Qed.

Lemma get_apply_default (row validatedRow : object) (c f : string)
    (d : ColumnDefinition) :
  get (apply_default row validatedRow c d) f
  = match get row c, default d with
    | None, Some dv => if String.eqb c f then Some dv else get validatedRow f
    | _, _ => get validatedRow f
    end.
Proof.
  unfold apply_default.
  destruct (get row c); [reflexivity|].
  destruct (default d); [apply get_set | reflexivity].
Qed.

Lemma get_defaults (row : object) (sch : schema) (validatedRow : object)
    (f : string) :
  NoDup (keys sch) ->
  get (fold_left (fun vr cd => apply_default row vr (fst cd) (snd cd)) sch validatedRow) f
  = match get row f, declared_default sch f with
    | None, Some dv => Some dv
    | _, _ => get validatedRow f
    end.
Proof.
  revert validatedRow.
  induction sch as [|[c d] rest IH]; intros validatedRow Hnd.
  - unfold declared_default; simpl. now destruct (get row f).
  - apply NoDup_cons in Hnd as [Hc Hrest]. simpl.
    rewrite IH by assumption. rewrite get_apply_default.
    unfold declared_default; simpl.
    destruct (String.eqb_spec c f) as [->|Hne].
    + assert (Hnone : get rest f = None).
      { apply get_None_keys. intros Hin. apply Hc. now apply list_elem_of_In. }
      rewrite Hnone. destruct (get row f); [reflexivity|].
      now destruct (default d).
    + destruct (get row f); [now destruct (get row c), (default d)|].
      destruct (get rest f) as [d'|]; [destruct (default d')|];
        now destruct (get row c), (default d).
Qed.

(** The checks of a column that has a value. *)
Lemma column_checks_value (row : object) (existingRows : list object)
    (c : string) (d : ColumnDefinition) (v : json) :
  get row c = Some v -> nullish (Some v) = false ->
  column_checks row existingRows c d
  = (check_type c d v ++ check_unique row existingRows c d v
     ++ check_min c d v ++ check_max c d v ++ check_minLength c d v
     ++ check_maxLength c d v ++ check_pattern c d v)%list.
Proof. intros Hv Hn. unfold column_checks. now rewrite Hv, Hn. Qed.

(** A required column without a value is reported. *)
Lemma required_reported (row : object) (existingRows : list object)
    (c : string) (d : ColumnDefinition) :
  required d = true -> nullish (get row c) = true ->
  In (Required c) (column_checks row existingRows c d).
Proof.
  intros Hr Hn. unfold column_checks. rewrite Hn, Hr. now left.
Qed.

(** A value below the minimum is reported, whatever the other checks on
    the column say. *)
Lemma minimum_reported (row : object) (existingRows : list object)
    (c : string) (d : ColumnDefinition) (v m : json) :
  get row c = Some v -> nullish (Some v) = false -> min d = Some m ->
  js_lt (Some v) (Some m) = true ->
  In (BelowMin c v m) (column_checks row existingRows c d).
Proof.
  intros Hv Hn Hm Hlt. rewrite (column_checks_value _ _ _ _ v) by assumption.
  rewrite !in_app_iff. right; right; left.
  unfold check_min. rewrite Hm, Hlt. now left.
Qed.

(** A value of the wrong type is reported. *)
Lemma type_reported (row : object) (existingRows : list object)
    (c t : string) (d : ColumnDefinition) (v : json) (check : json -> bool) :
  get row c = Some v -> nullish (Some v) = false -> type d = Some t ->
  t <> "" -> type_validator t = Some check -> check v = false ->
  In (TypeMismatch c t (typeof (Some v))) (column_checks row existingRows c d).
Proof.
  intros Hv Hn Ht Hne Hty Hc. rewrite (column_checks_value _ _ _ _ v) by assumption.
  apply String.eqb_neq in Hne.
  rewrite in_app_iff. left.
  unfold check_type. rewrite Ht, Hne, Hty, Hc. now left.
Qed.

(** A duplicate of a stored value is reported for a row whose id no stored
    row has. *)
Lemma duplicate_reported (row : object) (existingRows : list object)
    (c : string) (d : ColumnDefinition) (v : json) :
  get row c = Some v -> nullish (Some v) = false -> unique d = true ->
  includes (map (fun r => get r c) existingRows) (Some v) = true ->
  existsb (fun r => strict_eq (get r "id") (get row "id")) existingRows = false ->
  In (NotUnique c v) (column_checks row existingRows c d).
Proof.
  intros Hv Hn Hu Hincl Hnew. rewrite (column_checks_value _ _ _ _ v) by assumption.
  rewrite !in_app_iff. right; left.
  unfold check_unique. rewrite Hu, Hincl, Hnew. now left.
Qed.

(** Only the uniqueness block pushes a uniqueness message. *)
Ltac other_block H :=
  cbv zeta in H;
  repeat match type of H with
         | In _ (match ?e with _ => _ end) => destruct e; simpl in H
         | In _ (if ?e then _ else _) => destruct e; simpl in H
         | _ \/ _ => destruct H as [H|H]
         | False => destruct H
         end;
  try discriminate.

Lemma duplicate_inv (row : object) (existingRows : list object)
    (c c' : string) (d : ColumnDefinition) (v : json) :
  In (NotUnique c' v) (column_checks row existingRows c d) ->
  c' = c /\ get row c = Some v /\ unique d = true
  /\ includes (map (fun r => get r c) existingRows) (Some v) = true
  /\ existsb (fun r => strict_eq (get r "id") (get row "id")) existingRows = false.
Proof.
  unfold column_checks. intros Hin.
  destruct (nullish (get row c)) eqn:Hn.
  { destruct (required d); simpl in Hin; [destruct Hin as [Hin|[]]|destruct Hin]; discriminate. }
  destruct (get row c) as [x|] eqn:Hv; [|destruct Hin].
  rewrite !in_app_iff in Hin.
  destruct Hin as [Hin|[Hin|[Hin|[Hin|[Hin|[Hin|Hin]]]]]].
  - unfold check_type in Hin. other_block Hin.
  - unfold check_unique in Hin.
    destruct (unique d) eqn:Hu; simpl in Hin; [|destruct Hin].
    destruct (includes _ _) eqn:Hi; simpl in Hin; [|destruct Hin].
    destruct (existsb _ _) eqn:He; simpl in Hin; [destruct Hin|].
    destruct Hin as [Heq|[]]. injection Heq as -> ->. auto.
  - unfold check_min in Hin. other_block Hin.
  - unfold check_max in Hin. other_block Hin.
  - unfold check_minLength in Hin. other_block Hin.
  - unfold check_maxLength in Hin. other_block Hin.
  - unfold check_pattern in Hin. other_block Hin.
Qed.

End ValidatorFacts.

(** C9. Row validation accumulates: for every column, each check that fails
    (the type, the required value, the uniqueness, the minimum and the
    maximum, the two lengths, the pattern) has its message among the
    errors, whatever the other checks of the column and the other columns
    say, and so has every field of the row that the schema does not define;
    if there is any message, validation throws one error that carries them
    all; if there is none, it returns the row, each absent field holding
    the default its column declares. *)
Theorem validateRow_accumulates `{Runtime} (row : object) (sch : schema)
    (existingRows : list object) :
  let errors := all_violations row sch existingRows in
  (forall c d, In (c, d) sch ->
     (required d = true -> nullish (get row c) = true ->
      In (Required c) errors)
     /\ (forall v, get row c = Some v -> v <> JNull ->
           (forall t test,
              type d = Some t -> t <> "" -> type_validator t = Some test ->
              test v = false ->
              In (TypeMismatch c t (typeof (Some v))) errors)
           /\ (unique d = true ->
               includes (map (fun r => get r c) existingRows) (Some v) = true ->
               existsb (fun r => strict_eq (get r "id") (get row "id"))
                       existingRows = false ->
               In (NotUnique c v) errors)
           /\ (forall m, min d = Some m -> js_lt (Some v) (Some m) = true ->
                 In (BelowMin c v m) errors)
           /\ (forall m, max d = Some m -> js_gt (Some v) (Some m) = true ->
                 In (AboveMax c v m) errors)
           /\ (forall m, minLength d = Some m ->
                 js_lt (Some (JNum (Z.of_nat (String.length (to_string v)))))
                       (Some m) = true ->
                 In (TooShort c (Z.of_nat (String.length (to_string v))) m)
                    errors)
           /\ (forall m, maxLength d = Some m ->
                 js_gt (Some (JNum (Z.of_nat (String.length (to_string v)))))
                       (Some m) = true ->
                 In (TooLong c (Z.of_nat (String.length (to_string v))) m)
                    errors)
           /\ (forall p, pattern d = Some p -> p <> "" ->
                 RegExp_test p (to_string v) = false ->
                 In (PatternMismatch c v p) errors)))
  /\ (forall c d v, In (c, d) sch ->
                    In v (column_checks row existingRows c d) -> In v errors)
  /\ (forall f, In f (keys row) -> get sch f = None -> inherited f = false ->
                f <> "id" -> In (UndefinedField f) errors)
  /\ (errors <> [] ->
      SchemaValidator.validateRow row sch existingRows
      = Thrown (SchemaValidationFailed errors))
  /\ (errors = [] ->
      exists validatedRow,
        SchemaValidator.validateRow row sch existingRows = Returned validatedRow
        /\ (NoDup (keys sch) ->
            forall f, get validatedRow f
                      = match get row f with
                        | Some v => Some v
                        | None => declared_default sch f
                        end)).
Proof.
  intros errors. subst errors.
  assert (Hcolumn : forall c d v, In (c, d) sch ->
            In v (column_checks row existingRows c d) ->
            In v (all_violations row sch existingRows)).
  { intros c d v Hin Hv. unfold all_violations. apply in_app_iff. left.
    apply in_flat_map. now exists (c, d). }
  split; [|split; [exact Hcolumn|split; [|split]]].
  - intros c d Hin. split.
    + intros Hr Hn. apply (Hcolumn c d _ Hin). now apply required_reported.
    + intros v Hv Hnull.
      assert (Hn : nullish (Some v) = false)
        by (destruct v; [contradiction|reflexivity..]).
      pose proof (column_checks_value row existingRows c d v Hv Hn) as Hchecks.
      split; [|split; [|split; [|split; [|split; [|split]]]]].
      * intros t test Ht Hne Hty Htest. apply (Hcolumn c d _ Hin).
        now apply (type_reported row existingRows c t d v test).
      * intros Hu Hincl Hnew. apply (Hcolumn c d _ Hin).
        now apply duplicate_reported.
      * intros m Hm Hlt. apply (Hcolumn c d _ Hin).
        now apply minimum_reported.
      * intros m Hm Hgt. apply (Hcolumn c d _ Hin). rewrite Hchecks.
        rewrite !in_app_iff. right; right; right; left.
        unfold check_max. rewrite Hm, Hgt. now left.
      * intros m Hm Hlt. apply (Hcolumn c d _ Hin). rewrite Hchecks.
        rewrite !in_app_iff. right; right; right; right; left.
        unfold check_minLength. rewrite Hm. cbn zeta. rewrite Hlt. now left.
      * intros m Hm Hgt. apply (Hcolumn c d _ Hin). rewrite Hchecks.
        rewrite !in_app_iff. right; right; right; right; right; left.
        unfold check_maxLength. rewrite Hm. cbn zeta. rewrite Hgt. now left.
      * intros p Hp Hne Htest. apply (Hcolumn c d _ Hin). rewrite Hchecks.
        rewrite !in_app_iff. right; right; right; right; right; right.
        unfold check_pattern. rewrite Hp, Htest.
        apply String.eqb_neq in Hne. rewrite Hne. now left.
  - intros f Hin Hnone Hinh Hid. unfold all_violations. apply in_app_iff. right.
    unfold extra_fields. apply in_flat_map. exists f. split; [assumption|].
    rewrite Hnone, Hinh. apply String.eqb_neq in Hid. rewrite Hid.
    rewrite bool_decide_eq_false_2 by (intros [x Hx]; discriminate).
    now left.
  - intros Hne. rewrite validateRow_unfold.
    destruct (all_violations row sch existingRows); congruence.
  - intros Hnil. rewrite validateRow_unfold, Hnil.
    eexists. split; [reflexivity|].
    intros Hnd f. rewrite get_defaults by assumption.
    destruct (get row f); [reflexivity|]. now destruct (declared_default sch f).
Qed.

(** ** The table store and insert *)

Section StoreFacts.
Context `{Runtime}.

Lemma folder_same_disk (w w' : World) (d : string) :
  disk w' = disk w -> folder w' d = folder w d.
Proof. intros Hd. unfold folder. now rewrite Hd. Qed.

Lemma folder_writeTable (w : World) (d n : string) (t : Table) :
  folder (snd (writeTable d n t w)) d = <[n := t]> (folder w d).
Proof. unfold folder at 1; simpl. now rewrite lookup_insert_eq. Qed.

Lemma folder_writeTable_ne (w : World) (d d' n : string) (t : Table) :
  d <> d' -> folder (snd (writeTable d n t w)) d' = folder w d'.
Proof. intros Hne. unfold folder; simpl. now rewrite lookup_insert_ne. Qed.

Lemma assign_id_run (t : Table) (validatedRow : object) (w : World) :
  exists r w1,
    db.assign_id t validatedRow w = (Returned r, w1)
    /\ disk w1 = disk w /\ currentDbPath w1 = currentDbPath w.
Proof.
  unfold db.assign_id.
  destruct (get (columns t) "id") as [idc|]; [|now eexists _, _].
  destruct (_ && _); [|now eexists _, _].
  unfold bind, new_uuid, ret; simpl. now eexists _, _.
Qed.

Lemma stamp_run (t : Table) (validatedRow : object) (w : World) :
  exists r w1,
    db.stamp t validatedRow w = (Returned r, w1)
    /\ disk w1 = disk w /\ currentDbPath w1 = currentDbPath w.
Proof.
  unfold db.stamp.
  destruct (timestamps (options t)); [|now eexists _, _].
  unfold bind, new_Date, ret; simpl. now eexists _, _.
Qed.

Lemma check_foreign_keys_world (d : string) (rels : list (string * Relationship))
    (validatedRow : object) (w w' : World) (o : outcome unit) :
  db.check_foreign_keys d rels validatedRow w = (o, w') -> w' = w.
Proof.
  induction rels as [|[field rel] rest IH]; simpl.
  - unfold ret. now intros [= _ ->].
  - destruct (get validatedRow field) as [v|]; [|exact IH].
    unfold bind, existsSync, readTable, throw; simpl.
    destruct (folder w d !! foreignTable rel) as [ft|] eqn:Hft; simpl.
    + rewrite Hft.
      destruct (existsb _ (rows ft)); simpl; [exact IH | now intros [= _ ->]].
    + now intros [= _ ->].
Qed.

Lemma insert_unfold (w : World) (d n : string) (t : Table) (row : object) :
  currentDbPath w = Some d -> folder w d !! n = Some t ->
  db.insert n row w
  = match SchemaValidator.validateRow row (columns t) (rows t) with
    | Thrown e => (Thrown e, w)
    | Returned validatedRow =>
        (let* r1 := db.assign_id t validatedRow in
         let* r2 := db.stamp t r1 in
         let* _ := db.check_foreign_keys d (relationships t) r2 in
         let r3 := db.encrypt_fields (encryption (options t)) r2 in
         let* _ := writeTable d n (with_rows t (rows t ++ [r3])) in
         ret r3) w
    end.
Proof.
  intros Hd Ht. unfold db.insert, bind at 1, read_currentDbPath. rewrite Hd.
  unfold bind at 1, existsSync. rewrite Ht.
  rewrite bool_decide_eq_true_2 by eauto. simpl.
  unfold bind at 1, readTable. rewrite Ht.
  unfold bind at 1, lift.
  destruct (SchemaValidator.validateRow row (columns t) (rows t)); reflexivity.
Qed.

Lemma insert_no_database (w : World) (n : string) (row : object) :
  currentDbPath w = None -> db.insert n row w = (Thrown NoDatabaseSelected, w).
Proof.
  intros Hd. unfold db.insert, bind, read_currentDbPath. now rewrite Hd.
Qed.

Lemma insert_missing (w : World) (d n : string) (row : object) :
  currentDbPath w = Some d -> folder w d !! n = None ->
  db.insert n row w = (Thrown (TableNotFound n), w).
Proof.
  intros Hd Ht. unfold db.insert, bind, read_currentDbPath, existsSync.
  rewrite Hd, Ht.
  now rewrite bool_decide_eq_false_2 by (intros [x Hx]; discriminate).
Qed.

(** What a successful insert leaves behind: the table, with the returned
    row appended, in the selected database. *)
Lemma insert_success_inv (w w' : World) (n : string) (row stored : object) :
  db.insert n row w = (Returned stored, w') ->
  exists d t validatedRow,
    currentDbPath w = Some d /\ folder w d !! n = Some t
    /\ SchemaValidator.validateRow row (columns t) (rows t) = Returned validatedRow
    /\ currentDbPath w' = Some d
    /\ folder w' d = <[n := with_rows t (rows t ++ [stored])]> (folder w d)
    /\ (forall d', d <> d' -> folder w' d' = folder w d').
Proof.
  intros Hrun.
  destruct (currentDbPath w) as [d|] eqn:Hd;
    [|rewrite insert_no_database in Hrun by assumption; discriminate].
  destruct (folder w d !! n) as [t|] eqn:Ht;
    [|rewrite (insert_missing w d) in Hrun by assumption; discriminate].
  rewrite (insert_unfold w d n t) in Hrun by assumption.
  destruct (SchemaValidator.validateRow row (columns t) (rows t))
    as [validatedRow|e] eqn:Hv; [|discriminate].
  unfold bind in Hrun.
  destruct (assign_id_run t validatedRow w) as (r1 & w1 & Hr1 & Hd1 & Hp1).
  rewrite Hr1 in Hrun.
  destruct (stamp_run t r1 w1) as (r2 & w2 & Hr2 & Hd2 & Hp2).
  rewrite Hr2 in Hrun.
  destruct (db.check_foreign_keys d (relationships t) r2 w2) as [[[]|e] w3] eqn:Hfk;
    [|discriminate].
  apply check_foreign_keys_world in Hfk. subst w3.
  unfold ret in Hrun. injection Hrun as Hs Hw. rewrite Hs in Hw. subst w'.
  exists d, t, validatedRow. repeat split; try assumption.
  - simpl. congruence.
  - change (folder (snd (writeTable d n (with_rows t (rows t ++ [stored])) w2)) d
            = <[n := with_rows t (rows t ++ [stored])]> (folder w d)).
    rewrite folder_writeTable. f_equal. apply folder_same_disk. congruence.
  - intros d' Hne.
    change (folder (snd (writeTable d n (with_rows t (rows t ++ [stored])) w2)) d'
            = folder w d').
    rewrite folder_writeTable_ne by assumption.
    apply folder_same_disk. congruence.
Qed.

(** A failed insert writes nothing. *)
Lemma insert_failure_disk (w w' : World) (n : string) (row : object) (e : error) :
  db.insert n row w = (Thrown e, w') ->
  disk w' = disk w /\ currentDbPath w' = currentDbPath w.
Proof.
  intros Hrun.
  destruct (currentDbPath w) as [d|] eqn:Hd;
    [|rewrite insert_no_database in Hrun by assumption;
      injection Hrun as _ <-; auto].
  destruct (folder w d !! n) as [t|] eqn:Ht;
    [|rewrite (insert_missing w d) in Hrun by assumption;
      injection Hrun as _ <-; auto].
  rewrite (insert_unfold w d n t) in Hrun by assumption.
  destruct (SchemaValidator.validateRow row (columns t) (rows t))
    as [validatedRow|e'] eqn:Hv; [|injection Hrun as _ <-; auto].
  unfold bind in Hrun.
  destruct (assign_id_run t validatedRow w) as (r1 & w1 & Hr1 & Hd1 & Hp1).
  rewrite Hr1 in Hrun.
  destruct (stamp_run t r1 w1) as (r2 & w2 & Hr2 & Hd2 & Hp2).
  rewrite Hr2 in Hrun.
  destruct (db.check_foreign_keys d (relationships t) r2 w2) as [[[]|e'] w3] eqn:Hfk.
  - discriminate.
  - apply check_foreign_keys_world in Hfk. subst w3.
    injection Hrun as _ <-. split; congruence.
Qed.

(** A row without an id never gets past the validation of a table whose
    id column is required: the identifier block of [insert] comes too
    late for it. *)
Lemma insert_without_id (w : World) (d n : string) (t : Table)
    (idc : ColumnDefinition) (row : object) :
  currentDbPath w = Some d -> folder w d !! n = Some t ->
  get (columns t) "id" = Some idc -> required idc = true ->
  nullish (get row "id") = true ->
  exists errors,
    db.insert n row w = (Thrown (SchemaValidationFailed errors), w)
    /\ In (Required "id") errors.
Proof.
  intros Hd Ht Hid Hreq Hnull.
  rewrite (insert_unfold w d n t) by assumption.
  rewrite validateRow_unfold.
  assert (Hin : In (Required "id") (all_violations row (columns t) (rows t))).
  { unfold all_violations. apply in_app_iff. left. apply in_flat_map.
    exists ("id", idc). split; [now apply get_In|].
    now apply required_reported. }
  destruct (all_violations row (columns t) (rows t)) as [|v vs]; [destruct Hin|].
  now eexists.
Qed.

End StoreFacts.

(** C1. What the engine does on the scenario of the specification: the
    table created from [scenario_columns] gains the required id column; the
    insert of [{name:'a', age:-1}] is rejected with a message that names
    [age]; the insert of [{name:'a', age:5}] is rejected too, with the
    message that column id is required, and nothing is stored: validation
    runs before the identifier block of [insert] can generate the id. *)
Theorem scenario_insert_rejected `{Runtime} :
  let w := after (db.createTable "t" scenario_columns [] None None) empty_world in
  get (columns (default_table (folder w "main" !! "t"))) "id" = Some db.id_column
  /\ db.insert "t" [("name", JStr "a"); ("age", JNum (-1))] w
     = (Thrown (SchemaValidationFailed
                  [BelowMin "age" (JNum (-1)) (JNum 0); Required "id"]), w)
  /\ db.insert "t" [("name", JStr "a"); ("age", JNum 5)] w
     = (Thrown (SchemaValidationFailed [Required "id"]), w).
Proof. vm_compute. repeat split; reflexivity. Qed.

(** ** Batched inserts *)

Section BatchFacts.
Context `{Runtime}.

Lemma insertMany_loop_completed (n : string) (w w1 : World)
    (batch stored results : list object) :
  inserted n w batch stored w1 ->
  db.insertMany_loop n batch results w = (Returned (results ++ stored)%list, w1).
Proof.
  intros Hins. revert results.
  induction Hins as [w|w w1 w2 row result batch stored Hrow Hrest IH];
    intros results; simpl.
  - unfold ret. now rewrite app_nil_r.
  - unfold bind. rewrite Hrow, IH. now rewrite <- app_assoc.
Qed.

Lemma insertMany_loop_failed (n : string) (w w1 w2 : World)
    (batch stored results rest : list object) (bad : object) (e : error) :
  inserted n w batch stored w1 ->
  db.insert n bad w1 = (Thrown e, w2) ->
  db.insertMany_loop n (batch ++ bad :: rest)%list results w = (Thrown e, w2).
Proof.
  intros Hins Hbad. revert results.
  induction Hins as [w|w w1 w3 row result batch stored Hrow Hrest IH];
    intros results; simpl.
  - unfold bind. now rewrite Hbad.
  - unfold bind. rewrite Hrow. now apply IH.
Qed.

End BatchFacts.

(** C7 (as amended). [insertMany] runs its inserts one after the other, each
    in the world its predecessor left.  If all succeed it returns their
    rows in order.  If one fails, the rows inserted before it stay in the
    table file, the remaining elements are not attempted, and the caller
    receives the error of the failed insert and nothing else. *)
Theorem insertMany_sequential `{Runtime} (n : string) (w w1 : World)
    (batch stored : list object) :
  inserted n w batch stored w1 ->
  db.insertMany n batch w = (Returned stored, w1)
  /\ forall (bad : object) (rest : list object) (e : error) (w2 : World),
       db.insert n bad w1 = (Thrown e, w2) ->
       db.insertMany n (batch ++ bad :: rest)%list w = (Thrown e, w2)
       /\ disk w2 = disk w1.
Proof.
  intros Hins. split.
  - unfold db.insertMany. now rewrite (insertMany_loop_completed n w w1 batch stored).
  - intros bad rest e w2 Hbad. split.
    + unfold db.insertMany. now apply (insertMany_loop_failed n w w1 w2 batch stored).
    + now apply insert_failure_disk in Hbad.
Qed.

(** C7 (the claim as stated fails). Two batches into [people]: one whose only
    element fails (none of one completed), one whose second element fails
    (one of three completed).  The caller receives the same thing from
    both, so nothing it receives tells the two counts. *)
Lemma insertMany_counts_not_surfaced :
  ~ exists report, surfaces_counts (H := test_runtime) report.
Proof.
  intros [report Hrep].
  pose proof (Hrep people_world "main" "people"
                [[("id", JNum 1)]]
                (SchemaValidationFailed [Required "name"])
                eq_refl eq_refl) as Hone.
  pose proof (Hrep people_world "main" "people"
                [[("id", JNum 1); ("name", JStr "a")];
                 [("id", JNum 2)];
                 [("id", JNum 3); ("name", JStr "c")]]
                (SchemaValidationFailed [Required "name"])
                eq_refl eq_refl) as Hthree.
  vm_compute in Hone, Hthree. congruence.
Qed.

(** ** Existence checks *)

Section ExistenceFacts.
Context `{Runtime}.

(** [createTable] refuses a table whose file exists. *)
Lemma createTable_exists (w : World) (d n : string) (t : Table)
    (cols : list (string * ColumnSpec)) (rels : list (string * Relationship))
    (enc : option Encryption) (ts : option bool) :
  currentDbPath w = Some d -> folder w d !! n = Some t -> n <> "" ->
  db.createTable n cols rels enc ts w = (Thrown (TableExists n), w).
Proof.
  intros Hd Ht Hn. unfold db.createTable, bind, read_currentDbPath, existsSync.
  apply String.eqb_neq in Hn. cbn beta iota. rewrite Hd, Hn. cbn beta iota.
  now rewrite Ht.
Qed.

(** The operations that look for the file first report a missing table. *)
Lemma guarded_operations_missing (w : World) (d n : string) :
  currentDbPath w = Some d -> folder w d !! n = None ->
  (forall row, db.insert n row w = (Thrown (TableNotFound n), w))
  /\ (forall opts, db.select n opts w = (Thrown (TableNotFound n), w))
  /\ (forall updates where_,
        db.update n updates where_ w = (Thrown (TableNotFound n), w))
  /\ (forall where_ cascade,
        db.delete n where_ cascade w = (Thrown (TableNotFound n), w))
  /\ (forall f, db.migrate n f w = (Thrown (TableNotFound n), w)).
Proof.
  intros Hd Ht. repeat split; intros;
    [unfold db.insert | unfold db.select | unfold db.update | unfold db.delete
     | unfold db.migrate];
    unfold bind, read_currentDbPath, existsSync; cbn beta iota; rewrite Hd;
    cbn beta iota; rewrite Ht; reflexivity.
Qed.

End ExistenceFacts.

(** C6. What the engine does when the table file is missing: [addIndex],
    [addColumn] and [removeColumn] do not look for the file as the other
    operations do; they read it, and what the caller gets is the ENOENT
    error of [fs.readFileSync], not the table-not-found error. *)
Theorem unguarded_operations_missing `{Runtime} (w : World) (d n : string) :
  currentDbPath w = Some d -> folder w d !! n = None ->
  (forall field type_ unique_,
     db.addIndex n field type_ unique_ w = (Thrown (ENOENT (n ++ ".table")), w))
  /\ (forall columnName definition,
        db.addColumn n columnName definition w
        = (Thrown (ENOENT (n ++ ".table")), w))
  /\ (forall columnName,
        db.removeColumn n columnName w = (Thrown (ENOENT (n ++ ".table")), w))
  /\ ENOENT (n ++ ".table") <> TableNotFound n.
Proof.
  intros Hd Ht. repeat split; intros;
    [unfold db.addIndex | unfold db.addColumn | unfold db.removeColumn | discriminate];
    unfold bind, read_currentDbPath, readTable; cbn beta iota; rewrite Hd;
    cbn beta iota; rewrite Ht; reflexivity.
Qed.

(** ** The query pipeline *)

Section QueryFacts.
Context `{Runtime}.

Lemma join_loop_world (d : string) (joins : list Join.spec) (rs : list object)
    (w w' : World) (o : outcome (list object)) :
  db.join_loop d joins rs w = (o, w') -> w' = w.
Proof.
  revert rs. induction joins as [|j rest IH]; intros rs; simpl.
  - unfold ret. now intros [= _ ->].
  - unfold bind, existsSync, readTable. cbn beta iota.
    destruct (folder w d !! Join.table j) as [jt|] eqn:Hj; cbn.
    + rewrite Hj. apply IH.
    + destruct (String.eqb _ "inner"); [now intros [= _ ->] | apply IH].
Qed.

Lemma join_stage_world (d : string) (joins : option (list Join.spec))
    (rs : list object) (w w' : World) (o : outcome (list object)) :
  db.join_stage d joins rs w = (o, w') -> w' = w.
Proof.
  destruct joins as [js|]; simpl.
  - apply join_loop_world.
  - unfold ret. now intros [= _ ->].
Qed.

(** The decrypt stage of [select] never throws: [_decryptField] is only
    handed truthy values, and it keeps the number of rows. *)
Lemma decryptField_total (v : json) (key : option string) :
  v <> JNull -> exists plain, _decryptField v key = Returned plain.
Proof.
  intros Hv. destruct v as [|b|z|s|items|props]; cbn [_decryptField].
  - now destruct Hv.
  - now eexists.
  - now eexists.
  - now eexists.
  - now eexists.
  - destruct (_ || _); [now eexists|].
    destruct key as [k|]; [|now eexists].
    destruct (get props "data") as [[| | |data| |]|]; try (now eexists).
    destruct (decipher k data) as [decrypted|]; [|now eexists].
    destruct (JSON_parse decrypted); now eexists.
Qed.

Lemma decrypt_fields_total (key : option string) (fs : list string) :
  forall row, exists plain, db.decrypt_fields key fs row = Returned plain.
Proof.
  induction fs as [|field rest IH]; intros row; cbn [db.decrypt_fields].
  - now exists row.
  - destruct (get row field) as [v|]; [|apply IH].
    destruct (truthy (Some v) && _ && _) eqn:Hguard; [|apply IH].
    destruct (decryptField_total v key) as (plain & ->); [|apply IH].
    intros ->. discriminate.
Qed.

Lemma decrypt_rows_total (key : option string) (fs : list string)
    (rs : list object) :
  exists plain,
    db.decrypt_rows key fs rs = Returned plain /\ length plain = length rs.
Proof.
  induction rs as [|row rest (more & Hmore & Hlen)]; cbn [db.decrypt_rows].
  - now exists [].
  - destruct (decrypt_fields_total key fs row) as (plain & ->).
    rewrite Hmore. exists (plain :: more). split; [reflexivity|].
    cbn [length]. now rewrite Hlen.
Qed.

Lemma decrypt_stage_total (enc : Encryption) (rs : list object) :
  exists plain,
    db.decrypt_stage enc rs = Returned plain
    /\ length plain = length rs
    /\ (fields enc = None -> plain = rs).
Proof.
  unfold db.decrypt_stage. destruct (fields enc) as [fs|].
  - destruct (decrypt_rows_total (key enc) fs rs) as (plain & Hrun & Hlen).
    exists plain. repeat split; try assumption. discriminate.
  - now exists rs.
Qed.

Lemma select_unfold (w : World) (d n : string) (t : Table) (opts : Query.options) :
  currentDbPath w = Some d -> folder w d !! n = Some t ->
  db.select n opts w
  = match db.decrypt_stage (encryption (options t)) (rows t) with
    | Thrown e => (Thrown e, w)
    | Returned rs =>
        match db.join_stage d (Query.join opts)
                (db.where_stage (Query.where_ opts) rs) w with
        | (Returned joined, w') =>
            (Returned
               (db.project (Query.fields opts)
                  (db.paginate (Query.limit opts) (Query.offset opts)
                     (db.sort_stage (Query.orderBy opts) joined))), w')
        | (Thrown e, w') => (Thrown e, w')
        end
    end.
Proof.
  intros Hd Ht. unfold db.select, bind at 1, read_currentDbPath. rewrite Hd.
  unfold bind at 1, existsSync. rewrite Ht.
  rewrite bool_decide_eq_true_2 by eauto. cbn [negb].
  unfold bind at 1, readTable. rewrite Ht.
  unfold bind at 1, lift.
  destruct (db.decrypt_stage _ _) as [rs|e]; [|reflexivity].
  unfold bind, ret. destruct (db.join_stage _ _ _ w) as [[joined|e] w']; reflexivity.
Qed.

Lemma select_no_database (w : World) (n : string) (opts : Query.options) :
  currentDbPath w = None -> db.select n opts w = (Thrown NoDatabaseSelected, w).
Proof.
  intros Hd. unfold db.select, bind, read_currentDbPath. now rewrite Hd.
Qed.

(** [select] with pagination and projection is [select] without, then
    [paginate], then [project]. *)
Lemma select_factors (n : string) (opts : Query.options) (w w' : World)
    (rs : list object) :
  db.select n (unpaged opts) w = (Returned rs, w') ->
  db.select n opts w
  = (Returned (db.project (Query.fields opts)
                 (db.paginate (Query.limit opts) (Query.offset opts) rs)), w').
Proof.
  intros Hrun.
  destruct (currentDbPath w) as [d|] eqn:Hd;
    [|rewrite select_no_database in Hrun by assumption; discriminate].
  destruct (folder w d !! n) as [t|] eqn:Ht.
  2:{ destruct (guarded_operations_missing w d n Hd Ht) as (_ & Hsel & _).
      rewrite Hsel in Hrun. discriminate. }
  rewrite (select_unfold w d n t) in * by assumption.
  destruct (db.decrypt_stage _ _) as [plain|e]; [|discriminate].
  simpl in Hrun.
  destruct (db.join_stage _ _ _ w) as [[joined|e] w1]; [|discriminate].
  simpl in Hrun. now injection Hrun as <- <-.
Qed.

Lemma firstn_min_length {A} (a : nat) (l : list A) :
  firstn (Nat.min a (length l)) l = firstn a l.
Proof.
  destruct (Nat.le_gt_cases a (length l)) as [Hle|Hgt].
  - now rewrite Nat.min_l.
  - rewrite Nat.min_r by lia. rewrite firstn_all.
    symmetry. apply firstn_all2. lia.
Qed.

(** [slice] with an offset and a count that are not negative. *)
Lemma slice_window {A} (l : list A) (o c : Z) :
  0 <= o -> 0 <= c ->
  slice l o (o + c) = firstn (Z.to_nat c) (skipn (Z.to_nat o) l).
Proof.
  intros Ho Hc. unfold slice.
  assert (Ho' : (o <? 0) = false) by lia. assert (Hoc : (o + c <? 0) = false) by lia.
  rewrite Ho', Hoc.
  destruct (Z.le_gt_cases (Z.of_nat (length l)) o) as [Hbig|Hsmall].
  - rewrite !Z.min_r by lia. rewrite Z.sub_diag. simpl.
    rewrite (skipn_all2 (n := Z.to_nat o) l) by lia. now rewrite firstn_nil.
  - rewrite (Z.min_l o) by lia.
    rewrite <- (firstn_min_length (Z.to_nat c)). f_equal.
    rewrite length_skipn. lia.
Qed.

(** A limit of zero and no offset, or an offset of zero: no pagination. *)
Lemma paginate_limit_zero (offset : option Z) (rs : list object) :
  offset = None \/ offset = Some 0 ->
  db.paginate (Some 0) offset rs = rs.
Proof. intros [->| ->]; reflexivity. Qed.

Lemma paginate_window (l o : Z) (rs : list object) :
  0 <= o -> 0 < l ->
  db.paginate (Some l) (Some o) rs = firstn (Z.to_nat l) (skipn (Z.to_nat o) rs).
Proof.
  intros Ho Hl. unfold db.paginate, db.nonzero.
  assert (Hl0 : (l =? 0) = false) by lia. rewrite Hl0. cbn [negb orb].
  destruct (o =? 0) eqn:Ho0.
  - assert (o = 0) by lia. subst o. now rewrite slice_window by lia.
  - now rewrite slice_window by lia.
Qed.

Lemma paginate_limit_only (l : Z) (rs : list object) :
  0 < l -> db.paginate (Some l) None rs = firstn (Z.to_nat l) rs.
Proof.
  intros Hl. unfold db.paginate, db.nonzero.
  assert (Hl0 : (l =? 0) = false) by lia. rewrite Hl0. cbn [negb orb].
  now rewrite slice_window by lia.
Qed.

Lemma paginate_offset_only (o : Z) (rs : list object) :
  0 <= o -> db.paginate None (Some o) rs = skipn (Z.to_nat o) rs.
Proof.
  intros Ho. unfold db.paginate, db.nonzero. cbn [orb].
  destruct (o =? 0) eqn:Ho0; cbn [negb].
  - assert (o = 0) by lia. now subst o.
  - rewrite slice_window by lia. rewrite Nat2Z.id.
    apply firstn_all2. rewrite length_skipn. lia.
Qed.

End QueryFacts.

(** C8. Pagination applies the offset, zero when there is none, and then the
    limit, everything that remains when there is none, to the rows as they
    stand after the sort; on ten such rows, offset 3 and limit 4 return the
    rows at positions 3, 4, 5 and 6. *)
Theorem select_paginates `{Runtime} (n : string) (opts : Query.options)
    (w w' : World) (rs : list object) :
  db.select n (unpaged opts) w = (Returned rs, w') ->
  db.select n opts w
  = (Returned (db.project (Query.fields opts)
                 (db.paginate (Query.limit opts) (Query.offset opts) rs)), w')
  /\ (forall o l, 0 <= o -> 0 < l ->
        db.paginate (Some l) (Some o) rs
        = firstn (Z.to_nat l) (skipn (Z.to_nat o) rs))
  /\ (forall l, 0 < l -> db.paginate (Some l) None rs = firstn (Z.to_nat l) rs)
  /\ (forall o, 0 <= o -> db.paginate None (Some o) rs = skipn (Z.to_nat o) rs)
  /\ db.paginate None None rs = rs
  /\ (length rs = 10%nat -> Query.limit opts = Some 4 ->
      Query.offset opts = Some 3 -> Query.fields opts = None ->
      exists r3 r4 r5 r6,
        rs !! 3%nat = Some r3 /\ rs !! 4%nat = Some r4
        /\ rs !! 5%nat = Some r5 /\ rs !! 6%nat = Some r6
        /\ db.select n opts w = (Returned [r3; r4; r5; r6], w')).
Proof.
  intros Hrun. repeat split.
  - now apply select_factors.
  - intros o l Ho Hl. now apply paginate_window.
  - intros l Hl. now apply paginate_limit_only.
  - intros o Ho. now apply paginate_offset_only.
  - intros Hlen Hlim Hoff Hf.
    rewrite (select_factors n opts w w' rs Hrun), Hlim, Hoff, Hf.
    do 10 (destruct rs as [|? rs]; [discriminate|]).
    destruct rs; [|discriminate].
    now eexists _, _, _, _.
Qed.

(** C10. A limit of zero, with no offset or an offset of zero, switches
    pagination off: [select] returns what it returns without limit and
    offset, which for a query with no other option is every row of the
    table, not none: as many rows as the table has, decrypted where the
    table encrypts fields, and the rows as stored where it does not. *)
Theorem select_limit_zero `{Runtime} (n : string) (opts : Query.options)
    (w : World) :
  Query.limit opts = Some 0 ->
  Query.offset opts = None \/ Query.offset opts = Some 0 ->
  db.select n opts w = db.select n (without_page opts) w
  /\ forall d t,
       currentDbPath w = Some d -> folder w d !! n = Some t ->
       exists all,
         db.select n (page (Some 0) (Query.offset opts)) w = (Returned all, w)
         /\ db.decrypt_stage (encryption (options t)) (rows t) = Returned all
         /\ length all = length (rows t)
         /\ (fields (encryption (options t)) = None -> all = rows t).
Proof.
  intros Hlim Hoff. split.
  - destruct opts as [wh jn ob lim off fs]. simpl in Hlim, Hoff. subst lim.
    destruct Hoff as [->| ->]; reflexivity.
  - intros d t Hd Ht.
    destruct (decrypt_stage_total (encryption (options t)) (rows t))
      as (all & Hrun & Hlen & Hplain).
    exists all. rewrite (select_unfold w d n t) by assumption.
    rewrite Hrun. split; [|auto].
    now destruct Hoff as [->| ->].
Qed.

(** ** Joins *)

Section JoinFacts.
Context `{Runtime}.





End JoinFacts.


(** ** Cascading delete *)

Section CascadeFacts.
Context `{Runtime}.

Lemma with_rows_same (t : Table) : with_rows t (rows t) = t.
Proof. now destruct t. Qed.

Lemma with_rows_twice (t : Table) (a b : list object) :
  with_rows (with_rows t a) b = with_rows t b.
Proof. reflexivity. Qed.

Lemma filter_all_true {A} (p : A -> bool) (l : list A) :
  (forall x, p x = true) -> List.filter p l = l.
Proof.
  intros Hp. induction l as [|x l IH]; simpl; [reflexivity|].
  now rewrite Hp, IH.
Qed.

Lemma filter_filter {A} (p q : A -> bool) (l : list A) :
  List.filter q (List.filter p l) = List.filter (fun x => p x && q x) l.
Proof.
  induction l as [|x l IH]; simpl; [reflexivity|].
  destruct (p x); simpl; [destruct (q x)|]; now rewrite IH.
Qed.

Lemma NoDup_List_filter {A} (p : A -> bool) (l : list A) :
  NoDup l -> NoDup (List.filter p l).
Proof.
  induction 1 as [|x l Hx Hl IH]; simpl; [constructor|].
  destruct (p x); [|assumption].
  constructor; [|assumption].
  intros Hin. apply Hx. apply list_elem_of_In in Hin.
  apply filter_In in Hin as [Hin _]. now apply list_elem_of_In.
Qed.

(** The loop over the relationships of one other table: it returns the
    pruned table, and the file holds it. *)
Lemma cascade_relationships_spec (d tn file : string)
    (ids : list (option json)) (rels : list (string * Relationship)) :
  forall (ot : Table) (w : World),
    folder w d !! file = Some ot ->
    exists w1,
      db.cascade_relationships d tn file ids rels ot w
      = (Returned (with_rows ot
                     (List.filter (survives ids (referencing_fields tn rels))
                        (rows ot))), w1)
      /\ currentDbPath w1 = currentDbPath w
      /\ (forall d', d <> d' -> folder w1 d' = folder w d')
      /\ (forall k, folder w1 d !! k
                    = if String.eqb file k
                      then Some (with_rows ot
                                   (List.filter
                                      (survives ids (referencing_fields tn rels))
                                      (rows ot)))
                      else folder w d !! k).
Proof.
  induction rels as [|[field rel] rest IH]; intros ot w Hot.
  - exists w. simpl. unfold ret.
    rewrite filter_all_true by reflexivity. rewrite with_rows_same.
    repeat split; try reflexivity.
    intros k. destruct (String.eqb_spec file k) as [<-|]; auto.
  - cbn [db.cascade_relationships].
    destruct (String.eqb (foreignTable rel) tn) eqn:Hrel.
    + unfold bind at 1.
      set (ot' := with_rows ot
                    (List.filter (fun row => negb (includes ids (get row field)))
                       (rows ot))).
      destruct (writeTable d file ot' w) as [[[]|e] w'] eqn:Hw;
        [|unfold writeTable in Hw; discriminate].
      assert (Hw' : w' = snd (writeTable d file ot' w)) by now rewrite Hw.
      assert (Hot' : folder w' d !! file = Some ot').
      { rewrite Hw', folder_writeTable. apply lookup_insert_eq. }
      destruct (IH ot' w' Hot') as (w1 & Hrun & Hp & Hother & Hlook).
      exists w1. split; [|split; [|split]].
      * rewrite Hrun. unfold ot'. rewrite with_rows_twice.
        unfold referencing_fields. cbn [List.filter snd]. rewrite Hrel.
        cbn [map fst survives forallb]. cbn [rows with_rows].
        now rewrite filter_filter.
      * rewrite Hp, Hw'. reflexivity.
      * intros d' Hne. rewrite Hother by assumption.
        rewrite Hw'. now apply folder_writeTable_ne.
      * intros k. rewrite Hlook.
        unfold referencing_fields. cbn [List.filter snd]. rewrite Hrel.
        cbn [map fst survives forallb]. unfold ot'. cbn [rows with_rows].
        rewrite filter_filter.
        destruct (String.eqb_spec file k) as [<-|Hne]; [reflexivity|].
        rewrite Hw', folder_writeTable. now apply lookup_insert_ne.
    + destruct (IH ot w Hot) as (w1 & Hrun & Hp & Hother & Hlook).
      exists w1.
      unfold referencing_fields in *. cbn [List.filter snd]. rewrite Hrel.
      auto.
Qed.

(** The loop over the other table files. *)
Lemma cascade_tables_spec (d tn : string) (rowsToDelete : list object)
    (allTables : list string) :
  forall (w : World),
    NoDup allTables ->
    (forall k, In k allTables -> is_Some (folder w d !! k)) ->
    exists w1,
      db.cascade_tables d tn rowsToDelete allTables w = (Returned tt, w1)
      /\ currentDbPath w1 = currentDbPath w
      /\ (forall d', d <> d' -> folder w1 d' = folder w d')
      /\ (forall k, In k allTables ->
                    folder w1 d !! k
                    = pruned tn (map (fun r => get r "id") rowsToDelete)
                        <$> folder w d !! k)
      /\ (forall k, ~ In k allTables -> folder w1 d !! k = folder w d !! k).
Proof.
  induction allTables as [|file rest IH]; intros w Hnd Hall.
  - exists w. simpl. unfold ret. repeat split; tauto.
  - apply NoDup_cons in Hnd as [Hfile Hrest].
    destruct (Hall file (or_introl eq_refl)) as [ot Hot].
    cbn [db.cascade_tables]. unfold bind at 1, readTable. rewrite Hot.
    unfold bind at 1.
    destruct (cascade_relationships_spec d tn file
                (map (fun r => get r "id") rowsToDelete) (relationships ot) ot w Hot)
      as (w' & Hrun & Hp & Hother & Hlook).
    rewrite Hrun.
    assert (Hall' : forall k, In k rest -> is_Some (folder w' d !! k)).
    { intros k Hk. rewrite Hlook.
      destruct (String.eqb_spec file k); [eauto|]. apply Hall. now right. }
    destruct (IH w' Hrest Hall') as (w1 & Hrun1 & Hp1 & Hother1 & Hin1 & Hout1).
    exists w1. rewrite Hrun1. split; [reflexivity|]. split; [congruence|].
    split; [|split].
    + intros d' Hne. rewrite Hother1, Hother by assumption. reflexivity.
    + intros k [<-|Hk].
      * rewrite Hout1 by (intros Hin; apply Hfile; now apply list_elem_of_In).
        rewrite Hlook, String.eqb_refl, Hot. reflexivity.
      * rewrite Hin1 by assumption. rewrite Hlook.
        destruct (String.eqb_spec file k) as [<-|Hne]; [|reflexivity].
        exfalso. apply Hfile. now apply list_elem_of_In.
    + intros k Hk. rewrite Hout1 by (intros Hin; apply Hk; now right).
      rewrite Hlook. destruct (String.eqb_spec file k) as [<-|Hne]; [|reflexivity].
      exfalso. apply Hk. now left.
Qed.

End CascadeFacts.

Section DeleteFacts.
Context `{Runtime}.

Lemma readdirSync_files (w : World) (d k : string) :
  In k (fst <$> map_to_list (folder w d)) <-> is_Some (folder w d !! k).
Proof.
  rewrite <- list_elem_of_In, list_elem_of_fmap. split.
  - intros [[k' t] [-> Hin]]. apply elem_of_map_to_list in Hin. now exists t.
  - intros [t Ht]. exists (k, t). split; [reflexivity|].
    now apply elem_of_map_to_list.
Qed.

Lemma survives_spec (ids : list (option json)) (fs : list string) (row : object) :
  survives ids fs row = true
  <-> forall f, In f fs -> includes ids (get row f) = false.
Proof.
  unfold survives. rewrite forallb_forall. split; intros Hs f Hf.
  - apply Hs in Hf. now apply negb_true_iff in Hf.
  - apply negb_true_iff. now apply Hs.
Qed.

Lemma delete_cascade_run (w : World) (d n : string) (t : Table) (where_ : object) :
  currentDbPath w = Some d -> folder w d !! n = Some t ->
  exists w',
    db.delete n where_ true w
    = (Returned
         {| Result.count :=
              (length (rows t)
               - length (List.filter (fun row => negb (matches where_ row)) (rows t)))%nat;
            Result.rows := List.filter (matches where_) (rows t) |}, w')
    /\ currentDbPath w' = Some d
    /\ folder w' d !! n
       = Some (with_rows t
                 (List.filter (fun row => negb (matches where_ row)) (rows t)))
    /\ (forall k, k <> n ->
          folder w' d !! k
          = pruned n (map (fun r => get r "id") (List.filter (matches where_) (rows t)))
              <$> folder w d !! k)
    /\ (forall d', d <> d' -> folder w' d' = folder w d').
Proof.
  intros Hd Ht.
  unfold db.delete, bind at 1, read_currentDbPath. rewrite Hd.
  unfold bind at 1, existsSync. rewrite Ht.
  rewrite bool_decide_eq_true_2 by eauto. cbn [negb].
  unfold bind at 1, readTable. rewrite Ht.
  unfold bind, readdirSync. cbn beta iota.
  set (rowsToDelete := List.filter (matches where_) (rows t)).
  set (allTables :=
         List.filter (fun f => negb (String.eqb f n))
           (fst <$> map_to_list (folder w d))).
  assert (Hin : forall k, In k allTables <-> k <> n /\ is_Some (folder w d !! k)).
  { intros k. unfold allTables. rewrite filter_In, readdirSync_files.
    rewrite negb_true_iff, String.eqb_neq. tauto. }
  destruct (cascade_tables_spec d n rowsToDelete allTables w)
    as (w1 & Hrun & Hp & Hother & Hin1 & Hout1).
  { apply NoDup_List_filter, NoDup_fst_map_to_list. }
  { intros k Hk. now apply Hin in Hk. }
  rewrite Hrun. unfold writeTable, ret.
  eexists. split; [reflexivity|]. split; [simpl; congruence|].
  split; [|split].
  - unfold folder at 1. simpl. rewrite lookup_insert_eq. apply lookup_insert_eq.
  - intros k Hk. unfold folder at 1. simpl. rewrite lookup_insert_eq.
    rewrite lookup_insert_ne by congruence.
    destruct (folder w d !! k) as [ot|] eqn:Hot.
    + rewrite Hin1, Hot; [reflexivity|]. apply Hin. eauto.
    + rewrite Hout1, Hot; [reflexivity|].
      intros Hk'. apply Hin in Hk' as [_ [x Hx]]. congruence.
  - intros d' Hne. unfold folder at 1. simpl.
    rewrite lookup_insert_ne by assumption. now apply Hother.
Qed.

End DeleteFacts.

(** C3. Delete with cascade: the rows of the target table that match are
    removed and returned; every other table of the current database is
    rewritten without exactly those of its rows that hold, in the local
    field of one of its relationships to the target table, the id of a
    deleted row, its other rows staying in place and in order; tables of
    other databases are not touched. *)
Theorem delete_cascades (w : World) (d n : string) (t : Table)
    (where_ : object) :
  currentDbPath w = Some d -> folder w d !! n = Some t ->
  let rowsToDelete := List.filter (matches where_) (rows t) in
  let idsToDelete := map (fun r => get r "id") rowsToDelete in
  exists result w',
    db.delete n where_ true w = (Returned result, w')
    /\ Result.rows result = rowsToDelete
    /\ Result.count result = length rowsToDelete
    /\ folder w' d !! n
       = Some (with_rows t
                 (List.filter (fun row => negb (matches where_ row)) (rows t)))
    /\ (forall k ot, k <> n -> folder w d !! k = Some ot ->
          exists ot',
            folder w' d !! k = Some ot'
            /\ ot' = with_rows ot (rows ot')
            /\ rows ot'
               = List.filter
                   (survives idsToDelete
                      (referencing_fields n (relationships ot)))
                   (rows ot)
            /\ forall row,
                 In row (rows ot')
                 <-> In row (rows ot)
                     /\ forall f, In f (referencing_fields n (relationships ot)) ->
                                  includes idsToDelete (get row f) = false)
    /\ (forall k, k <> n -> folder w d !! k = None -> folder w' d !! k = None)
    /\ (forall d', d <> d' -> folder w' d' = folder w d').
Proof.
  intros Hd Ht rowsToDelete idsToDelete.
  destruct (delete_cascade_run w d n t where_ Hd Ht)
    as (w' & Hrun & Hp & Htarget & Hothers & Hdbs).
  eexists _, w'. split; [exact Hrun|]. cbn [Result.rows Result.count].
  split; [reflexivity|]. split.
  { pose proof (filter_length (matches where_) (rows t)) as Hlen.
    fold rowsToDelete in Hlen. lia. }
  split; [exact Htarget|]. split; [|split].
  - intros k ot Hk Hot. rewrite Hothers, Hot by assumption.
    eexists. split; [reflexivity|]. split; [reflexivity|]. split; [reflexivity|].
    intros row. cbn [pruned rows with_rows].
    rewrite filter_In. now rewrite survives_spec.
  - intros k Hk Hnone. now rewrite Hothers, Hnone.
  - exact Hdbs.
Qed.

(** ** The field cipher *)

Section CipherFacts.
Context `{Runtime}.

(** The validators accept no object. *)
Lemma declared_type_not_object (t : string) (props : object) :
  rejects_objects -> ~ of_declared_type t (JObj props).
Proof.
  intros [Hdate Hjson] [_ (check & Hty & Hc)].
  unfold type_validator in Hty.
  repeat match type of Hty with
         | (if ?b then _ else _) = _ => destruct b
         end;
    try discriminate; injection Hty as <-; cbn [to_string] in Hc;
    rewrite ?Hdate, ?Hjson in Hc; vm_compute in Hc; discriminate.
Qed.

Lemma declared_type_not_null (t : string) : ~ of_declared_type t JNull.
Proof. intros [Hn _]. discriminate. Qed.

(** Decrypting what is not an object leaves it as it is. *)
Lemma decrypt_plain (v : json) (k : option string) :
  v <> JNull -> (forall props, v <> JObj props) ->
  _decryptField v k = Returned v.
Proof.
  intros Hnull Hobj. destruct v; try reflexivity.
  - congruence.
  - now destruct (Hobj fields0).
Qed.

Lemma encrypt_tagged (v : json) (key encrypted : string) :
  key <> "" -> cipher key (JSON_stringify v) = Some encrypted ->
  _encryptField v (Some key) = tagged encrypted.
Proof.
  intros Hk Hc. unfold _encryptField. apply String.eqb_neq in Hk.
  now rewrite Hk, Hc.
Qed.

Lemma encrypt_passes (v : json) (k : option string) :
  key_set k = false -> _encryptField v k = v.
Proof.
  destruct k as [key|]; [|reflexivity]. unfold key_set, _encryptField.
  destruct (String.eqb key ""); [reflexivity | discriminate].
Qed.

End CipherFacts.

(** C4 (as amended). For a value of a declared column type and any key, set
    or not, decrypting what encrypting returned, under the same key, gives
    the value back.  Whatever the two keys, decrypting what encrypting
    returned does not throw.  When the key is set (not empty) and the cipher
    works under it, decrypting under any other key, one that is absent or
    empty, or one under which the decipher throws or gives text that is not
    JSON, returns the tagged ciphertext as it is, which is not the value.
    With a key that is absent or empty nothing is encrypted: encrypting
    returns the value itself, and decrypting that returns it under any
    key. *)
Theorem field_cipher_round_trip `{Runtime} (t : string) (v : json) :
  of_declared_type t v -> rejects_objects ->
  JSON_parse (JSON_stringify v) = Some v ->
  (forall k,
     (forall key, k = Some key -> key <> "" -> cipher_works key v) ->
     _decryptField (_encryptField v k) k = Returned v)
  /\ (forall k k',
        exists result, _decryptField (_encryptField v k) k' = Returned result)
  /\ (forall key k',
        key <> "" -> k' <> Some key -> cipher_works key v ->
        (forall key', k' = Some key' -> key' <> "" ->
                      rejects_wrong_key key key' v) ->
        _decryptField (_encryptField v (Some key)) k'
        = Returned (_encryptField v (Some key))
        /\ _encryptField v (Some key) <> v)
  /\ (forall k k',
        key_set k = false ->
        _encryptField v k = v
        /\ _decryptField (_encryptField v k) k' = Returned v).
Proof.
  intros Htyped Hobjects Hjson.
  assert (Hnull : v <> JNull).
  { intros ->. now apply (declared_type_not_null t). }
  assert (Hobj : forall props, v <> JObj props).
  { intros props ->. now apply (declared_type_not_object t props). }
  split; [|split; [|split]].
  - intros k Hworks. destruct (key_set k) eqn:Hset.
    + destruct k as [key|]; [|discriminate].
      assert (Hkey : key <> "").
      { intros ->. discriminate. }
      destruct (Hworks key eq_refl Hkey) as (encrypted & Henc & Hdec).
      rewrite (encrypt_tagged v key encrypted Hkey Henc).
      unfold _decryptField, tagged. cbn [get String.eqb Ascii.eqb Bool.eqb truthy negb orb].
      rewrite Hset. cbn [negb]. now rewrite Hdec, Hjson.
    + rewrite encrypt_passes by assumption. now apply decrypt_plain.
  - intros k k'. apply decryptField_total.
    unfold _encryptField. destruct k as [key|]; [|assumption].
    destruct (String.eqb key ""); [assumption|].
    destruct (cipher key (JSON_stringify v)); [discriminate | assumption].
  - intros key k' Hkey Hother (encrypted & Henc & Hdec) Hwrong.
    rewrite (encrypt_tagged v key encrypted Hkey Henc).
    split; [|intros Heq; now apply (Hobj _ (eq_sym Heq))].
    unfold _decryptField, tagged. cbn [get String.eqb Ascii.eqb Bool.eqb truthy negb orb].
    destruct (key_set k') eqn:Hset; [|reflexivity]. cbn [negb].
    destruct k' as [key'|]; [|discriminate].
    assert (Hkey' : key' <> "").
    { intros ->. discriminate. }
    destruct (decipher key' encrypted) as [plain|] eqn:Hplain; [|reflexivity].
    now rewrite (Hwrong key' eq_refl Hkey' encrypted plain Henc Hplain).
  - intros k k' Hset. rewrite encrypt_passes by assumption.
    split; [reflexivity|]. now apply decrypt_plain.
Qed.

(** C4 (the claim as stated fails). With the empty key nothing is encrypted,
    and decrypting under another key returns the value itself, not a tagged
    ciphertext. *)
Lemma empty_key_passes_through :
  Some "secret" <> Some ""
  /\ _encryptField (H := test_runtime) (JStr "hello") (Some "") = JStr "hello"
  /\ _decryptField (H := test_runtime)
       (_encryptField (H := test_runtime) (JStr "hello") (Some ""))
       (Some "secret")
     = Returned (JStr "hello").
Proof. repeat split. discriminate. Qed.

(** ** Uniqueness *)

Section UniqueFacts.
Context `{Runtime}.

Lemma strict_eq_primitive (v : json) :
  primitive v = true -> strict_eq (Some v) (Some v) = true.
Proof.
  destruct v; try discriminate; intros _; simpl.
  - now destruct b.
  - apply Z.eqb_refl.
  - apply String.eqb_refl.
Qed.

(** The rows the uniqueness scan of [update] sees. *)
Lemma other_rows_In (i : nat) (id : option json) (rs : list object) (r : object) :
  forall j0,
    In r (db.other_rows i id j0 rs) ->
    exists j, (j0 <= j)%nat /\ j <> i /\ rs !! (j - j0)%nat = Some r
              /\ strict_eq (get r "id") id = false.
Proof.
  induction rs as [|r0 rest IH]; intros j0 Hin; [destruct Hin|].
  cbn [db.other_rows] in Hin.
  destruct (Nat.eqb_spec j0 i) as [Heq|Hne]; cbn [orb] in Hin.
  - apply IH in Hin as (j & Hle & Hj & Hlook & Hid).
    exists j. repeat split; try assumption; try lia.
    replace (j - j0)%nat with (S (j - S j0)) by lia. exact Hlook.
  - destruct (strict_eq (get r0 "id") id) eqn:Hid0.
    + apply IH in Hin as (j & Hle & Hj & Hlook & Hid).
      exists j. repeat split; try assumption; try lia.
      replace (j - j0)%nat with (S (j - S j0)) by lia. exact Hlook.
    + destruct Hin as [<-|Hin].
      * exists j0. repeat split; try assumption; try lia.
        now rewrite Nat.sub_diag.
      * apply IH in Hin as (j & Hle & Hj & Hlook & Hid).
        exists j. repeat split; try assumption; try lia.
        replace (j - j0)%nat with (S (j - S j0)) by lia. exact Hlook.
Qed.

Lemma extra_fields_no_duplicate (row : object) (sch : schema) (c : string)
    (x : json) :
  ~ In (NotUnique c x) (extra_fields row sch).
Proof.
  unfold extra_fields. rewrite in_flat_map. intros (f & _ & Hin).
  destruct (_ && _); simpl in Hin; [destruct Hin as [Hin|[]]; discriminate|destruct Hin].
Qed.

(** A uniqueness message of [validateRow] names a stored value. *)
Lemma duplicate_source (row : object) (sch : schema) (existingRows : list object)
    (c : string) (x : json) :
  In (NotUnique c x) (all_violations row sch existingRows) ->
  exists r, In r existingRows /\ strict_eq (get r c) (Some x) = true.
Proof.
  unfold all_violations. rewrite in_app_iff. intros [Hin|Hin].
  - apply in_flat_map in Hin as ([c0 d0] & _ & Hin). cbn [fst snd] in Hin.
    apply duplicate_inv in Hin as (-> & _ & _ & Hincl & _).
    unfold includes in Hincl. apply existsb_exists in Hincl as (y & Hy & Heq).
    apply in_map_iff in Hy as (r & <- & Hr). now exists r.
  - now apply extra_fields_no_duplicate in Hin.
Qed.

(** A row whose id a stored row has is validated as against no rows: the
    uniqueness block is the only one that reads the stored rows, and it
    passes a row that is not new. *)
Lemma check_unique_known_id (row : object) (existingRows : list object)
    (c : string) (d : ColumnDefinition) (v : json) :
  id_known existingRows row = true ->
  check_unique row existingRows c d v = [].
Proof.
  unfold id_known, check_unique. intros ->. cbn [negb].
  now rewrite !andb_false_r.
Qed.

Lemma check_unique_no_rows (row : object) (c : string) (d : ColumnDefinition)
    (v : json) :
  check_unique row [] c d v = [].
Proof. unfold check_unique. cbn. now rewrite andb_false_r. Qed.

Lemma all_violations_known_id (row : object) (sch : schema)
    (existingRows : list object) :
  id_known existingRows row = true ->
  all_violations row sch existingRows = all_violations row sch [].
Proof.
  intros Hknown. unfold all_violations. f_equal.
  apply flat_map_ext. intros [c d]. cbn [fst snd]. unfold column_checks.
  destruct (nullish (get row c)); [reflexivity|].
  destruct (get row c) as [v|]; [|reflexivity].
  now rewrite check_unique_known_id, check_unique_no_rows.
Qed.

Lemma check_foreign_keys_thrown (d : string)
    (rels : list (string * Relationship)) (validatedRow : object)
    (w w' : World) (e : error) :
  db.check_foreign_keys d rels validatedRow w = (Thrown e, w') ->
  forall errors, e <> SchemaValidationFailed errors.
Proof.
  induction rels as [|[field rel] rest IH]; simpl.
  - unfold ret. discriminate.
  - destruct (get validatedRow field) as [v|]; [|exact IH].
    unfold bind, existsSync, readTable, throw; simpl.
    destruct (folder w d !! foreignTable rel) as [ft|] eqn:Hft; simpl.
    + rewrite Hft.
      destruct (existsb _ (rows ft)); simpl; [exact IH|].
      intros [= <- _] errors. discriminate.
    + intros [= <- _] errors. discriminate.
Qed.

(** The messages of a validation error of [insert] are those of
    [validateRow] on the rows of the table. *)
Lemma insert_validation_error (w w' : World) (d n : string) (t : Table)
    (row : object) (errors : list violation) :
  currentDbPath w = Some d -> folder w d !! n = Some t ->
  db.insert n row w = (Thrown (SchemaValidationFailed errors), w') ->
  errors = all_violations row (columns t) (rows t).
Proof.
  intros Hd Ht Hrun. rewrite (insert_unfold w d n t row Hd Ht) in Hrun.
  rewrite validateRow_unfold in Hrun.
  destruct (all_violations row (columns t) (rows t)) as [|e es] eqn:Hall.
  - exfalso. unfold bind in Hrun.
    destruct (assign_id_run t
                (fold_left (fun vr cd => apply_default row vr (fst cd) (snd cd))
                   (columns t) row) w) as (r1 & w1 & Hr1 & _).
    rewrite Hr1 in Hrun.
    destruct (stamp_run t r1 w1) as (r2 & w2 & Hr2 & _). rewrite Hr2 in Hrun.
    destruct (db.check_foreign_keys d (relationships t) r2 w2)
      as [[[]|e] w3] eqn:Hfk.
    + unfold writeTable, ret in Hrun. discriminate.
    + injection Hrun as -> _.
      exact (check_foreign_keys_thrown _ _ _ _ _ _ Hfk errors eq_refl).
  - now injection Hrun as <- _.
Qed.

(** What [revalidate] throws is what [validateRow] throws. *)
Lemma revalidate_thrown (t : Table) (updates : object) (i : nat) (row : object)
    (w w' : World) (e : error) :
  db.revalidate t updates i row w = (Thrown e, w') ->
  e = SchemaValidationFailed
        (all_violations (spread row updates) (columns t)
           (db.other_rows i (get row "id") 0 (rows t))).
Proof.
  unfold db.revalidate, bind at 1, lift. rewrite validateRow_unfold.
  destruct (all_violations _ _ _) as [|v vs].
  - unfold bind. destruct (timestamps (options t)).
    + unfold new_Date, ret. discriminate.
    + unfold ret. discriminate.
  - now intros [= <- _].
Qed.

End UniqueFacts.

(** C2 (as amended). In a table with a unique column [c]: once an insert has
    returned a row that holds the boolean, number or string [v] under [c],
    an insert of a row with the same [v] under [c] and an id that no stored
    row has fails with a uniqueness message for [c], and stores nothing.
    A row whose id a stored row has is not new and is not checked for
    uniqueness, whatever it holds: it is validated as against a table
    without rows, a validation error of its insert carries no uniqueness
    message, and in a table without relationships the insert is accepted as
    soon as the row passes the other checks.  On update, the row being
    updated and every row with its id are left out of the uniqueness scan:
    a uniqueness message of the re-validation names a value that another
    row, with another id, holds. *)
Theorem unique_column_enforced `{Runtime} (w w1 : World) (d n c : string)
    (t : Table) (def : ColumnDefinition) (row1 stored1 : object) (v : json) :
  currentDbPath w = Some d -> folder w d !! n = Some t ->
  get (columns t) c = Some def -> unique def = true ->
  db.insert n row1 w = (Returned stored1, w1) ->
  get stored1 c = Some v -> primitive v = true ->
  (forall row2,
     get row2 c = Some v ->
     id_known (rows t ++ [stored1]) row2 = false ->
     exists errors,
       db.insert n row2 w1 = (Thrown (SchemaValidationFailed errors), w1)
       /\ In (NotUnique c v) errors)
  /\ (forall row2,
        id_known (rows t ++ [stored1]) row2 = true ->
        (forall c' d' v', check_unique row2 (rows t ++ [stored1]) c' d' v' = [])
        /\ SchemaValidator.validateRow row2 (columns t) (rows t ++ [stored1])
           = SchemaValidator.validateRow row2 (columns t) []
        /\ (forall errors w2,
              db.insert n row2 w1 = (Thrown (SchemaValidationFailed errors), w2) ->
              forall c' x, ~ In (NotUnique c' x) errors)
        /\ (forall validatedRow,
              SchemaValidator.validateRow row2 (columns t) []
              = Returned validatedRow ->
              relationships t = [] ->
              exists stored2 w2,
                db.insert n row2 w1 = (Returned stored2, w2)
                /\ folder w2 d !! n
                   = Some (with_rows t (rows t ++ [stored1; stored2]))))
  /\ (forall tb updates i row w2 w3 errors x,
        rows tb !! i = Some row ->
        db.revalidate tb updates i row w2
        = (Thrown (SchemaValidationFailed errors), w3) ->
        In (NotUnique c x) errors ->
        exists j r,
          j <> i /\ rows tb !! j = Some r
          /\ strict_eq (get r "id") (get row "id") = false
          /\ strict_eq (get r c) (Some x) = true).
Proof.
  intros Hd Ht Hc Hu Hins Hv Hprim.
  destruct (insert_success_inv w w1 n row1 stored1 Hins)
    as (d' & t' & validated & Hd' & Ht' & _ & Hd1 & Hfolder & _).
  assert (d' = d) by congruence. subst d'.
  assert (t' = t) by congruence. subst t'.
  assert (Ht1 : folder w1 d !! n = Some (with_rows t (rows t ++ [stored1]))).
  { rewrite Hfolder. apply lookup_insert_eq. }
  split; [|split].
  - intros row2 Hv2 Hfresh.
    rewrite (insert_unfold w1 d n _ row2 Hd1 Ht1). cbn [columns rows with_rows].
    rewrite validateRow_unfold.
    assert (Hin : In (NotUnique c v)
                     (all_violations row2 (columns t) (rows t ++ [stored1]))).
    { unfold all_violations. apply in_app_iff. left. apply in_flat_map.
      exists (c, def). split; [now apply get_In|]. cbn [fst snd].
      apply duplicate_reported; try assumption.
      - now destruct v.
      - unfold includes. apply existsb_exists. exists (Some v). split.
        + apply in_map_iff. exists stored1. split; [assumption|].
          apply in_app_iff. right. now left.
        + now apply strict_eq_primitive. }
    destruct (all_violations row2 (columns t) (rows t ++ [stored1]));
      [destruct Hin|]. now eexists.
  - intros row2 Hknown.
    pose proof (all_violations_known_id row2 (columns t) _ Hknown) as Hsame.
    split; [intros c' d' v'; now apply check_unique_known_id|].
    split; [now rewrite !validateRow_unfold, Hsame|].
    split.
    + intros errors w2 Hrun c' x Hin.
      apply (insert_validation_error w1 w2 d n _ row2 errors Hd1 Ht1) in Hrun.
      cbn [columns rows with_rows] in Hrun. rewrite Hsame in Hrun. subst errors.
      apply duplicate_source in Hin as (r & [] & _).
    + intros validatedRow Hvalid Hrels.
      rewrite (insert_unfold w1 d n _ row2 Hd1 Ht1).
      cbn [columns rows with_rows relationships options].
      rewrite !validateRow_unfold in *. rewrite Hsame.
      destruct (all_violations row2 (columns t) []); [|discriminate].
      injection Hvalid as <-. unfold bind.
      match goal with
      | |- context [db.assign_id ?T ?R w1] =>
          destruct (assign_id_run T R w1) as (r1 & w2 & Hr1 & _)
      end.
      rewrite Hr1.
      match goal with
      | |- context [db.stamp ?T r1 w2] =>
          destruct (stamp_run T r1 w2) as (r2 & w3 & Hr2 & Hdisk3 & _)
      end.
      rewrite Hr2. rewrite Hrels. cbn [db.check_foreign_keys]. unfold ret at 1.
      match goal with
      | |- context [writeTable d n ?T w3] =>
          exists (db.encrypt_fields (encryption (options t)) r2),
                 (snd (writeTable d n T w3))
      end.
      split; [reflexivity|].
      rewrite folder_writeTable, lookup_insert_eq.
      rewrite with_rows_twice, <- app_assoc. reflexivity.
  - intros tb updates i row w2 w3 errors x Hrow Hrun Hin.
    apply revalidate_thrown in Hrun. injection Hrun as ->.
    apply duplicate_source in Hin as (r & Hr & Heq).
    apply other_rows_In in Hr as (j & _ & Hj & Hlook & Hid).
    rewrite Nat.sub_0_r in Hlook. now exists j, r.
Qed.

(** C2 (the claim as stated fails). [ann] is inserted; [bob], with the same
    email and the id of [ann], is inserted as well: a row whose id a stored
    row has is not new, and the uniqueness block passes it. *)
Lemma duplicate_accepted_under_known_id :
  get (columns people_table) "email" = Some (plain_column "text" false true)
  /\ db.insert (H := test_runtime) "people" ann people_world
     = (Returned ann, people_world_ann)
  /\ get bob "email" = get ann "email"
  /\ fst (db.insert (H := test_runtime) "people" bob people_world_ann)
     = Returned bob
  /\ rows (default_table
             (folder (after (db.insert (H := test_runtime) "people" bob)
                        people_world_ann) "main" !! "people"))
     = [ann; bob].
Proof. vm_compute. repeat split; reflexivity. Qed.

(** An update that sets the email of [ann] to the value it has is written:
    the scan leaves [ann] out. *)
Lemma update_to_own_value :
  fst (db.update (H := test_runtime) "people"
         [("email", JStr "a@x.org")] [("id", JNum 1)] people_world_ann)
  = Returned {| Result.count := 1; Result.rows := [ann] |}.
Proof. vm_compute. reflexivity. Qed.

(** A row inserted into a table that keeps timestamps carries [createdAt]
    and [updatedAt]; the re-validation of [update] reports both as fields
    the schema does not define, and the update is dropped. *)
Lemma update_of_stamped_row_dropped :
  let w := after (db.createTable (H := test_runtime) "notes"
                    [("id", TypeName "int"); ("title", TypeName "text")]
                    [] None None) empty_world in
  let w1 := after (db.insert (H := test_runtime) "notes"
                     [("id", JNum 1); ("title", JStr "draft")]) w in
  fst (db.insert (H := test_runtime) "notes"
         [("id", JNum 1); ("title", JStr "draft")] w)
  = Returned [("id", JNum 1); ("title", JStr "draft");
              ("createdAt", JStr "2024-01-01T00:00:00.000Z");
              ("updatedAt", JStr "2024-01-01T00:00:00.000Z")]
  /\ db.update (H := test_runtime) "notes" [("title", JStr "final")]
       [("id", JNum 1)] w1
     = (Returned {| Result.count := 0; Result.rows := [] |}, w1)
  /\ fst (db.revalidate (H := test_runtime)
            (default_table (folder w1 "main" !! "notes"))
            [("title", JStr "final")] 0
            [("id", JNum 1); ("title", JStr "draft");
             ("createdAt", JStr "2024-01-01T00:00:00.000Z");
             ("updatedAt", JStr "2024-01-01T00:00:00.000Z")] w1)
     = Thrown (SchemaValidationFailed
                 [UndefinedField "createdAt"; UndefinedField "updatedAt"]).
Proof. vm_compute. repeat split; reflexivity. Qed.

(** * Instances of the theorems *)

Lemma validateRow_accumulates_witness :
  SchemaValidator.validateRow (H := test_runtime) faulty scenario_schema []
  = Thrown (SchemaValidationFailed
              [TypeMismatch "name" "text" "number";
               TypeMismatch "age" "int" "string";
               BelowMin "age" (JStr "-1.5") (JNum 0);
               Required "id";
               UndefinedField "nick"])
  /\ In (BelowMin "age" (JStr "-1.5") (JNum 0))
        (all_violations (H := test_runtime) faulty scenario_schema []).
Proof.
  destruct (validateRow_accumulates (H := test_runtime) faulty scenario_schema [])
    as (Hchecks & _ & _ & Hthrown & _).
  split.
  - rewrite Hthrown; [reflexivity|]. vm_compute. discriminate.
  - destruct (Hchecks "age"
                {| type := Some "int"; required := false; unique := false;
                   min := Some (JNum 0); max := None; minLength := None;
                   maxLength := None; pattern := None; default := None |})
      as [_ Hvalue]; [right; left; reflexivity|].
    destruct (Hvalue (JStr "-1.5") eq_refl) as (_ & _ & Hmin & _);
      [discriminate|].
    apply Hmin; reflexivity.
Defined.

Lemma unique_column_enforced_witness :
  currentDbPath people_world = Some "main"
  /\ folder people_world "main" !! "people" = Some people_table
  /\ get (columns people_table) "email" = Some (plain_column "text" false true)
  /\ db.insert (H := test_runtime) "people" ann people_world
     = (Returned ann, people_world_ann)
  /\ (exists errors,
        db.insert (H := test_runtime) "people" cyd people_world_ann
        = (Thrown (SchemaValidationFailed errors), people_world_ann)
        /\ In (NotUnique "email" (JStr "a@x.org")) errors)
  /\ (exists stored2 w2,
        db.insert (H := test_runtime) "people" bob people_world_ann
        = (Returned stored2, w2)).
Proof.
  assert (H1 : currentDbPath people_world = Some "main") by reflexivity.
  assert (H2 : folder people_world "main" !! "people" = Some people_table)
    by (vm_compute; reflexivity).
  assert (H3 : get (columns people_table) "email"
               = Some (plain_column "text" false true))
    by (vm_compute; reflexivity).
  assert (H4 : db.insert (H := test_runtime) "people" ann people_world
               = (Returned ann, people_world_ann))
    by (vm_compute; reflexivity).
  split; [exact H1|]. split; [exact H2|]. split; [exact H3|].
  split; [exact H4|].
  destruct (unique_column_enforced (H := test_runtime) people_world
              people_world_ann "main" "people" "email" people_table
              (plain_column "text" false true) ann ann (JStr "a@x.org")
              H1 H2 H3 eq_refl H4 eq_refl eq_refl) as (Hinsert & Hknown & _).
  split; [apply Hinsert; vm_compute; reflexivity|].
  destruct (Hknown bob) as (_ & _ & _ & Haccepted); [vm_compute; reflexivity|].
  destruct (Haccepted bob) as (stored2 & w2 & Hrun & _).
  - vm_compute. reflexivity.
  - vm_compute. reflexivity.
  - exists stored2, w2. exact Hrun.
Defined.

Lemma delete_cascades_witness :
  currentDbPath blog_world = Some "main"
  /\ folder blog_world "main" !! "users" = Some users_table
  /\ exists result w',
       db.delete "users" [("id", JNum 1)] true blog_world
       = (Returned result, w')
       /\ Result.rows result = [[("id", JNum 1)]]
       /\ rows (default_table (folder w' "main" !! "posts"))
          = [[("id", JNum 11); ("user_id", JNum 2)];
             [("id", JNum 13); ("user_id", JNum 3)]].
Proof.
  assert (H1 : currentDbPath blog_world = Some "main") by reflexivity.
  assert (H2 : folder blog_world "main" !! "users" = Some users_table)
    by (vm_compute; reflexivity).
  split; [exact H1|]. split; [exact H2|].
  destruct (delete_cascades blog_world "main" "users"
              users_table [("id", JNum 1)] H1 H2)
    as (result & w' & Hrun & Hrows & _ & _ & Hposts & _).
  exists result, w'. split; [exact Hrun|]. split; [exact Hrows|].
  destruct (Hposts "posts" posts_table) as (ot' & Hlook & _ & Hkept & _).
  - discriminate.
  - vm_compute. reflexivity.
  - rewrite Hlook. cbn [default_table]. rewrite Hkept. vm_compute. reflexivity.
Defined.

Lemma field_cipher_round_trip_witness :
  of_declared_type (H := test_runtime) "text" (JStr "hello")
  /\ @rejects_objects test_runtime
  /\ _decryptField (H := test_runtime)
       (_encryptField (H := test_runtime) (JStr "hello") (Some "secret"))
       (Some "secret")
     = Returned (JStr "hello")
  /\ _decryptField (H := test_runtime)
       (_encryptField (H := test_runtime) (JStr "hello") (Some "secret"))
       (Some "other")
     = Returned (tagged "secret:s:hello").
Proof.
  assert (H1 : of_declared_type (H := test_runtime) "text" (JStr "hello")).
  { split; [reflexivity|]. eexists. split; reflexivity. }
  assert (H2 : @rejects_objects test_runtime) by (split; reflexivity).
  assert (H3 : cipher_works (H := test_runtime) "secret" (JStr "hello")).
  { eexists. split; reflexivity. }
  destruct (field_cipher_round_trip (H := test_runtime) "text" (JStr "hello")
              H1 H2 eq_refl) as (Hsame & _ & Hother & _).
  split; [exact H1|]. split; [exact H2|]. split.
  - apply Hsame. intros key [= <-] _. exact H3.
  - apply (Hother "secret" (Some "other")); try discriminate; try assumption.
    intros key' [= <-] _ encrypted plain [= <-] Hplain. vm_compute in Hplain.
    discriminate.
Defined.


Lemma unguarded_operations_missing_witness :
  currentDbPath empty_world = Some "main"
  /\ folder empty_world "main" !! "ghost" = None
  /\ db.addIndex (H := test_runtime) "ghost" "email" (Some "hash") true empty_world
     = (Thrown (ENOENT "ghost.table"), empty_world).
Proof.
  assert (H1 : currentDbPath empty_world = Some "main") by reflexivity.
  assert (H2 : folder empty_world "main" !! "ghost" = None)
    by (vm_compute; reflexivity).
  split; [exact H1|]. split; [exact H2|].
  destruct (unguarded_operations_missing (H := test_runtime) empty_world "main"
              "ghost" H1 H2) as [Hindex _].
  apply Hindex.
Defined.

Lemma insertMany_sequential_witness :
  inserted (H := test_runtime) "people" people_world [ann] [ann] people_world_ann
  /\ db.insertMany (H := test_runtime) "people" [ann] people_world
     = (Returned [ann], people_world_ann)
  /\ db.insertMany (H := test_runtime) "people" [ann; cyd; bob] people_world
     = (Thrown (SchemaValidationFailed [NotUnique "email" (JStr "a@x.org")]),
        people_world_ann).
Proof.
  assert (H1 : inserted (H := test_runtime) "people" people_world [ann] [ann]
                 people_world_ann).
  { eapply inserted_cons; [|apply inserted_nil]. vm_compute. reflexivity. }
  destruct (insertMany_sequential (H := test_runtime) "people" people_world
              people_world_ann [ann] [ann] H1) as [Hall Hfail].
  split; [exact H1|]. split; [exact Hall|].
  apply (Hfail cyd [bob]). vm_compute. reflexivity.
Defined.

Lemma select_paginates_witness :
  db.select (H := test_runtime) "items" (unpaged (page (Some 4) (Some 3)))
    items_world
  = (Returned (rows items_table), items_world)
  /\ db.select (H := test_runtime) "items" (page (Some 4) (Some 3)) items_world
     = (Returned [item 3; item 4; item 5; item 6], items_world).
Proof.
  assert (H1 : db.select (H := test_runtime) "items"
                 (unpaged (page (Some 4) (Some 3))) items_world
               = (Returned (rows items_table), items_world))
    by (vm_compute; reflexivity).
  split; [assumption|].
  destruct (select_paginates (H := test_runtime) "items" (page (Some 4) (Some 3))
              items_world items_world (rows items_table) H1)
    as (_ & _ & _ & _ & _ & Hten).
  specialize (Hten eq_refl eq_refl eq_refl eq_refl).
  destruct Hten as (r3 & r4 & r5 & r6 & H3 & H4 & H5 & H6 & Hrun).
  rewrite Hrun.
  cbn in H3, H4, H5, H6.
  injection H3 as <-. injection H4 as <-. injection H5 as <-. injection H6 as <-.
  reflexivity.
Defined.

Lemma select_limit_zero_witness :
  db.select (H := test_runtime) "items" (page (Some 0) None) items_world
  = (Returned (rows items_table), items_world).
Proof.
  destruct (select_limit_zero (H := test_runtime) "items" (page (Some 0) None)
              items_world eq_refl (or_introl eq_refl)) as [_ Hall].
  assert (Hitems : folder items_world "main" !! "items" = Some items_table)
    by (vm_compute; reflexivity).
  destruct (Hall "main" items_table eq_refl Hitems)
    as (all & Hrun & _ & _ & Hplain).
  cbn [page Query.offset] in Hrun. rewrite Hrun. now rewrite Hplain.
Defined.


(** * Further properties *)

(** ** Creating tables and selecting databases *)

Lemma set_fresh {A} (k : string) (v : A) (o : list (string * A)) :
  get o k = None -> set k v o = (o ++ [(k, v)])%list.
Proof.
  induction o as [|[k' v'] rest IH]; simpl; [reflexivity|].
  destruct (String.eqb k' k); [discriminate|]. intros Hn. now rewrite IH.
Qed.

Lemma get_app {A} (a b : list (string * A)) (k : string) :
  get (a ++ b) k = match get a k with
                   | Some v => Some v
                   | None => get b k
                   end.
Proof.
  induction a as [|[k' v'] rest IH]; simpl; [reflexivity|].
  now destruct (String.eqb k' k).
Qed.

Lemma get_map_snd {A B} (f : A -> B) (o : list (string * A)) (k : string) :
  get (map (fun kv => (fst kv, f (snd kv))) o) k = f <$> get o k.
Proof.
  induction o as [|[k' v'] rest IH]; simpl; [reflexivity|].
  now destruct (String.eqb k' k).
Qed.

Section CreateFacts.
Context `{Runtime}.

(** Distinct, well-formed column specifications are stored in the order
    they were written. *)
Lemma normalize_valid (cols : list (string * ColumnSpec)) :
  forall acc,
    NoDup (keys cols) ->
    (forall c, In c (keys cols) -> get acc c = None) ->
    Forall (fun cs => is_definition (snd cs) = true) cols ->
    db.normalize cols acc
    = Returned (acc ++ map (fun cs => (fst cs, stored_definition (snd cs))) cols)%list.
Proof.
  induction cols as [|[c spec] rest IH]; intros acc Hnd Hfresh Hvalid.
  - simpl. now rewrite app_nil_r.
  - apply NoDup_cons in Hnd as [Hc Hrest].
    apply Forall_cons in Hvalid as [Hspec Hvalid].
    assert (Hacc : get acc c = None) by (apply Hfresh; now left).
    assert (Hnext : forall d c', In c' (keys rest) ->
                                 get (set c d acc) c' = None).
    { intros d c' Hin. rewrite get_set_ne.
      - apply Hfresh. now right.
      - intros ->. apply Hc. now apply list_elem_of_In. }
    destruct spec as [t|d|]; [| |discriminate]; cbn [db.normalize].
    + rewrite IH by auto. rewrite set_fresh by assumption.
      now rewrite <- app_assoc.
    + rewrite IH by auto. rewrite set_fresh by assumption.
      now rewrite <- app_assoc.
Qed.

(** The loop stops at the first column that is no definition. *)
Lemma normalize_invalid (good : list (string * ColumnSpec)) (c : string)
    (rest : list (string * ColumnSpec)) :
  forall acc,
    Forall (fun cs => is_definition (snd cs) = true) good ->
    db.normalize (good ++ (c, NotADefinition) :: rest) acc
    = Thrown (InvalidColumnDefinition c).
Proof.
  induction good as [|[c' spec] good IH]; intros acc Hvalid; [reflexivity|].
  apply Forall_cons in Hvalid as [Hspec Hvalid].
  destruct spec; [| |discriminate]; cbn [db.normalize app]; now apply IH.
Qed.

Lemma createTable_unfold (w : World) (d n : string)
    (cols : list (string * ColumnSpec)) (rels : list (string * Relationship))
    (enc : option Encryption) (ts : option bool) :
  currentDbPath w = Some d -> n <> "" -> folder w d !! n = None ->
  db.createTable n cols rels enc ts w
  = match db.normalize cols [] with
    | Thrown e => (Thrown e, w)
    | Returned sch =>
        writeTable d n
          {| name := n;
             createdAt := toISOString (clock w);
             columns := match get sch "id" with
                        | Some _ => sch
                        | None => set "id" db.id_column sch
                        end;
             relationships := rels;
             rows := [];
             indexes := [];
             options :=
               {| encryption := match enc with
                                | Some e => e
                                | None => {| key := None; fields := None |}
                                end;
                  timestamps := match ts with
                                | Some false => false
                                | _ => true
                                end |} |}
          {| currentDbPath := currentDbPath w; disk := disk w;
             clock := S (clock w) |}
    end.
Proof.
  intros Hd Hn Ht. unfold db.createTable, bind, read_currentDbPath, existsSync.
  apply String.eqb_neq in Hn. cbn beta iota. rewrite Hd, Hn. cbn beta iota.
  rewrite Ht. rewrite bool_decide_eq_false_2 by (intros [x Hx]; discriminate).
  unfold lift, new_Date. rewrite ?Hd.
  destruct (db.normalize cols []); reflexivity.
Qed.

End CreateFacts.

(** X1. [createTable] with a fresh non-empty name and distinct, well-formed
    columns writes an empty table: its columns are the caller's, in the
    order written, followed by the required uuid column [id] unless the
    caller defined [id]; it has no rows and no indexes, the relationships
    given, the creation time the clock showed; no other table changes. *)
Theorem createTable_creates `{Runtime} (w : World) (d n : string)
    (cols : list (string * ColumnSpec)) (rels : list (string * Relationship))
    (enc : option Encryption) (ts : option bool) :
  currentDbPath w = Some d -> n <> "" -> folder w d !! n = None ->
  NoDup (keys cols) ->
  Forall (fun cs => is_definition (snd cs) = true) cols ->
  exists w' t,
    db.createTable n cols rels enc ts w = (Returned tt, w')
    /\ currentDbPath w' = Some d
    /\ folder w' d !! n = Some t
    /\ (forall k, k <> n -> folder w' d !! k = folder w d !! k)
    /\ (forall d', d <> d' -> folder w' d' = folder w d')
    /\ name t = n /\ rows t = [] /\ indexes t = [] /\ relationships t = rels
    /\ createdAt t = toISOString (clock w)
    /\ columns t
       = (map (fun cs => (fst cs, stored_definition (snd cs))) cols
          ++ match get cols "id" with
             | Some _ => []
             | None => [("id", db.id_column)]
             end)%list.
Proof.
  intros Hd Hn Ht Hnd Hvalid.
  rewrite (createTable_unfold w d n) by assumption.
  rewrite (normalize_valid cols []) by auto. cbn [app].
  set (sch := map (fun cs => (fst cs, stored_definition (snd cs))) cols).
  match goal with
  | |- context [writeTable d n ?T ?w0] =>
      exists (snd (writeTable d n T w0)), T
  end.
  split; [reflexivity|]. split; [exact Hd|].
  split; [rewrite folder_writeTable; apply lookup_insert_eq|].
  split; [|split].
  - intros k Hk. rewrite folder_writeTable, lookup_insert_ne by congruence.
    reflexivity.
  - intros d' Hne. now rewrite folder_writeTable_ne.
  - cbn [name rows indexes relationships createdAt columns].
    repeat (split; [reflexivity|]).
    unfold sch at 1. rewrite get_map_snd.
    destruct (get cols "id") as [spec|] eqn:Hget; cbn [fmap option_fmap option_map].
    + now rewrite app_nil_r.
    + apply set_fresh. unfold sch. rewrite get_map_snd. now rewrite Hget.
Qed.

(** X2. [createTable] with a column that is neither a type name nor a
    definition object throws the invalid-definition error that names the
    first such column, and writes nothing, not even the columns before
    it. *)
Theorem createTable_rejects_invalid_column `{Runtime} (w : World) (d n c : string)
    (good rest : list (string * ColumnSpec))
    (rels : list (string * Relationship)) (enc : option Encryption)
    (ts : option bool) :
  currentDbPath w = Some d -> n <> "" -> folder w d !! n = None ->
  Forall (fun cs => is_definition (snd cs) = true) good ->
  db.createTable n (good ++ (c, NotADefinition) :: rest) rels enc ts w
  = (Thrown (InvalidColumnDefinition c), w).
Proof.
  intros Hd Hn Ht Hvalid.
  rewrite (createTable_unfold w d n) by assumption.
  now rewrite normalize_invalid.
Qed.

Lemma trim_end_idempotent (s : string) : trim_end (trim_end s) = trim_end s.
Proof.
  induction s as [|c rest IH]; [reflexivity|].
  cbn [trim_end]. destruct (trim_end rest) as [|c' kept] eqn:Hrest.
  - destruct (is_space c) eqn:Hc; [reflexivity|]. cbn [trim_end]. now rewrite Hc.
  - cbn [trim_end] in *. now rewrite IH.
Qed.

Lemma trim_start_head (s : string) :
  match trim_start s with
  | String c _ => is_space c = false
  | EmptyString => True
  end.
Proof.
  induction s as [|c rest IH]; [exact I|].
  cbn [trim_start]. destruct (is_space c) eqn:Hc; [exact IH | exact Hc].
Qed.

Lemma trim_start_kept (s : string) :
  match s with
  | String c _ => is_space c = false
  | EmptyString => True
  end ->
  trim_start (trim_end s) = trim_end s.
Proof.
  destruct s as [|c rest]; [reflexivity|]. intros Hc. cbn [trim_end].
  destruct (trim_end rest); rewrite ?Hc; cbn [trim_start]; now rewrite Hc.
Qed.

Lemma trim_idempotent (s : string) : trim (trim s) = trim s.
Proof.
  unfold trim. rewrite trim_start_kept by apply trim_start_head.
  apply trim_end_idempotent.
Qed.

(** X3. [use] fails only on the empty name.  Any other name, blanks
    included, selects the database of the trimmed name, creating its folder
    when there is none and changing no table of any database; selecting
    again, under the same or the trimmed name, changes nothing more. *)
Theorem use_selects (databaseName : string) (w : World) :
  databaseName <> "" ->
  exists w',
    use databaseName w = inr w'
    /\ currentDbPath w' = Some (trim databaseName)
    /\ is_Some (disk w' !! trim databaseName)
    /\ (forall d, folder w' d = folder w d)
    /\ use databaseName w' = inr w'
    /\ (trim databaseName <> "" -> use (trim databaseName) w = inr w').
Proof.
  intros Hname. apply String.eqb_neq in Hname.
  unfold use at 1. rewrite Hname. eexists. split; [reflexivity|].
  split; [reflexivity|]. cbn [disk currentDbPath]. split; [|split; [|split]].
  - destruct (disk w !! trim databaseName) eqn:Hd; [now rewrite Hd|].
    rewrite lookup_insert_eq. eauto.
  - intros d. unfold folder. cbn [disk].
    destruct (disk w !! trim databaseName) eqn:Hd; [reflexivity|].
    destruct (String.eqb_spec (trim databaseName) d) as [<-|Hne].
    + now rewrite lookup_insert_eq, Hd.
    + now rewrite lookup_insert_ne.
  - unfold use. rewrite Hname. cbn [disk clock].
    destruct (disk w !! trim databaseName) eqn:Hd.
    + now rewrite Hd.
    + now rewrite lookup_insert_eq.
  - intros Htrim. apply String.eqb_neq in Htrim.
    unfold use. rewrite Htrim. now rewrite trim_idempotent.
Qed.

Lemma use_selects_witness :
  use "  " empty_world
  = inr {| currentDbPath := Some ""; disk := <[ "" := ∅ ]> (disk empty_world);
           clock := O |}.
Proof.
  destruct (use_selects "  " empty_world) as (w' & Hrun & _); [discriminate|].
  rewrite Hrun. vm_compute in Hrun. injection Hrun as <-. reflexivity.
Defined.

(** X4. The existence checks that are made: [createTable] refuses a table
    whose file exists, and [insert], [select], [update], [delete] and
    [migrate] report a table whose file does not exist; none of them
    changes anything then. *)
Theorem existence_checks `{Runtime} (w : World) (d n : string) :
  currentDbPath w = Some d ->
  (forall t cols rels enc ts,
     folder w d !! n = Some t -> n <> "" ->
     db.createTable n cols rels enc ts w = (Thrown (TableExists n), w))
  /\ (folder w d !! n = None ->
      (forall row, db.insert n row w = (Thrown (TableNotFound n), w))
      /\ (forall opts, db.select n opts w = (Thrown (TableNotFound n), w))
      /\ (forall updates where_,
            db.update n updates where_ w = (Thrown (TableNotFound n), w))
      /\ (forall where_ cascade,
            db.delete n where_ cascade w = (Thrown (TableNotFound n), w))
      /\ (forall f, db.migrate n f w = (Thrown (TableNotFound n), w))).
Proof.
  intros Hd. split.
  - intros t cols rels enc ts Ht Hn. now apply (createTable_exists w d n t).
  - intros Ht. now apply (guarded_operations_missing w d n).
Qed.

Lemma existence_checks_witness :
  db.createTable (H := test_runtime) "people" people_columns [] None None
    people_world
  = (Thrown (TableExists "people"), people_world)
  /\ db.select (H := test_runtime) "ghost" (page None None) people_world
     = (Thrown (TableNotFound "ghost"), people_world).
Proof.
  destruct (existence_checks (H := test_runtime) people_world "main" "people"
              eq_refl) as [Hexists _].
  destruct (existence_checks (H := test_runtime) people_world "main" "ghost"
              eq_refl) as [_ Hmissing].
  split.
  - apply (Hexists people_table); [vm_compute; reflexivity | discriminate].
  - apply Hmissing. vm_compute. reflexivity.
Defined.

(** ** What insert stores *)

Section InsertFacts.
Context `{Runtime}.

Lemma get_defaults_present (row : object) (sch : schema) (f : string) (v : json) :
  get row f = Some v ->
  forall validatedRow,
    get (fold_left (fun vr cd => apply_default row vr (fst cd) (snd cd)) sch
           validatedRow) f
    = get validatedRow f.
Proof.
  intros Hv. induction sch as [|[c d] rest IH]; intros vr; [reflexivity|].
  cbn [fold_left fst snd]. rewrite IH, get_apply_default.
  destruct (get row c) eqn:Hc; [reflexivity|].
  destruct (default d); [|reflexivity].
  destruct (String.eqb_spec c f) as [->|]; [congruence | reflexivity].
Qed.

Lemma validateRow_keeps (row validatedRow : object) (sch : schema)
    (existingRows : list object) (f : string) (v : json) :
  SchemaValidator.validateRow row sch existingRows = Returned validatedRow ->
  get row f = Some v -> get validatedRow f = Some v.
Proof.
  rewrite validateRow_unfold. destruct (all_violations _ _ _); [|discriminate].
  intros [= <-] Hv. now rewrite (get_defaults_present row sch f v).
Qed.

Lemma assign_id_get (t : Table) (validatedRow r : object) (w w1 : World)
    (f : string) :
  db.assign_id t validatedRow w = (Returned r, w1) ->
  (f = "id" -> truthy (get validatedRow "id") = true) ->
  get r f = get validatedRow f.
Proof.
  unfold db.assign_id. intros Hrun Hf.
  destruct (get (columns t) "id") as [idc|];
    [|unfold ret in Hrun; now injection Hrun as <- _].
  destruct (bool_decide _) eqn:Hty; cbn [andb] in Hrun;
    [|unfold ret in Hrun; now injection Hrun as <- _].
  destruct (truthy (get validatedRow "id")) eqn:Hid; cbn [negb] in Hrun;
    [unfold ret in Hrun; now injection Hrun as <- _|].
  unfold bind, new_uuid, ret in Hrun. injection Hrun as <- _.
  apply get_set_ne. intros <-. specialize (Hf eq_refl). congruence.
Qed.

Lemma stamp_get (t : Table) (validatedRow r : object) (w w1 : World) (f : string) :
  db.stamp t validatedRow w = (Returned r, w1) ->
  (f = "createdAt" -> truthy (get validatedRow "createdAt") = true) ->
  (f = "updatedAt" -> truthy (get validatedRow "updatedAt") = true) ->
  get r f = get validatedRow f.
Proof.
  unfold db.stamp. intros Hrun Hc Hu.
  destruct (timestamps (options t));
    [|unfold ret in Hrun; now injection Hrun as <- _].
  unfold bind, new_Date, ret in Hrun. injection Hrun as <- _.
  destruct (truthy (get validatedRow "createdAt")) eqn:Hcreated; cbn [negb].
  - destruct (truthy (get validatedRow "updatedAt")) eqn:Hupdated; cbn [negb];
      [reflexivity|].
    apply get_set_ne. intros <-. specialize (Hu eq_refl). congruence.
  - assert (Hfc : "createdAt" <> f)
      by (intros <-; specialize (Hc eq_refl); congruence).
    destruct (truthy (get (set "createdAt" _ validatedRow) "updatedAt")) eqn:Hupdated;
      cbn [negb].
    + now apply get_set_ne.
    + rewrite get_set_ne in Hupdated by discriminate.
      assert (Hfu : "updatedAt" <> f)
        by (intros <-; specialize (Hu eq_refl); congruence).
      rewrite (get_set_ne "updatedAt" f) by assumption. now apply get_set_ne.
Qed.

Lemma stamp_stamps (t : Table) (validatedRow r : object) (w w1 : World) :
  db.stamp t validatedRow w = (Returned r, w1) ->
  timestamps (options t) = true ->
  is_Some (get r "createdAt") /\ is_Some (get r "updatedAt").
Proof.
  unfold db.stamp. intros Hrun Hts. rewrite Hts in Hrun.
  unfold bind, new_Date, ret in Hrun. injection Hrun as <- _.
  assert (Hset : forall (k : string) (x : json) (o : object),
             is_Some (get (if negb (truthy (get o k)) then set k x o else o) k)).
  { intros k x o. destruct (get o k) as [y|] eqn:Hy.
    - destruct (negb _); [rewrite get_set_eq|rewrite Hy]; eauto.
    - cbn. rewrite get_set_eq. eauto. }
  split; [|apply Hset].
  destruct (negb (truthy (get (if negb (truthy (get validatedRow "createdAt"))
                                then set "createdAt" (JStr (toISOString (clock w))) validatedRow
                                else validatedRow) "updatedAt"))).
  - rewrite get_set_ne by discriminate. apply Hset.
  - apply Hset.
Qed.

Lemma encrypt_fields_other (enc : Encryption) (row : object) (f : string) :
  match fields enc with
  | Some fs => ~ In f fs
  | None => True
  end ->
  get (db.encrypt_fields enc row) f = get row f.
Proof.
  unfold db.encrypt_fields. destruct (fields enc) as [fs|]; [|reflexivity].
  revert row. induction fs as [|g fs IH]; intros row Hout; [reflexivity|].
  cbn [fold_left]. rewrite IH by (intros Hin; apply Hout; now right).
  destruct (get row g); [|reflexivity].
  apply get_set_ne. intros ->. apply Hout. now left.
Qed.

Lemma check_foreign_keys_ok (d : string) (rels : list (string * Relationship))
    (row : object) (w w' : World) :
  db.check_foreign_keys d rels row w = (Returned tt, w') ->
  forall field rel v,
    In (field, rel) rels -> get row field = Some v ->
    exists ft r,
      folder w d !! foreignTable rel = Some ft /\ In r (rows ft)
      /\ strict_eq (get r (foreignKey rel)) (Some v) = true.
Proof.
  induction rels as [|[field0 rel0] rest IH]; intros Hrun field rel v Hin Hv;
    [destruct Hin|].
  cbn [db.check_foreign_keys] in Hrun.
  destruct (get row field0) as [v0|] eqn:Hv0.
  - unfold bind, existsSync, readTable, throw in Hrun. cbn beta iota in Hrun.
    destruct (folder w d !! foreignTable rel0) as [ft|] eqn:Hft;
      [|cbn in Hrun; discriminate].
    cbn in Hrun. rewrite Hft in Hrun.
    destruct (existsb _ (rows ft)) eqn:Hex; cbn in Hrun; [|discriminate].
    destruct Hin as [[= -> ->]|Hin]; [|now apply (IH Hrun field rel v)].
    assert (v0 = v) by congruence. subst v0.
    apply existsb_exists in Hex as (r & Hr & Heq). now exists ft, r.
  - destruct Hin as [[= -> ->]|Hin]; [congruence|].
    now apply (IH Hrun field rel v).
Qed.

(** The stages of a successful insert. *)
Lemma insert_stages (w w' : World) (d n : string) (t : Table)
    (row stored : object) :
  currentDbPath w = Some d -> folder w d !! n = Some t ->
  db.insert n row w = (Returned stored, w') ->
  exists validatedRow r1 r2 w1 w2,
    SchemaValidator.validateRow row (columns t) (rows t) = Returned validatedRow
    /\ db.assign_id t validatedRow w = (Returned r1, w1)
    /\ db.stamp t r1 w1 = (Returned r2, w2)
    /\ db.check_foreign_keys d (relationships t) r2 w2 = (Returned tt, w2)
    /\ disk w2 = disk w
    /\ stored = db.encrypt_fields (encryption (options t)) r2.
Proof.
  intros Hd Ht Hrun. rewrite (insert_unfold w d n t) in Hrun by assumption.
  destruct (SchemaValidator.validateRow row (columns t) (rows t))
    as [validatedRow|e] eqn:Hv; [|discriminate].
  unfold bind in Hrun.
  destruct (assign_id_run t validatedRow w) as (r1 & w1 & Hr1 & Hd1 & Hp1).
  rewrite Hr1 in Hrun.
  destruct (stamp_run t r1 w1) as (r2 & w2 & Hr2 & Hd2 & Hp2).
  rewrite Hr2 in Hrun.
  destruct (db.check_foreign_keys d (relationships t) r2 w2) as [[[]|e] w3] eqn:Hfk;
    [|discriminate].
  pose proof (check_foreign_keys_world _ _ _ _ _ _ Hfk) as ->.
  unfold ret in Hrun. injection Hrun as Hs _.
  exists validatedRow, r1, r2, w1, w2. repeat split; try assumption; congruence.
Qed.

(** A field the caller gave is stored as given, unless it is encrypted or
    it is a falsy field [insert] fills in. *)
Lemma insert_keeps_field (w w' : World) (d n : string) (t : Table)
    (row stored : object) (f : string) (v : json) :
  currentDbPath w = Some d -> folder w d !! n = Some t ->
  db.insert n row w = (Returned stored, w') ->
  get row f = Some v -> ~ encrypted_field t f ->
  (filled_in f = true -> truthy (Some v) = true) ->
  get stored f = Some v.
Proof.
  intros Hd Ht Hrun Hf Hclear Hfilled.
  destruct (insert_stages w w' d n t row stored Hd Ht Hrun)
    as (vr & r1 & r2 & w1 & w2 & Hv & Hr1 & Hr2 & _ & _ & Hstored).
  rewrite Hstored, encrypt_fields_other
    by (unfold encrypted_field in Hclear; now destruct (fields _)).
  assert (Hvr : get vr f = Some v) by now apply (validateRow_keeps row vr _ _ f v Hv).
  assert (Hr1f : get r1 f = Some v).
  { rewrite (assign_id_get t vr r1 w w1 f Hr1); [assumption|].
    intros ->. rewrite Hvr. now apply Hfilled. }
  rewrite (stamp_get t r1 r2 w1 w2 f Hr2); [assumption| |];
    intros ->; rewrite Hr1f; now apply Hfilled.
Qed.

End InsertFacts.

(** X5. What a successful insert stores and returns.  The table gains the
    returned row as its last row and nothing else changes.  A field the
    caller gave keeps its value, unless it is encrypted or it is a falsy
    [id], [createdAt] or [updatedAt]; a table that keeps timestamps gives
    the row both timestamps.  A select of everything then returns the old
    rows followed by the new one, when the table encrypts nothing. *)
Theorem insert_stores_row `{Runtime} (w w' : World) (d n : string) (t : Table)
    (row stored : object) :
  currentDbPath w = Some d -> folder w d !! n = Some t ->
  db.insert n row w = (Returned stored, w') ->
  folder w' d !! n = Some (with_rows t (rows t ++ [stored]))
  /\ (forall k, k <> n -> folder w' d !! k = folder w d !! k)
  /\ (forall f v,
        get row f = Some v -> ~ encrypted_field t f ->
        (filled_in f = true -> truthy (Some v) = true) ->
        get stored f = Some v)
  /\ (timestamps (options t) = true ->
      ~ encrypted_field t "createdAt" -> ~ encrypted_field t "updatedAt" ->
      is_Some (get stored "createdAt") /\ is_Some (get stored "updatedAt"))
  /\ (fields (encryption (options t)) = None ->
      db.select n (page None None) w'
      = (Returned (rows t ++ [stored])%list, w')).
Proof.
  intros Hd Ht Hrun.
  destruct (insert_success_inv w w' n row stored Hrun)
    as (d' & t' & vr' & Hd' & Ht' & _ & Hd1 & Hfolder & _).
  assert (d' = d) by congruence. subst d'.
  assert (t' = t) by congruence. subst t'.
  destruct (insert_stages w w' d n t row stored Hd Ht Hrun)
    as (vr & r1 & r2 & w1 & w2 & Hv & Hr1 & Hr2 & _ & _ & Hstored).
  assert (Hplain : forall f, ~ encrypted_field t f ->
                             get stored f = get r2 f).
  { intros f Hf. rewrite Hstored. apply encrypt_fields_other.
    unfold encrypted_field in Hf. now destruct (fields _). }
  split; [rewrite Hfolder; apply lookup_insert_eq|].
  split; [intros k Hk; rewrite Hfolder; now apply lookup_insert_ne|].
  split; [|split].
  - intros f v Hf Hclear Hfilled.
    now apply (insert_keeps_field w w' d n t row stored f v).
  - intros Hts Hc Hu. rewrite !Hplain by assumption.
    now apply (stamp_stamps t r1 r2 w1 w2).
  - intros Hnone.
    assert (Ht1 : folder w' d !! n = Some (with_rows t (rows t ++ [stored])))
      by (rewrite Hfolder; apply lookup_insert_eq).
    rewrite (select_unfold w' d n _ _ Hd1 Ht1).
    unfold db.decrypt_stage. cbn [options with_rows rows]. now rewrite Hnone.
Qed.

(** X6. Insert enforces its relationships.  After a successful insert, every
    relationship field the stored row holds in the clear names a row of the
    foreign table, by the foreign key of the relationship.  An insert whose
    row holds, under a relationship field, a value no row of the foreign
    table has, or whose foreign table is missing, throws and writes
    nothing. *)
Theorem insert_enforces_foreign_keys `{Runtime} (w : World) (d n : string)
    (t : Table) (row : object) (field : string) (rel : Relationship) :
  currentDbPath w = Some d -> folder w d !! n = Some t ->
  In (field, rel) (relationships t) -> ~ encrypted_field t field ->
  (forall stored w' v,
     db.insert n row w = (Returned stored, w') ->
     get stored field = Some v ->
     exists ft r,
       folder w d !! foreignTable rel = Some ft /\ In r (rows ft)
       /\ strict_eq (get r (foreignKey rel)) (Some v) = true)
  /\ (forall v,
        get row field = Some v ->
        (filled_in field = true -> truthy (Some v) = true) ->
        (forall ft r, folder w d !! foreignTable rel = Some ft -> In r (rows ft) ->
                      strict_eq (get r (foreignKey rel)) (Some v) = false) ->
        exists e w', db.insert n row w = (Thrown e, w') /\ disk w' = disk w).
Proof.
  intros Hd Ht Hin Hclear.
  assert (Hsound : forall stored w' v,
             db.insert n row w = (Returned stored, w') ->
             get stored field = Some v ->
             exists ft r,
               folder w d !! foreignTable rel = Some ft /\ In r (rows ft)
               /\ strict_eq (get r (foreignKey rel)) (Some v) = true).
  { intros stored w' v Hrun Hv.
    destruct (insert_stages w w' d n t row stored Hd Ht Hrun)
      as (vr & r1 & r2 & w1 & w2 & _ & _ & _ & Hfk & Hdisk & Hstored).
    assert (Hr2 : get r2 field = Some v).
    { rewrite <- Hv, Hstored. symmetry. apply encrypt_fields_other.
      unfold encrypted_field in Hclear. now destruct (fields _). }
    destruct (check_foreign_keys_ok d _ r2 w2 w2 Hfk field rel v Hin Hr2)
      as (ft & r & Hft & Hr & Heq).
    exists ft, r. rewrite <- (folder_same_disk w w2 d Hdisk). auto. }
  split; [exact Hsound|].
  intros v Hv Hfilled Hdangling.
  destruct (db.insert n row w) as [[stored|e] w'] eqn:Hrun.
  - exfalso.
    pose proof (insert_keeps_field w w' d n t row stored field v Hd Ht Hrun
                  Hv Hclear Hfilled) as Hkeeps.
    destruct (Hsound stored w' v eq_refl Hkeeps) as (ft & r & Hft & Hr & Heq).
    rewrite (Hdangling ft r Hft Hr) in Heq. discriminate.
  - exists e, w'. split; [reflexivity|]. now apply insert_failure_disk in Hrun.
Qed.

(** ** Batches, reads, and encrypted rows *)

Section MoreInsertFacts.
Context `{Runtime}.

Lemma insertMany_loop_inv (n : string) (batch : list object) :
  forall results w res w',
    db.insertMany_loop n batch results w = (Returned res, w') ->
    exists stored, res = (results ++ stored)%list /\ inserted n w batch stored w'.
Proof.
  induction batch as [|row rest IH]; intros results w res w' Hrun.
  - cbn in Hrun. injection Hrun as <- <-. exists []. split.
    + now rewrite app_nil_r.
    + constructor.
  - cbn [db.insertMany_loop] in Hrun. unfold bind in Hrun.
    destruct (db.insert n row w) as [[result|e] w1] eqn:Hrow; [|discriminate].
    apply IH in Hrun as (stored & -> & Hins).
    exists (result :: stored). split.
    + now rewrite <- app_assoc.
    + econstructor; eassumption.
Qed.

Lemma inserted_appends (n d : string) (w w' : World) (batch stored : list object) :
  inserted n w batch stored w' ->
  forall t,
    currentDbPath w = Some d -> folder w d !! n = Some t ->
    length stored = length batch
    /\ currentDbPath w' = Some d
    /\ folder w' d !! n = Some (with_rows t (rows t ++ stored))
    /\ (forall k, k <> n -> folder w' d !! k = folder w d !! k).
Proof.
  induction 1 as [w|w w1 w2 row result batch stored Hrow Hrest IH];
    intros t Hd Ht.
  - rewrite app_nil_r, with_rows_same. auto.
  - destruct (insert_success_inv w w1 n row result Hrow)
      as (d' & t' & vr & Hd' & Ht' & _ & Hd1 & Hfolder & _).
    assert (d' = d) by congruence. subst d'.
    assert (t' = t) by congruence. subst t'.
    assert (Ht1 : folder w1 d !! n = Some (with_rows t (rows t ++ [result])))
      by (rewrite Hfolder; apply lookup_insert_eq).
    destruct (IH _ Hd1 Ht1) as (Hlen & Hd2 & Ht2 & Hothers).
    split; [cbn [length]; now rewrite Hlen|]. split; [assumption|]. split.
    + rewrite Ht2. cbn [rows with_rows]. rewrite with_rows_twice.
      now rewrite <- app_assoc.
    + intros k Hk. rewrite Hothers by assumption. rewrite Hfolder.
      now apply lookup_insert_ne.
Qed.

Lemma select_world (n : string) (opts : Query.options) (w w' : World)
    (o : outcome (list object)) :
  db.select n opts w = (o, w') -> w' = w.
Proof.
  intros Hrun.
  destruct (currentDbPath w) as [d|] eqn:Hd;
    [|rewrite select_no_database in Hrun by assumption; now injection Hrun as _ <-].
  destruct (folder w d !! n) as [t|] eqn:Ht.
  2:{ destruct (guarded_operations_missing w d n Hd Ht) as (_ & Hsel & _).
      rewrite Hsel in Hrun. now injection Hrun as _ <-. }
  rewrite (select_unfold w d n t) in Hrun by assumption.
  destruct (db.decrypt_stage _ _) as [plain|e]; [|now injection Hrun as _ <-].
  destruct (db.join_stage d (Query.join opts) (db.where_stage (Query.where_ opts) plain) w)
    as [[joined|e] w1] eqn:Hjoin;
    apply join_stage_world in Hjoin; subst w1; now injection Hrun as _ <-.
Qed.

End MoreInsertFacts.

(** X7. When [insertMany] succeeds it returns one row for each element of the
    batch, and the table holds its old rows followed by the returned rows, in
    batch order; no other table changes.  The empty batch returns the empty
    list and changes nothing, whatever the state (no database need be
    selected, the table need not exist). *)
Theorem insertMany_appends `{Runtime} (w w' : World) (d n : string) (t : Table)
    (batch stored : list object) :
  currentDbPath w = Some d -> folder w d !! n = Some t ->
  db.insertMany n batch w = (Returned stored, w') ->
  length stored = length batch
  /\ folder w' d !! n = Some (with_rows t (rows t ++ stored))
  /\ (forall k, k <> n -> folder w' d !! k = folder w d !! k)
  /\ (forall (w0 : World) (n0 : string), db.insertMany n0 [] w0 = (Returned [], w0)).
Proof.
  intros Hd Ht Hrun. unfold db.insertMany in Hrun.
  apply insertMany_loop_inv in Hrun as (stored' & -> & Hins).
  cbn [app].
  destruct (inserted_appends n d w w' batch stored' Hins t Hd Ht)
    as (Hlen & _ & Htable & Hothers).
  auto.
Qed.

(** X8. [select] only reads: whatever the options, and whether it returns or
    throws, it leaves the table files, the selected database and the clock
    as they were. *)
Theorem select_reads_only `{Runtime} (n : string) (opts : Query.options)
    (w : World) :
  snd (db.select n opts w) = w.
Proof.
  destruct (db.select n opts w) as [o w'] eqn:Hrun.
  now apply select_world in Hrun.
Qed.

Lemma set_same {A} (k : string) (v : A) (o : list (string * A)) :
  get o k = Some v -> set k v o = o.
Proof.
  induction o as [|[k' v'] rest IH]; simpl; [discriminate|].
  destruct (String.eqb_spec k' k) as [->|Hne].
  - now intros [= ->].
  - intros Hg. now rewrite IH.
Qed.

Lemma set_set {A} (k : string) (v x : A) (o : list (string * A)) :
  set k v (set k x o) = set k v o.
Proof.
  induction o as [|[k' v'] rest IH]; simpl.
  - now rewrite String.eqb_refl.
  - destruct (String.eqb k' k) eqn:E; simpl; rewrite E; [reflexivity|].
    now rewrite IH.
Qed.

Lemma set_comm {A} (k1 k2 : string) (v1 v2 : A) (o : list (string * A)) :
  k1 <> k2 -> is_Some (get o k1) -> is_Some (get o k2) ->
  set k1 v1 (set k2 v2 o) = set k2 v2 (set k1 v1 o).
Proof.
  intros Hne. induction o as [|[k v] rest IH]; simpl.
  - intros [x Hx]. discriminate.
  - destruct (String.eqb k k1) eqn:E1; destruct (String.eqb k k2) eqn:E2;
      simpl; rewrite ?E1, ?E2; try reflexivity.
    + apply String.eqb_eq in E1, E2. congruence.
    + intros H1 H2. now rewrite IH.
Qed.

Section RowCipherFacts.
Context `{Runtime}.

(** One turn of the encryption loop of [insert]. *)
Lemma encrypt_fields_cons (k : option string) (g : string) (fs : list string)
    (row : object) :
  db.encrypt_fields {| key := k; fields := Some (g :: fs) |} row
  = db.encrypt_fields {| key := k; fields := Some fs |}
      match get row g with
      | Some v => set g (_encryptField v k) row
      | None => row
      end.
Proof. reflexivity. Qed.

(** Writing a field that is present and is not encrypted commutes with the
    encryption loop. *)
Lemma encrypt_fields_set (k : option string) (fs : list string) (g : string)
    (x : json) :
  ~ In g fs ->
  forall row,
    is_Some (get row g) ->
    set g x (db.encrypt_fields {| key := k; fields := Some fs |} row)
    = db.encrypt_fields {| key := k; fields := Some fs |} (set g x row).
Proof.
  induction fs as [|h fs IH]; intros Hout row Hg; [reflexivity|].
  rewrite !encrypt_fields_cons.
  assert (Hne : h <> g) by (intros ->; apply Hout; now left).
  assert (Hrest : ~ In g fs) by (intros Hin; apply Hout; now right).
  rewrite get_set_ne by congruence.
  destruct (get row h) as [v|] eqn:Hh.
  - rewrite IH by (try assumption; rewrite get_set_ne by assumption; assumption).
    f_equal. apply set_comm; [congruence|assumption|].
    rewrite Hh. eauto.
  - now apply IH.
Qed.

Lemma decrypt_tagged (v : json) (k encrypted : string) :
  k <> "" -> decipher k encrypted = Some (JSON_stringify v) ->
  JSON_parse (JSON_stringify v) = Some v ->
  _decryptField (tagged encrypted) (Some k) = Returned v.
Proof.
  intros Hk Hdec Hjson. unfold _decryptField, tagged, key_set.
  apply String.eqb_neq in Hk.
  cbn [get String.eqb Ascii.eqb Bool.eqb truthy negb orb]. rewrite Hk.
  cbn [negb]. now rewrite Hdec, Hjson.
Qed.

Lemma decrypt_encrypt_fields (k : string) (fs : list string) :
  k <> "" -> NoDup fs ->
  forall row,
    (forall f v, In f fs -> get row f = Some v ->
                 cipher_works k v /\ JSON_parse (JSON_stringify v) = Some v) ->
    db.decrypt_fields (Some k) fs
      (db.encrypt_fields {| key := Some k; fields := Some fs |} row)
    = Returned row.
Proof.
  intros Hk. induction fs as [|g fs IH]; intros Hnd row Hrow; [reflexivity|].
  apply NoDup_cons in Hnd as [Hg Hnd].
  assert (Hout : ~ In g fs) by (intros Hin; apply Hg; now apply list_elem_of_In).
  assert (Hrest : forall f v, In f fs -> get row f = Some v ->
                              cipher_works k v /\ JSON_parse (JSON_stringify v) = Some v).
  { intros f v Hf. apply Hrow. now right. }
  rewrite encrypt_fields_cons. cbn [db.decrypt_fields].
  rewrite encrypt_fields_other by exact Hout.
  destruct (get row g) as [v|] eqn:Hv.
  - destruct (Hrow g v (or_introl eq_refl) Hv) as [(encrypted & Henc & Hdec) Hjson].
    rewrite (encrypt_tagged v k encrypted Hk Henc), get_set_eq.
    cbn [truthy typeof String.eqb Ascii.eqb Bool.eqb andb db.property tagged get].
    fold (tagged encrypted).
    rewrite (decrypt_tagged v k encrypted Hk Hdec Hjson).
    rewrite encrypt_fields_set by (try assumption; rewrite get_set_eq; eauto).
    rewrite set_set, (set_same g v row Hv). now apply IH.
  - rewrite Hv. now apply IH.
Qed.

Lemma decrypt_fields_unset (k : option string) (fs : list string) :
  key_set k = false ->
  forall row, db.decrypt_fields k fs row = Returned row.
Proof.
  intros Hk. induction fs as [|g fs IH]; intros row; [reflexivity|].
  cbn [db.decrypt_fields].
  destruct (get row g) as [v|] eqn:Hv; [|apply IH].
  destruct (truthy (Some v) && _ && _) eqn:Hguard; [|apply IH].
  destruct v as [| | | | |props]; cbn in Hguard;
    rewrite ?andb_false_r in Hguard; try discriminate.
  cbn [_decryptField]. rewrite Hk, orb_true_r.
  rewrite (set_same g (JObj props) row Hv). apply IH.
Qed.

End RowCipherFacts.

(** X9. The encryption loop of [insert] and the decryption loop of [select]
    are inverse on a row: under a key that is set, with distinct encrypted
    fields and a cipher that works on the values the row holds in them,
    decrypting the encrypted row gives the row back, field for field and in
    the same order; without a key, neither loop changes the row. *)
Theorem stored_row_decrypts `{Runtime} (k : option string) (fs : list string)
    (row : object) :
  (forall key, k = Some key -> key <> "" ->
     NoDup fs ->
     (forall f v, In f fs -> get row f = Some v ->
                  cipher_works key v /\ JSON_parse (JSON_stringify v) = Some v) ->
     db.decrypt_fields k fs
       (db.encrypt_fields {| key := k; fields := Some fs |} row)
     = Returned row)
  /\ (key_set k = false ->
      db.encrypt_fields {| key := k; fields := Some fs |} row = row
      /\ db.decrypt_fields k fs row = Returned row).
Proof.
  split.
  - intros key -> Hkey Hnd Hrow. now apply decrypt_encrypt_fields.
  - intros Hunset. split; [|now apply decrypt_fields_unset].
    revert row. induction fs as [|g fs IH]; intros row; [reflexivity|].
    rewrite encrypt_fields_cons.
    destruct (get row g) as [v|] eqn:Hv; [|apply IH].
    rewrite encrypt_passes by assumption. rewrite (set_same g v row Hv). apply IH.
Qed.

(** ** Update *)

Section UpdateFacts.
Context `{Runtime}.

(** Re-validation returns or throws; it writes no file, and when it throws
    it has not read the clock. *)
Lemma revalidate_run (t : Table) (updates : object) (i : nat) (row : object)
    (w : World) :
  exists o w',
    db.revalidate t updates i row w = (o, w')
    /\ disk w' = disk w /\ currentDbPath w' = currentDbPath w
    /\ (forall e, o = Thrown e -> w' = w)
    /\ (forall e,
          SchemaValidator.validateRow (spread row updates) (columns t)
            (db.other_rows i (get row "id") 0 (rows t)) = Thrown e ->
          o = Thrown e)
    /\ (forall validatedRow,
          SchemaValidator.validateRow (spread row updates) (columns t)
            (db.other_rows i (get row "id") 0 (rows t)) = Returned validatedRow ->
          exists u, o = Returned u).
Proof.
  unfold db.revalidate, bind at 1, lift.
  destruct (SchemaValidator.validateRow _ _ _) as [vr|e].
  - unfold bind. destruct (timestamps (options t)).
    + unfold new_Date, ret. cbn. eexists _, _. split; [reflexivity|].
      split; [reflexivity|]. split; [reflexivity|].
      split; [intros; discriminate|]. split; [intros; discriminate|].
      intros vr' _. eauto.
    + unfold ret. eexists _, _. split; [reflexivity|].
      split; [reflexivity|]. split; [reflexivity|].
      split; [intros; discriminate|]. split; [intros; discriminate|].
      intros vr' _. eauto.
  - eexists _, _. split; [reflexivity|].
    split; [reflexivity|]. split; [reflexivity|]. split; [reflexivity|].
    split; [now intros e' [= ->]|]. intros vr' Hvr. discriminate.
Qed.

(** The shape of what the loop of [update] returns. *)
Lemma update_loop_spec (t : Table) (updates where_ : object)
    (todo : list object) :
  forall i c us w,
    exists rs' more w',
      db.update_loop t updates where_ i todo c us w
      = (Returned (rs', ((c + length more)%nat, (us ++ more)%list)), w')
      /\ length rs' = length todo
      /\ disk w' = disk w /\ currentDbPath w' = currentDbPath w
      /\ (forall j row, todo !! j = Some row -> matches where_ row = false ->
                        rs' !! j = Some row)
      /\ (more = [] -> rs' = todo /\ w' = w)
      /\ (length more <= length (List.filter (matches where_) todo))%nat
      /\ (forall u, In u more -> In u rs').
Proof.
  induction todo as [|row rest IH]; intros i c us w.
  - exists [], [], w. cbn. unfold ret. rewrite Nat.add_0_r, app_nil_r.
    repeat split; auto.
  - cbn [db.update_loop List.filter].
    destruct (matches where_ row) eqn:Hm.
    + unfold bind at 1, try_catch, bind at 1.
      destruct (revalidate_run t updates i row w)
        as (o & w1 & Hrun & Hdisk1 & Hpath1 & Hthrown & _).
      rewrite Hrun. destruct o as [validatedRow|e].
      * unfold ret at 1. unfold bind.
        destruct (IH (S i) (S c) (us ++ [validatedRow])%list w1)
          as (rs' & more & w' & Hloop & Hlen & Hdisk & Hpath & Hkeep & _ & Hcount & Hin).
        rewrite Hloop. unfold ret. cbn [fst snd].
        exists (validatedRow :: rs'), (validatedRow :: more), w'.
        split.
        { replace (c + length (validatedRow :: more))%nat
            with (S c + length more)%nat by (cbn [length]; lia).
          now rewrite <- app_assoc. }
        split; [cbn [length]; now rewrite Hlen|].
        split; [congruence|]. split; [congruence|].
        split.
        { intros [|j] r Hj Hr; cbn in *.
          - injection Hj as <-. congruence.
          - now apply Hkeep. }
        split; [discriminate|].
        split; [cbn [length]; lia|].
        intros u [<-|Hu]; [now left | right; now apply Hin].
      * rewrite (Hthrown e eq_refl). unfold ret at 1. unfold bind.
        destruct (IH (S i) c us w)
          as (rs' & more & w' & Hloop & Hlen & Hdisk & Hpath & Hkeep & Hnone & Hcount & Hin).
        rewrite Hloop. unfold ret. cbn [fst snd].
        exists (row :: rs'), more, w'.
        split; [reflexivity|].
        split; [cbn [length]; now rewrite Hlen|].
        split; [assumption|]. split; [assumption|].
        split.
        { intros [|j] r Hj Hr; cbn in *; [assumption | now apply Hkeep]. }
        split.
        { intros Hmore. destruct (Hnone Hmore) as [-> ->]. auto. }
        split; [cbn [length]; lia|].
        intros u Hu. right. now apply Hin.
    + unfold bind.
      destruct (IH (S i) c us w)
        as (rs' & more & w' & Hloop & Hlen & Hdisk & Hpath & Hkeep & Hnone & Hcount & Hin).
      rewrite Hloop. unfold ret. cbn [fst snd].
      exists (row :: rs'), more, w'.
      split; [reflexivity|].
      split; [cbn [length]; now rewrite Hlen|].
      split; [assumption|]. split; [assumption|].
      split.
      { intros [|j] r Hj Hr; cbn in *; [assumption | now apply Hkeep]. }
      split.
      { intros Hmore. destruct (Hnone Hmore) as [-> ->]. auto. }
      split; [assumption|].
      intros u Hu. right. now apply Hin.
Qed.

(** What the loop of [update] leaves at the position of a matching row:
    the row itself when its re-validation throws, and otherwise the row the
    re-validation returned, which is also among the updated rows. *)
Lemma update_loop_positions (t : Table) (updates where_ : object)
    (todo : list object) :
  forall i c us w rs' counters w',
    db.update_loop t updates where_ i todo c us w
    = (Returned (rs', counters), w') ->
    forall j row,
      todo !! j = Some row -> matches where_ row = true ->
      (forall e,
         SchemaValidator.validateRow (spread row updates) (columns t)
           (db.other_rows (i + j) (get row "id") 0 (rows t)) = Thrown e ->
         rs' !! j = Some row)
      /\ (forall validatedRow,
            SchemaValidator.validateRow (spread row updates) (columns t)
              (db.other_rows (i + j) (get row "id") 0 (rows t))
            = Returned validatedRow ->
            exists u wa wb,
              db.revalidate t updates (i + j) row wa = (Returned u, wb)
              /\ rs' !! j = Some u /\ In u (snd counters)).
Proof.
  induction todo as [|row0 rest IH]; intros i c us w rs' counters w' Hrun j row Hj Hm;
    [discriminate|].
  cbn [db.update_loop] in Hrun.
  destruct (matches where_ row0) eqn:Hm0.
  - unfold bind at 1, try_catch, bind at 1 in Hrun.
    destruct (revalidate_run t updates i row0 w)
      as (o & w1 & Hrev & _ & _ & Hthrown & Hfails & Hreturns).
    rewrite Hrev in Hrun. destruct o as [u0|e0].
    + unfold ret at 1 in Hrun. unfold bind in Hrun.
      destruct (update_loop_spec t updates where_ rest (S i) (S c)
                  (us ++ [u0])%list w1)
        as (rs1 & more & w2 & Hloop & _).
      rewrite Hloop in Hrun. unfold ret in Hrun. cbn [fst snd] in Hrun.
      injection Hrun as <- <- <-.
      destruct j as [|j].
      * cbn in Hj. injection Hj as <-. rewrite Nat.add_0_r. split.
        -- intros e He. specialize (Hfails e He). discriminate.
        -- intros vr _. exists u0, w, w1. split; [exact Hrev|].
           split; [reflexivity|]. cbn [snd].
           rewrite <- app_assoc. apply in_or_app. right. now left.
      * cbn in Hj. rewrite <- Nat.add_succ_comm.
        exact (IH (S i) (S c) (us ++ [u0])%list w1 _ _ _ Hloop j row Hj Hm).
    + rewrite (Hthrown e0 eq_refl) in Hrun. unfold ret at 1 in Hrun.
      unfold bind in Hrun.
      destruct (update_loop_spec t updates where_ rest (S i) c us w)
        as (rs1 & more & w2 & Hloop & _).
      rewrite Hloop in Hrun. unfold ret in Hrun. cbn [fst snd] in Hrun.
      injection Hrun as <- <- <-.
      destruct j as [|j].
      * cbn in Hj. injection Hj as <-. rewrite Nat.add_0_r. split.
        -- intros e He. reflexivity.
        -- intros vr Hvr. destruct (Hreturns vr Hvr) as [u Hu]. discriminate.
      * cbn in Hj. rewrite <- Nat.add_succ_comm.
        exact (IH (S i) c us w _ _ _ Hloop j row Hj Hm).
  - unfold bind in Hrun.
    destruct (update_loop_spec t updates where_ rest (S i) c us w)
      as (rs1 & more & w2 & Hloop & _).
    rewrite Hloop in Hrun. unfold ret in Hrun. cbn [fst snd] in Hrun.
    injection Hrun as <- <- <-.
    destruct j as [|j].
    + cbn in Hj. injection Hj as <-. congruence.
    + cbn in Hj. rewrite <- Nat.add_succ_comm.
      exact (IH (S i) c us w _ _ _ Hloop j row Hj Hm).
Qed.

(** When the re-validation of every matching row throws, the loop returns
    the rows as they were. *)
Lemma update_loop_nothing (t : Table) (updates where_ : object)
    (todo : list object) :
  forall i c us w,
    (forall j row, todo !! j = Some row -> matches where_ row = true ->
       exists e, SchemaValidator.validateRow (spread row updates) (columns t)
                   (db.other_rows (i + j) (get row "id") 0 (rows t)) = Thrown e) ->
    db.update_loop t updates where_ i todo c us w = (Returned (todo, (c, us)), w).
Proof.
  induction todo as [|row rest IH]; intros i c us w Hall; [reflexivity|].
  assert (Hrest : forall j r, rest !! j = Some r -> matches where_ r = true ->
            exists e, SchemaValidator.validateRow (spread r updates) (columns t)
                        (db.other_rows (S i + j) (get r "id") 0 (rows t)) = Thrown e).
  { intros j r Hj Hr. destruct (Hall (S j) r Hj Hr) as [e He]. exists e.
    now rewrite <- Nat.add_succ_comm in He. }
  cbn [db.update_loop]. destruct (matches where_ row) eqn:Hm.
  - destruct (Hall 0%nat row eq_refl Hm) as [e He]. rewrite Nat.add_0_r in He.
    unfold bind at 1, try_catch, bind at 1.
    destruct (revalidate_run t updates i row w)
      as (o & w1 & Hrun & _ & _ & Hthrown & Hfails & _).
    rewrite Hrun. rewrite (Hfails e He) in *. rewrite (Hthrown e eq_refl).
    unfold ret at 1. unfold bind. now rewrite (IH (S i) c us w Hrest).
  - unfold bind. now rewrite (IH (S i) c us w Hrest).
Qed.

Lemma update_unfold (w : World) (d n : string) (t : Table)
    (updates where_ : object) :
  currentDbPath w = Some d -> folder w d !! n = Some t ->
  db.update n updates where_ w
  = match db.update_loop t updates where_ 0 (rows t) 0 [] w with
    | (Returned done, w1) =>
        (Returned {| Result.count := fst (snd done);
                     Result.rows := snd (snd done) |},
         if (0 <? fst (snd done))%nat
         then snd (writeTable d n (with_rows t (fst done)) w1)
         else w1)
    | (Thrown e, w1) => (Thrown e, w1)
    end.
Proof.
  intros Hd Ht. unfold db.update, bind at 1, read_currentDbPath. rewrite Hd.
  unfold bind at 1, existsSync. rewrite Ht.
  rewrite bool_decide_eq_true_2 by eauto. cbn [negb].
  unfold bind at 1, readTable. rewrite Ht.
  unfold bind at 1.
  destruct (db.update_loop t updates where_ 0 (rows t) 0 [] w) as [[done|e] w1];
    [|reflexivity].
  unfold bind. destruct (0 <? fst (snd done))%nat; reflexivity.
Qed.

Lemma set_keeps_keys {A} (k : string) (v : A) (o : list (string * A))
    (f : string) :
  In f (keys o) -> In f (keys (set k v o)).
Proof.
  induction o as [|[k' v'] rest IH]; cbn; [tauto|].
  destruct (String.eqb k' k); cbn; tauto.
Qed.

Lemma spread_keys (row updates : object) (f : string) :
  In f (keys row) -> In f (keys (spread row updates)).
Proof.
  unfold spread. revert row.
  induction updates as [|[k v] rest IH]; intros row Hin; [assumption|].
  cbn [fold_left fst snd]. apply IH. now apply set_keeps_keys.
Qed.

End UpdateFacts.

(** X10. [update] on a table that exists always returns: a matching row
    whose re-validation fails is kept as it is, at its position, instead of
    failing the call, and a matching row whose re-validation succeeds is
    replaced, at its position, by the row the re-validation gives, which is
    among the rows returned.  The table keeps its columns, indexes and
    options, and the number and order of its rows; the rows that do not
    match are left as they are; [count] is the number of rows returned, at
    most the number of matching rows, and every returned row is in the table
    afterwards; the other tables are not touched, and with a count of 0
    nothing is written. *)
Theorem update_keeps_table_shape `{Runtime} (w : World) (d n : string)
    (t : Table) (updates where_ : object) :
  currentDbPath w = Some d -> folder w d !! n = Some t ->
  exists result w' t',
    db.update n updates where_ w = (Returned result, w')
    /\ Result.count result = length (Result.rows result)
    /\ (Result.count result <= length (List.filter (matches where_) (rows t)))%nat
    /\ folder w' d !! n = Some t'
    /\ t' = with_rows t (rows t')
    /\ length (rows t') = length (rows t)
    /\ (forall j row, rows t !! j = Some row -> matches where_ row = false ->
                      rows t' !! j = Some row)
    /\ (forall j row e,
          rows t !! j = Some row -> matches where_ row = true ->
          SchemaValidator.validateRow (spread row updates) (columns t)
            (db.other_rows j (get row "id") 0 (rows t)) = Thrown e ->
          rows t' !! j = Some row)
    /\ (forall j row validatedRow,
          rows t !! j = Some row -> matches where_ row = true ->
          SchemaValidator.validateRow (spread row updates) (columns t)
            (db.other_rows j (get row "id") 0 (rows t)) = Returned validatedRow ->
          exists u wa wb,
            db.revalidate t updates j row wa = (Returned u, wb)
            /\ rows t' !! j = Some u /\ In u (Result.rows result))
    /\ (forall u, In u (Result.rows result) -> In u (rows t'))
    /\ (forall k, k <> n -> folder w' d !! k = folder w d !! k)
    /\ (Result.count result = 0%nat -> w' = w).
Proof.
  intros Hd Ht. rewrite (update_unfold w d n t updates where_ Hd Ht).
  destruct (update_loop_spec t updates where_ (rows t) 0 0 [] w)
    as (rs' & more & w1 & Hloop & Hlen & Hdisk & Hpath & Hkeep & Hnone & Hcount & Hin).
  pose proof (update_loop_positions t updates where_ (rows t) 0 0 [] w _ _ _ Hloop)
    as Hpos. cbn [snd app Nat.add] in Hpos.
  rewrite Hloop. cbn [fst snd Nat.add app].
  destruct more as [|u more].
  - destruct (Hnone eq_refl) as [-> ->]. cbn [length Nat.ltb Nat.leb].
    exists {| Result.count := 0; Result.rows := [] |}, w, t.
    split; [reflexivity|]. split; [reflexivity|]. split; [cbn; lia|].
    split; [assumption|]. split; [now rewrite with_rows_same|].
    split; [reflexivity|]. split; [auto|].
    split; [intros j row e Hj _ _; exact Hj|].
    split.
    { intros j row vr Hj Hm Hvr.
      destruct (Hpos j row Hj Hm) as [_ Hdone].
      destruct (Hdone vr Hvr) as (u & _ & _ & _ & _ & []). }
    split; [intros u []|].
    split; [reflexivity|]. reflexivity.
  - cbn [length]. replace (0 <? S (length more))%nat with true by reflexivity.
    eexists _, _, (with_rows t rs'). split; [reflexivity|].
    cbn [Result.count Result.rows length rows with_rows].
    split; [reflexivity|]. split; [exact Hcount|].
    split; [rewrite folder_writeTable; apply lookup_insert_eq|].
    split; [reflexivity|]. split; [exact Hlen|]. split; [exact Hkeep|].
    split.
    { intros j row e Hj Hm He. destruct (Hpos j row Hj Hm) as [Hkept _]. eauto. }
    split.
    { intros j row vr Hj Hm Hvr. destruct (Hpos j row Hj Hm) as [_ Hdone]. eauto. }
    split; [exact Hin|].
    split.
    + intros k Hk. rewrite folder_writeTable, lookup_insert_ne by congruence.
      now rewrite (folder_same_disk w w1 d Hdisk).
    + discriminate.
Qed.

Section UndeclaredFields.
Context `{Runtime}.

(** A row with a field that is no column and is not [id] is rejected. *)
Lemma validateRow_undeclared (row : object) (sch : schema)
    (existingRows : list object) (f : string) :
  In f (keys row) -> get sch f = None -> inherited f = false -> f <> "id" ->
  exists errors,
    SchemaValidator.validateRow row sch existingRows
    = Thrown (SchemaValidationFailed errors)
    /\ In (UndefinedField f) errors.
Proof.
  intros Hin Hsch Hinh Hid. rewrite validateRow_unfold.
  assert (Hv : In (UndefinedField f) (all_violations row sch existingRows)).
  { unfold all_violations. apply in_or_app. right.
    unfold extra_fields. apply in_flat_map. exists f. split; [assumption|].
    rewrite Hsch, Hinh.
    rewrite bool_decide_eq_false_2 by (intros [x Hx]; discriminate).
    destruct (String.eqb_spec f "id"); [contradiction|]. now left. }
  destruct (all_violations row sch existingRows) as [|v vs]; [destruct Hv|].
  eexists. split; [reflexivity | exact Hv].
Qed.

End UndeclaredFields.

(** X11. [update] re-validates the whole stored row, not only the updates:
    when every matching row holds a field (other than [id]) that the schema
    does not declare, such as the [createdAt] and [updatedAt] that [insert]
    stamps on the rows of a table whose schema does not list them, no row is
    updated, whatever the updates are: the call returns a count of 0 and
    writes nothing.  (The field is none that every object inherits.) *)
Theorem update_drops_rows_with_undeclared_fields `{Runtime} (w : World)
    (d n : string) (t : Table) (updates where_ : object) :
  currentDbPath w = Some d -> folder w d !! n = Some t ->
  (forall row, In row (rows t) -> matches where_ row = true ->
     exists f, In f (keys row) /\ get (columns t) f = None
               /\ inherited f = false /\ f <> "id") ->
  db.update n updates where_ w
  = (Returned {| Result.count := 0; Result.rows := [] |}, w).
Proof.
  intros Hd Ht Hall. rewrite (update_unfold w d n t updates where_ Hd Ht).
  rewrite update_loop_nothing; [reflexivity|].
  intros j row Hj Hm.
  assert (Hin : In row (rows t)).
  { apply list_elem_of_In. eapply list_elem_of_lookup_2. exact Hj. }
  destruct (Hall row Hin Hm) as (f & Hf & Hcol & Hinh & Hid).
  destruct (validateRow_undeclared (spread row updates) (columns t)
              (db.other_rows (0 + j) (get row "id") 0 (rows t)) f
              (spread_keys row updates f Hf) Hcol Hinh Hid)
    as (errors & Hthrown & _).
  eauto.
Qed.

Section WhereFacts.
Context `{Runtime}.

Lemma matches_structured (where_ row : object) (k : string) (v : json) :
  get where_ k = Some v -> structured v = true -> matches where_ row = false.
Proof.
  intros Hk Hv. unfold matches.
  apply not_true_is_false. intros Hall. rewrite forallb_forall in Hall.
  assert (Hin : In k (keys where_)).
  { destruct (in_dec string_dec k (keys where_)) as [|Hout]; [assumption|].
    apply get_None_keys in Hout. congruence. }
  specialize (Hall k Hin). rewrite Hk in Hall.
  destruct v; try discriminate; destruct (get row k) as [[]|]; discriminate.
Qed.

Lemma delete_plain_run (w : World) (d n : string) (t : Table) (where_ : object) :
  currentDbPath w = Some d -> folder w d !! n = Some t ->
  db.delete n where_ false w
  = (Returned
       {| Result.count :=
            (length (rows t)
             - length (List.filter (fun row => negb (matches where_ row)) (rows t)))%nat;
          Result.rows := List.filter (matches where_) (rows t) |},
     snd (writeTable d n
            (with_rows t
               (List.filter (fun row => negb (matches where_ row)) (rows t))) w)).
Proof.
  intros Hd Ht.
  unfold db.delete, bind at 1, read_currentDbPath. rewrite Hd.
  unfold bind at 1, existsSync. rewrite Ht.
  rewrite bool_decide_eq_true_2 by eauto. cbn [negb].
  unfold bind at 1, readTable. rewrite Ht.
  reflexivity.
Qed.

Lemma filter_all_false {A} (p : A -> bool) (l : list A) :
  (forall x, p x = false) -> List.filter p l = [].
Proof.
  intros Hp. induction l as [|x l IH]; simpl; [reflexivity|].
  now rewrite Hp, IH.
Qed.

Lemma filter_split_length {A} (p : A -> bool) (l : list A) :
  (length (List.filter p l)
   + length (List.filter (fun x => negb (p x)) l) = length l)%nat.
Proof.
  induction l as [|x l IH]; simpl; [reflexivity|].
  destruct (p x); simpl; lia.
Qed.

Lemma pruned_nothing (n : string) (t : Table) : pruned n [] t = t.
Proof.
  unfold pruned. rewrite filter_all_true; [apply with_rows_same|].
  intros row. apply survives_spec. reflexivity.
Qed.

End WhereFacts.

(** ** Conditions of update and delete *)

Section PlainWhere.
Context `{Runtime}.

Lemma delete_nothing_cascade (w : World) (d n : string) (t : Table)
    (where_ : object) :
  currentDbPath w = Some d -> folder w d !! n = Some t ->
  (forall row, matches where_ row = false) ->
  exists w',
    db.delete n where_ true w
    = (Returned {| Result.count := 0; Result.rows := [] |}, w')
    /\ forall d', folder w' d' = folder w d'.
Proof.
  intros Hd Ht Hno.
  destruct (delete_cascade_run w d n t where_ Hd Ht)
    as (w' & Hrun & _ & Hn & Hother & Hfar).
  exists w'. rewrite Hrun.
  rewrite (filter_all_false (matches where_)) in * by assumption.
  rewrite (filter_all_true (fun row => negb (matches where_ row))) in *
    by (intros row; now rewrite Hno).
  rewrite Nat.sub_diag. split; [reflexivity|].
  intros d'. destruct (decide (d = d')) as [<-|Hne]; [|now apply Hfar].
  apply map_eq. intros k. destruct (decide (k = n)) as [->|Hk].
  - now rewrite Hn, with_rows_same, Ht.
  - rewrite (Hother k Hk). cbn [map]. destruct (folder w d !! k) as [ot|]; cbn.
    + now rewrite pruned_nothing.
    + reflexivity.
Qed.

Lemma delete_nothing_plain (w : World) (d n : string) (t : Table)
    (where_ : object) :
  currentDbPath w = Some d -> folder w d !! n = Some t ->
  (forall row, matches where_ row = false) ->
  exists w',
    db.delete n where_ false w
    = (Returned {| Result.count := 0; Result.rows := [] |}, w')
    /\ forall d', folder w' d' = folder w d'.
Proof.
  intros Hd Ht Hno. rewrite (delete_plain_run w d n t where_ Hd Ht).
  eexists. rewrite (filter_all_false (matches where_)) by assumption.
  rewrite (filter_all_true (fun row => negb (matches where_ row)))
    by (intros row; now rewrite Hno).
  rewrite Nat.sub_diag, with_rows_same. split; [reflexivity|].
  intros d'. destruct (decide (d = d')) as [<-|Hne].
  - rewrite folder_writeTable. now apply insert_id.
  - now apply folder_writeTable_ne.
Qed.

(** On conditions without arrays and objects the two readings of [where]
    agree. *)
Lemma conditions_plain (where_ : object) (row : object) :
  NoDup (keys where_) ->
  (forall k v, In (k, v) where_ -> structured v = false) ->
  forallb (fun kc => db.condition_holds row (fst kc) (snd kc)) where_
  = matches where_ row.
Proof.
  intros Hnd Hplain. unfold matches, keys.
  assert (Hsub : forall kc, In kc where_ -> In kc where_) by auto.
  revert Hsub. generalize where_ at 1 3 5 as l.
  induction l as [|[k v] l IH]; intros Hsub; [reflexivity|].
  cbn [forallb map fst snd]. rewrite IH by (intros kc Hkc; apply Hsub; now right).
  f_equal.
  assert (Hin : In (k, v) where_) by (apply Hsub; now left).
  rewrite (In_get_NoDup where_ k v Hnd Hin).
  specialize (Hplain k v Hin). destruct v; try discriminate; reflexivity.
Qed.

End PlainWhere.

(** X12. The [where] of [update] and [delete] is strict equality on every
    key and nothing else: a condition whose value is an array or an object,
    which [select] reads as a list of values or as operators, matches no
    row.  With such a condition [update] and [delete], cascading or not,
    return a count of 0 and no rows, and leave every table as it was. *)
Theorem update_and_delete_know_no_operators `{Runtime} (w : World)
    (d n : string) (t : Table) (updates where_ : object) (k : string)
    (v : json) :
  currentDbPath w = Some d -> folder w d !! n = Some t ->
  get where_ k = Some v -> structured v = true ->
  (forall row, matches where_ row = false)
  /\ db.update n updates where_ w
     = (Returned {| Result.count := 0; Result.rows := [] |}, w)
  /\ forall cascade,
       exists w',
         db.delete n where_ cascade w
         = (Returned {| Result.count := 0; Result.rows := [] |}, w')
         /\ forall d', folder w' d' = folder w d'.
Proof.
  intros Hd Ht Hk Hv.
  assert (Hno : forall row, matches where_ row = false).
  { intros row. exact (matches_structured where_ row k v Hk Hv). }
  split; [exact Hno|]. split.
  - rewrite (update_unfold w d n t updates where_ Hd Ht).
    rewrite update_loop_nothing; [reflexivity|].
    intros j row _ Hm. rewrite Hno in Hm. discriminate.
  - intros [|].
    + exact (delete_nothing_cascade w d n t where_ Hd Ht Hno).
    + exact (delete_nothing_plain w d n t where_ Hd Ht Hno).
Qed.

(** X13. [delete] without cascade returns the matching rows, in order, and
    their number as [count]; the table keeps the rows that do not match, in
    order, with its columns, indexes and options; deleted and kept rows add
    up to the rows there were.  No other table is touched, so rows of other
    tables that reference a deleted row stay.  Deleting again with the same
    condition removes nothing. *)
Theorem delete_without_cascade (w : World) (d n : string)
    (t : Table) (where_ : object) :
  currentDbPath w = Some d -> folder w d !! n = Some t ->
  let remaining := List.filter (fun row => negb (matches where_ row)) (rows t) in
  exists result w',
    db.delete n where_ false w = (Returned result, w')
    /\ Result.rows result = List.filter (matches where_) (rows t)
    /\ Result.count result = length (Result.rows result)
    /\ (Result.count result + length remaining = length (rows t))%nat
    /\ currentDbPath w' = Some d
    /\ folder w' d !! n = Some (with_rows t remaining)
    /\ (forall row, In row remaining <-> In row (rows t) /\ matches where_ row = false)
    /\ (forall k, k <> n -> folder w' d !! k = folder w d !! k)
    /\ (forall d', d <> d' -> folder w' d' = folder w d')
    /\ exists w'',
         db.delete n where_ false w'
         = (Returned {| Result.count := 0; Result.rows := [] |}, w'')
         /\ forall d', folder w'' d' = folder w' d'.
Proof.
  intros Hd Ht remaining. rewrite (delete_plain_run w d n t where_ Hd Ht).
  fold remaining.
  pose proof (filter_split_length (matches where_) (rows t)) as Hsplit.
  fold remaining in Hsplit.
  eexists _, _. split; [reflexivity|]. cbn [Result.rows Result.count].
  split; [reflexivity|]. split; [lia|]. split; [lia|].
  split; [exact Hd|].
  assert (Hn : folder (snd (writeTable d n (with_rows t remaining) w)) d !! n
               = Some (with_rows t remaining)).
  { rewrite folder_writeTable. apply lookup_insert_eq. }
  split; [exact Hn|].
  split.
  { intros row. unfold remaining. rewrite filter_In, negb_true_iff. tauto. }
  split.
  { intros k Hk. rewrite folder_writeTable. apply lookup_insert_ne. congruence. }
  split.
  { intros d' Hne. now apply folder_writeTable_ne. }
  set (w' := snd (writeTable d n (with_rows t remaining) w)) in *.
  rewrite (delete_plain_run w' d n (with_rows t remaining) where_ Hd Hn).
  cbn [rows with_rows].
  assert (Hnone : List.filter (matches where_) remaining = []).
  { unfold remaining. rewrite filter_filter. apply filter_all_false.
    intros row. destruct (matches where_ row); reflexivity. }
  assert (Hall : List.filter (fun row => negb (matches where_ row)) remaining
                 = remaining).
  { unfold remaining at 1. rewrite filter_filter.
    apply filter_ext. intros row. destruct (matches where_ row); reflexivity. }
  rewrite Hnone, Hall, Nat.sub_diag.
  eexists. split; [reflexivity|].
  intros d'. destruct (decide (d = d')) as [<-|Hne].
  - rewrite folder_writeTable. apply insert_id.
    rewrite with_rows_twice. exact Hn.
  - now apply folder_writeTable_ne.
Qed.

(** X14. On conditions whose values are null, booleans, numbers or strings
    the [where] of [select] keeps exactly the rows that [update] and
    [delete] take as matching. *)
Theorem select_where_agrees_with_update_and_delete `{Runtime}
    (where_ : object) (rs : list object) :
  NoDup (keys where_) ->
  (forall k v, In (k, v) where_ -> structured v = false) ->
  db.where_stage (Some where_) rs = List.filter (matches where_) rs.
Proof.
  intros Hnd Hplain. unfold db.where_stage.
  apply filter_ext. intros row. now apply conditions_plain.
Qed.

(** ** The stages of select *)

Section StageFacts.
Context `{Runtime}.

Lemma set_NoDup {A} (k : string) (v : A) (o : list (string * A)) :
  NoDup (keys o) -> NoDup (keys (set k v o)).
Proof.
  induction o as [|[k' v'] rest IH]; cbn; intros Hnd.
  - apply NoDup_cons. split; [apply not_elem_of_nil | constructor].
  - apply NoDup_cons in Hnd as [Hk Hrest].
    destruct (String.eqb_spec k' k) as [->|Hne]; cbn.
    + apply NoDup_cons. now split.
    + apply NoDup_cons. split; [|now apply IH].
      rewrite list_elem_of_In in *. intros Hin. apply Hk.
      destruct (get rest k') eqn:Hg.
      * apply get_In in Hg. apply in_map_iff. now exists (k', a).
      * assert (Hg' : get (set k v rest) k' = None)
          by (rewrite get_set; destruct (String.eqb_spec k k'); congruence).
        apply get_None_keys in Hg'. contradiction.
Qed.

(** What the [forEach] of the field selection builds. *)
Lemma project_fold (row : object) (fs : list string) :
  forall acc f,
    get (fold_left
           (fun selected field =>
              match get row field with
              | Some v => set field v selected
              | None => selected
              end) fs acc) f
    = if in_dec string_dec f fs
      then match get row f with Some v => Some v | None => get acc f end
      else get acc f.
Proof.
  induction fs as [|g fs IH]; intros acc f; cbn [fold_left]; [reflexivity|].
  rewrite IH. destruct (in_dec string_dec f fs) as [Hin|Hout].
  - destruct (in_dec string_dec f (g :: fs)) as [_|Hno]; [|cbn in Hno; tauto].
    destruct (get row f) eqn:Hf; [reflexivity|].
    destruct (get row g) eqn:Hg; [|reflexivity].
    rewrite get_set. destruct (String.eqb_spec g f); congruence.
  - destruct (String.eqb_spec g f) as [->|Hne].
    + destruct (in_dec string_dec f (f :: fs)) as [_|Hno]; [|cbn in Hno; tauto].
      destruct (get row f) eqn:Hf; [|reflexivity]. apply get_set_eq.
    + destruct (in_dec string_dec f (g :: fs)) as [[?|?]|_]; [congruence|tauto|].
      destruct (get row g); [|reflexivity]. now apply get_set_ne.
Qed.

Lemma project_fold_NoDup (row : object) (fs : list string) :
  forall acc, NoDup (keys acc) ->
    NoDup (keys (fold_left
                   (fun selected field =>
                      match get row field with
                      | Some v => set field v selected
                      | None => selected
                      end) fs acc)).
Proof.
  induction fs as [|g fs IH]; intros acc Hnd; cbn [fold_left]; [assumption|].
  apply IH. destruct (get row g); [now apply set_NoDup | assumption].
Qed.

(** The selection reads the row only at the selected fields. *)
Lemma project_fold_ext (row row' : object) (fs : list string) :
  (forall f, In f fs -> get row' f = get row f) ->
  forall acc,
    fold_left
      (fun selected field =>
         match get row' field with
         | Some v => set field v selected
         | None => selected
         end) fs acc
    = fold_left
        (fun selected field =>
           match get row field with
           | Some v => set field v selected
           | None => selected
           end) fs acc.
Proof.
  induction fs as [|g fs IH]; intros Hsame acc; cbn [fold_left]; [reflexivity|].
  rewrite (Hsame g) by (now left). apply IH. intros f Hf. apply Hsame. now right.
Qed.

Lemma known_operator_dec (operator : string) :
  In operator ["$eq"; "$ne"; "$gt"; "$gte"; "$lt"; "$lte"; "$in"; "$nin";
               "$like"; "$regex"]
  \/ (String.eqb operator "$eq" = false /\ String.eqb operator "$ne" = false
      /\ String.eqb operator "$gt" = false /\ String.eqb operator "$gte" = false
      /\ String.eqb operator "$lt" = false /\ String.eqb operator "$lte" = false
      /\ String.eqb operator "$in" = false /\ String.eqb operator "$nin" = false
      /\ String.eqb operator "$like" = false
      /\ String.eqb operator "$regex" = false).
Proof.
  cbn [In].
  destruct (String.eqb_spec operator "$eq"); [auto|].
  destruct (String.eqb_spec operator "$ne"); [auto|].
  destruct (String.eqb_spec operator "$gt"); [auto|].
  destruct (String.eqb_spec operator "$gte"); [auto 6|].
  destruct (String.eqb_spec operator "$lt"); [auto 7|].
  destruct (String.eqb_spec operator "$lte"); [auto 8|].
  destruct (String.eqb_spec operator "$in"); [auto 9|].
  destruct (String.eqb_spec operator "$nin"); [auto 10|].
  destruct (String.eqb_spec operator "$like"); [auto 11|].
  destruct (String.eqb_spec operator "$regex"); [auto 12|].
  right. repeat split; reflexivity.
Qed.

End StageFacts.

(** X15. Conditions of [select] are taken together: filtering by the
    conditions [c1] and [c2] is filtering by [c1] and then by [c2].  In an
    operator object every operator must hold, so an object without
    operators keeps every row, and an operator that is none of [$eq],
    [$ne], [$gt], [$gte], [$lt], [$lte], [$in], [$nin], [$like], [$regex]
    rejects every row, whatever its value and the other operators.  An array
    as condition is [$in] with that array. *)
Theorem where_conditions `{Runtime} (row : object) (k : string) :
  (forall c1 c2 rs,
     db.where_stage (Some (c1 ++ c2)%list) rs
     = db.where_stage (Some c2) (db.where_stage (Some c1) rs))
  /\ db.condition_holds row k (JObj []) = true
  /\ (forall operators operator value,
        In (operator, value) operators ->
        ~ In operator ["$eq"; "$ne"; "$gt"; "$gte"; "$lt"; "$lte"; "$in";
                       "$nin"; "$like"; "$regex"] ->
        db.condition_holds row k (JObj operators) = false)
  /\ (forall items,
        db.condition_holds row k (JArr items)
        = db.condition_holds row k (JObj [("$in", JArr items)])).
Proof.
  split; [|split; [reflexivity|split]].
  - intros c1 c2 rs. unfold db.where_stage. rewrite filter_filter.
    apply filter_ext. intros r. apply forallb_app.
  - intros operators operator value Hin Hunknown.
    cbn [db.condition_holds]. apply not_true_is_false. intros Hall.
    rewrite forallb_forall in Hall. specialize (Hall _ Hin).
    cbn [fst snd] in Hall. unfold db.operator_holds in Hall.
    destruct (known_operator_dec operator)
      as [Hknown|(E1 & E2 & E3 & E4 & E5 & E6 & E7 & E8 & E9 & E10)];
      [contradiction|].
    rewrite E1, E2, E3, E4, E5, E6, E7, E8, E9, E10 in Hall.
    destruct (get row k) as [[]|]; discriminate.
  - intros items. cbn. now rewrite andb_true_r.
Qed.

(** X16. Pages tile the rows: with an offset that is not negative and
    positive limits, a page and the page that starts where it ends make up
    the page of both limits together; a page has at most [limit] rows, and
    no rows when the offset is at or past the end. *)
Theorem pages_tile `{Runtime} (rs : list object) (offset l1 l2 : Z) :
  0 <= offset -> 0 < l1 -> 0 < l2 ->
  (db.paginate (Some l1) (Some offset) rs
   ++ db.paginate (Some l2) (Some (offset + l1)) rs)%list
  = db.paginate (Some (l1 + l2)) (Some offset) rs
  /\ Z.of_nat (length (db.paginate (Some l1) (Some offset) rs)) <= l1
  /\ (Z.of_nat (length rs) <= offset ->
      db.paginate (Some l1) (Some offset) rs = []).
Proof.
  intros Ho H1 H2. rewrite !paginate_window by lia.
  split; [|split].
  - rewrite (Z2Nat.inj_add l1 l2), (Z2Nat.inj_add offset l1) by lia.
    rewrite (Nat.add_comm (Z.to_nat offset)), <- skipn_skipn.
    generalize (skipn (Z.to_nat offset) rs) as l.
    generalize (Z.to_nat l1) as a. generalize (Z.to_nat l2) as b.
    intros b a. induction a as [|a IH]; intros l.
    + reflexivity.
    + destruct l as [|x l]; cbn.
      * now rewrite firstn_nil.
      * f_equal. apply IH.
  - rewrite length_firstn. lia.
  - intros Hend. rewrite (skipn_all2 (n := Z.to_nat offset) rs) by lia.
    apply firstn_nil.
Qed.

(** X17. The field selection keeps the rows and their order; each row is
    replaced by one that has, of the selected fields, those the row has,
    with their values, and no other field; selecting the same fields again
    changes nothing. *)
Theorem project_selects `{Runtime} (fs : list string) (rs : list object) :
  length (db.project (Some fs) rs) = length rs
  /\ (forall i row, rs !! i = Some row ->
        exists selected,
          db.project (Some fs) rs !! i = Some selected
          /\ NoDup (keys selected)
          /\ (forall f, In f fs -> get selected f = get row f)
          /\ (forall f, ~ In f fs -> get selected f = None))
  /\ db.project (Some fs) (db.project (Some fs) rs) = db.project (Some fs) rs.
Proof.
  unfold db.project. split; [apply length_map|]. split.
  - intros i row Hi. eexists. split.
    { change (map ?f rs) with (f <$> rs). rewrite list_lookup_fmap, Hi.
      reflexivity. }
    split; [apply project_fold_NoDup; constructor|].
    split.
    + intros f Hf. rewrite project_fold.
      destruct (in_dec string_dec f fs); [|contradiction].
      destruct (get row f); reflexivity.
    + intros f Hf. rewrite project_fold.
      destruct (in_dec string_dec f fs); [contradiction|reflexivity].
  - rewrite map_map. apply map_ext. intros row.
    apply project_fold_ext. intros f Hf. rewrite project_fold.
    destruct (in_dec string_dec f fs); [|contradiction].
    destruct (get row f); reflexivity.
Qed.

(** ** What a validated row satisfies *)

Section ValidatedRows.
Context `{Runtime}.

Lemma no_violation_of_column (row : object) (sch : schema)
    (existingRows : list object) (c : string) (d : ColumnDefinition) :
  all_violations row sch existingRows = [] -> In (c, d) sch ->
  column_checks row existingRows c d = [].
Proof.
  unfold all_violations. intros Hnil Hin.
  apply app_eq_nil in Hnil as [Hcols _].
  destruct (column_checks row existingRows c d) as [|v vs] eqn:Hc; [reflexivity|].
  assert (Hv : In v (flat_map (fun cd => column_checks row existingRows (fst cd) (snd cd)) sch)).
  { apply in_flat_map. exists (c, d). split; [assumption|]. cbn [fst snd].
    rewrite Hc. now left. }
  rewrite Hcols in Hv. destruct Hv.
Qed.

Lemma no_undefined_field (row : object) (sch : schema)
    (existingRows : list object) (f : string) :
  all_violations row sch existingRows = [] -> In f (keys row) ->
  inherited f = false ->
  f = "id" \/ is_Some (get sch f).
Proof.
  unfold all_violations. intros Hnil Hin Hinh.
  apply app_eq_nil in Hnil as [_ Hextra].
  destruct (String.eqb_spec f "id") as [|Hid]; [now left|]. right.
  destruct (get sch f) eqn:Hsch; [eauto|]. exfalso.
  assert (Hv : In (UndefinedField f) (extra_fields row sch)).
  { unfold extra_fields. apply in_flat_map. exists f. split; [assumption|].
    rewrite Hsch, Hinh.
    rewrite bool_decide_eq_false_2 by (intros [x Hx]; discriminate).
    apply String.eqb_neq in Hid. rewrite Hid. now left. }
  rewrite Hextra in Hv. destruct Hv.
Qed.

End ValidatedRows.

(** X18. What a row that [validateRow] returns is known to satisfy.  Every
    field of the given row, unless its name is one that every object
    inherits, is [id] or a column.  A required column has a
    value in the given row, and not null: a declared default does not stand
    in for it.  A value that is given and not null passes the validator of
    the declared type, when there is one for it, is not below [min], not
    above [max], has a length that is not below [minLength] and not above
    [maxLength], and matches the pattern, when each is declared. *)
Theorem validated_row_satisfies_schema `{Runtime} (row validatedRow : object)
    (sch : schema) (existingRows : list object) (c : string)
    (d : ColumnDefinition) :
  SchemaValidator.validateRow row sch existingRows = Returned validatedRow ->
  In (c, d) sch ->
  (forall f, In f (keys row) -> inherited f = false ->
             f = "id" \/ is_Some (get sch f))
  /\ (required d = true -> exists v, get row c = Some v /\ v <> JNull)
  /\ (forall v, get row c = Some v -> v <> JNull ->
        (forall t test, type d = Some t -> type_validator t = Some test ->
                        test v = true)
        /\ (forall m, min d = Some m -> js_lt (Some v) (Some m) = false)
        /\ (forall m, max d = Some m -> js_gt (Some v) (Some m) = false)
        /\ (forall m, minLength d = Some m ->
              js_lt (Some (JNum (Z.of_nat (String.length (to_string v)))))
                    (Some m) = false)
        /\ (forall m, maxLength d = Some m ->
              js_gt (Some (JNum (Z.of_nat (String.length (to_string v)))))
                    (Some m) = false)
        /\ (forall p, pattern d = Some p -> p <> "" ->
              RegExp_test p (to_string v) = true)).
Proof.
  rewrite validateRow_unfold.
  destruct (all_violations row sch existingRows) as [|e es] eqn:Hnil;
    [|discriminate].
  intros _ Hin.
  pose proof (no_violation_of_column row sch existingRows c d Hnil Hin) as Hc.
  split; [intros f Hf Hinh;
          exact (no_undefined_field row sch existingRows f Hnil Hf Hinh)|].
  split.
  - intros Hreq. unfold column_checks in Hc. rewrite Hreq in Hc.
    destruct (get row c) as [v|] eqn:Hv; [|discriminate].
    exists v. split; [reflexivity|]. intros ->. discriminate.
  - intros v Hv Hnull.
    assert (Hn : nullish (Some v) = false) by (destruct v; [contradiction|reflexivity..]).
    rewrite (column_checks_value row existingRows c d v Hv Hn) in Hc.
    apply app_eq_nil in Hc as [Htype Hc]. apply app_eq_nil in Hc as [_ Hc].
    apply app_eq_nil in Hc as [Hmin Hc]. apply app_eq_nil in Hc as [Hmax Hc].
    apply app_eq_nil in Hc as [Hminl Hc]. apply app_eq_nil in Hc as [Hmaxl Hpat].
    split; [|split; [|split; [|split; [|split]]]].
    + intros t test Ht Htest. unfold check_type in Htype. rewrite Ht in Htype.
      destruct (String.eqb t "") eqn:Hempty.
      { apply String.eqb_eq in Hempty. rewrite Hempty in Htest.
        cbn in Htest. discriminate. }
      cbn [negb] in Htype. rewrite Htest in Htype.
      destruct (test v); [reflexivity|discriminate].
    + intros m Hm. unfold check_min in Hmin. rewrite Hm in Hmin.
      destruct (js_lt (Some v) (Some m)); [discriminate|reflexivity].
    + intros m Hm. unfold check_max in Hmax. rewrite Hm in Hmax.
      destruct (js_gt (Some v) (Some m)); [discriminate|reflexivity].
    + intros m Hm. unfold check_minLength in Hminl. rewrite Hm in Hminl.
      cbn zeta in Hminl.
      destruct (js_lt _ (Some m)); [discriminate|reflexivity].
    + intros m Hm. unfold check_maxLength in Hmaxl. rewrite Hm in Hmaxl.
      cbn zeta in Hmaxl.
      destruct (js_gt _ (Some m)); [discriminate|reflexivity].
    + intros p Hp Hne. unfold check_pattern in Hpat. rewrite Hp in Hpat.
      apply String.eqb_neq in Hne. rewrite Hne in Hpat. cbn [negb andb] in Hpat.
      destruct (RegExp_test p (to_string v)); [reflexivity|discriminate].
Qed.

(** ** Columns and migration *)

Section ColumnFacts.
Context `{Runtime}.

Lemma get_remove {A} (k f : string) (o : list (string * A)) :
  get (remove k o) f = if String.eqb k f then None else get o f.
Proof.
  induction o as [|[k' v'] rest IH]; cbn.
  - now destruct (String.eqb k f).
  - destruct (String.eqb_spec k' k) as [->|Hne].
    + rewrite IH. destruct (String.eqb_spec k f); reflexivity.
    + cbn. rewrite IH.
      destruct (String.eqb_spec k' f) as [->|]; [|reflexivity].
      destruct (String.eqb_spec k f); congruence.
Qed.

Lemma remove_absent {A} (k : string) (o : list (string * A)) :
  get o k = None -> remove k o = o.
Proof.
  induction o as [|[k' v'] rest IH]; cbn; [reflexivity|].
  destruct (String.eqb k' k); [discriminate|]. intros Hg. now rewrite IH.
Qed.

Lemma remove_set_fresh {A} (k : string) (v : A) (o : list (string * A)) :
  get o k = None -> remove k (set k v o) = o.
Proof.
  induction o as [|[k' v'] rest IH]; cbn.
  - now rewrite String.eqb_refl.
  - destruct (String.eqb k' k) eqn:Hk; [discriminate|]. intros Hg.
    cbn. rewrite Hk. now rewrite IH.
Qed.

Lemma get_written_with (k : string) (v : option json) (row : object)
    (f : string) :
  get (written_with k v row) f = if String.eqb k f then v else get row f.
Proof.
  destruct v as [value|]; cbn [written_with].
  - apply get_set.
  - rewrite get_remove. now destruct (String.eqb k f).
Qed.

Lemma remove_written_fresh (k : string) (v : option json) (row : object) :
  get row k = None -> remove k (written_with k v row) = row.
Proof.
  intros Hk. destruct v as [value|]; cbn [written_with].
  - now apply remove_set_fresh.
  - rewrite (remove_absent k row Hk). exact (remove_absent k row Hk).
Qed.

Lemma addColumn_unfold (w : World) (d n c : string) (t : Table)
    (definition : ColumnToAdd) :
  currentDbPath w = Some d -> folder w d !! n = Some t ->
  db.addColumn n c definition w
  = match get (columns t) c with
    | Some _ => (Thrown (ColumnExists c), w)
    | None =>
        writeTable d n
          (with_rows
             (with_columns t (set c (added_definition definition) (columns t)))
             (map (fun row => written_with c (fill_value definition) row)
                (rows t))) w
    end.
Proof.
  intros Hd Ht. unfold db.addColumn, bind at 1, read_currentDbPath. rewrite Hd.
  unfold bind, readTable. rewrite Ht.
  destruct (get (columns t) c); [reflexivity|].
  destruct definition as [ty|def|def generated]; try reflexivity.
  cbn [fill_value added_definition]. now destruct (default def).
Qed.

Lemma removeColumn_unfold (w : World) (d n c : string) (t : Table) :
  currentDbPath w = Some d -> folder w d !! n = Some t ->
  db.removeColumn n c w
  = match get (columns t) c with
    | None => (Thrown (ColumnMissing c), w)
    | Some _ =>
        writeTable d n
          (with_rows (with_columns t (remove c (columns t)))
             (map (fun row => remove c row) (rows t))) w
    end.
Proof.
  intros Hd Ht. unfold db.removeColumn, bind at 1, read_currentDbPath. rewrite Hd.
  unfold bind, readTable. rewrite Ht.
  destruct (get (columns t) c); reflexivity.
Qed.

Lemma migrate_unfold (w : World) (d n : string) (t : Table)
    (migrationFn : object -> nat -> list object -> option object) :
  currentDbPath w = Some d -> folder w d !! n = Some t ->
  db.migrate n migrationFn w
  = writeTable d n
      (with_rows t
         (imap (fun index row =>
                  match migrationFn row index (rows t) with
                  | Some migrated => migrated
                  | None => row
                  end) (rows t))) w.
Proof.
  intros Hd Ht. unfold db.migrate, bind at 1, read_currentDbPath. rewrite Hd.
  unfold bind at 1, existsSync. rewrite Ht.
  rewrite bool_decide_eq_true_2 by eauto. cbn [negb].
  unfold bind, readTable. now rewrite Ht.
Qed.

Lemma writeTable_same (w : World) (d n : string) (t : Table) :
  folder w d !! n = Some t ->
  forall d', folder (snd (writeTable d n t w)) d' = folder w d'.
Proof.
  intros Ht d'. destruct (decide (d = d')) as [<-|Hne].
  - rewrite folder_writeTable. now apply insert_id.
  - now apply folder_writeTable_ne.
Qed.

End ColumnFacts.

(** The world and the table after the write the goal ends with. *)
Ltac written :=
  match goal with
  | |- context [writeTable ?d ?n ?T ?w0] =>
      exists (snd (writeTable d n T w0)), T
  end.

(** X19. [addColumn] on a table that exists: a column of that name makes it
    fail and change nothing.  Otherwise the definition is stored under the
    name, a type name as a definition of that type and a definition whose
    default is a function without that default, the other columns staying.
    Every row there is gets, under the name, the default of the definition,
    null when it has none or is a type name, and, when the default is a
    function, what the function returns, called once for all rows; this
    replaces what the row held there, and a function that returns
    [undefined] leaves the rows without the field.  The rows keep their
    other fields, their number and their order, and no other table is
    touched. *)
Theorem addColumn_adds (w : World) (d n c : string) (t : Table)
    (definition : ColumnToAdd) :
  currentDbPath w = Some d -> folder w d !! n = Some t ->
  (is_Some (get (columns t) c) ->
   db.addColumn n c definition w = (Thrown (ColumnExists c), w))
  /\ (get (columns t) c = None ->
      exists w' t' stored value,
        db.addColumn n c definition w = (Returned tt, w')
        /\ folder w' d !! n = Some t'
        /\ get (columns t') c = Some stored
        /\ match definition with
           | OfType ty => stored = column_of_type ty /\ value = Some JNull
           | OfDefinition def =>
               stored = def
               /\ value = Some match default def with
                               | Some v => v
                               | None => JNull
                               end
           | OfGenerator def generated =>
               stored = without_default def /\ default stored = None
               /\ value = generated
           end
        /\ (forall c', c' <> c -> get (columns t') c' = get (columns t) c')
        /\ length (rows t') = length (rows t)
        /\ (forall i row, rows t !! i = Some row ->
              exists row',
                rows t' !! i = Some row'
                /\ get row' c = value
                /\ forall f, f <> c -> get row' f = get row f)
        /\ indexes t' = indexes t /\ options t' = options t
        /\ (forall k, k <> n -> folder w' d !! k = folder w d !! k)).
Proof.
  intros Hd Ht. rewrite (addColumn_unfold w d n c t definition Hd Ht).
  split.
  - intros [x Hx]. now rewrite Hx.
  - intros Hc. rewrite Hc.
    match goal with
    | |- context [writeTable d n ?T ?w0] =>
        exists (snd (writeTable d n T w0)), T,
               (added_definition definition), (fill_value definition)
    end.
    split; [reflexivity|].
    split; [rewrite folder_writeTable; apply lookup_insert_eq|].
    cbn [columns rows indexes options with_rows with_columns].
    split; [apply get_set_eq|].
    split; [destruct definition; cbn; auto|].
    split; [intros c' Hne; apply get_set_ne; congruence|].
    split; [apply length_map|].
    split.
    { intros i row Hi. eexists. split.
      - change (map ?f (rows t)) with (f <$> rows t).
        rewrite list_lookup_fmap, Hi. reflexivity.
      - split; [rewrite get_written_with; now rewrite String.eqb_refl|].
        intros f Hne. rewrite get_written_with.
        destruct (String.eqb_spec c f); congruence. }
    split; [reflexivity|]. split; [reflexivity|].
    intros k Hk. rewrite folder_writeTable. apply lookup_insert_ne. congruence.
Qed.

(** X20. [removeColumn] on a table that exists: without a column of that
    name it fails and changes nothing.  Otherwise the column is gone and the
    others stay; every row loses the field and keeps its other fields; the
    rows keep their number and order, and no other table is touched. *)
Theorem removeColumn_removes (w : World) (d n c : string)
    (t : Table) :
  currentDbPath w = Some d -> folder w d !! n = Some t ->
  (get (columns t) c = None ->
   db.removeColumn n c w = (Thrown (ColumnMissing c), w))
  /\ (is_Some (get (columns t) c) ->
      exists w' t',
        db.removeColumn n c w = (Returned tt, w')
        /\ folder w' d !! n = Some t'
        /\ get (columns t') c = None
        /\ (forall c', c' <> c -> get (columns t') c' = get (columns t) c')
        /\ length (rows t') = length (rows t)
        /\ (forall i row, rows t !! i = Some row ->
              exists row',
                rows t' !! i = Some row'
                /\ get row' c = None
                /\ forall f, f <> c -> get row' f = get row f)
        /\ indexes t' = indexes t /\ options t' = options t
        /\ (forall k, k <> n -> folder w' d !! k = folder w d !! k)).
Proof.
  intros Hd Ht. rewrite (removeColumn_unfold w d n c t Hd Ht).
  split.
  - intros Hc. now rewrite Hc.
  - intros [x Hx]. rewrite Hx. written. split; [reflexivity|].
    split; [rewrite folder_writeTable; apply lookup_insert_eq|].
    cbn [columns rows indexes options with_rows with_columns].
    split; [rewrite get_remove; now rewrite String.eqb_refl|].
    split.
    { intros c' Hne. rewrite get_remove.
      destruct (String.eqb_spec c c'); congruence. }
    split; [apply length_map|].
    split.
    { intros i row Hi. eexists. split.
      - change (map ?f (rows t)) with (f <$> rows t).
        rewrite list_lookup_fmap, Hi. reflexivity.
      - split; [rewrite get_remove; now rewrite String.eqb_refl|].
        intros f Hne. rewrite get_remove.
        destruct (String.eqb_spec c f); congruence. }
    split; [reflexivity|]. split; [reflexivity|].
    intros k Hk. rewrite folder_writeTable. apply lookup_insert_ne. congruence.
Qed.

(** X21. Adding a column and removing it again gives back the table as it
    was, rows included, when no row held a field of that name; every table
    is then as before. *)
Theorem addColumn_then_removeColumn (w : World) (d n c : string)
    (t : Table) (definition : ColumnToAdd) :
  currentDbPath w = Some d -> folder w d !! n = Some t ->
  get (columns t) c = None ->
  (forall row, In row (rows t) -> get row c = None) ->
  exists w1 w2,
    db.addColumn n c definition w = (Returned tt, w1)
    /\ db.removeColumn n c w1 = (Returned tt, w2)
    /\ forall d', folder w2 d' = folder w d'.
Proof.
  intros Hd Ht Hc Hrows.
  rewrite (addColumn_unfold w d n c t definition Hd Ht), Hc.
  set (t1 := with_rows _ _).
  set (w1 := snd (writeTable d n t1 w)).
  exists w1, (snd (writeTable d n t w1)). split; [reflexivity|].
  assert (Ht1 : folder w1 d !! n = Some t1).
  { unfold w1. rewrite folder_writeTable. apply lookup_insert_eq. }
  assert (Hback : with_rows (with_columns t1 (remove c (columns t1)))
                    (map (fun row => remove c row) (rows t1)) = t).
  { unfold t1, with_rows, with_columns.
    cbn [name createdAt columns relationships rows indexes options].
    rewrite remove_set_fresh by assumption. rewrite map_map.
    rewrite (map_ext_in
               (fun row => remove c (written_with c (fill_value definition) row))
               (fun row => row))
      by (intros row Hrow; apply remove_written_fresh; now apply Hrows).
    rewrite map_id. now destruct t. }
  split.
  - rewrite (removeColumn_unfold w1 d n c t1 Hd Ht1).
    replace (get (columns t1) c) with (Some (added_definition definition))
      by (symmetry; apply get_set_eq).
    now rewrite Hback.
  - intros d'. destruct (decide (d = d')) as [<-|Hne].
    + unfold w1. rewrite !folder_writeTable. rewrite insert_insert_eq.
      now apply insert_id.
    + unfold w1. now rewrite !folder_writeTable_ne by assumption.
Qed.

(** X22. [migrate] on a table that exists always returns, for a migration
    function that leaves its arguments as they are.  Each row is replaced
    by what the function gives for it, and kept when the function throws;
    the function is given the row, its position and the rows as they were
    before the migration.  The rows keep their number and order,
    the table its columns, indexes and options, without the new rows being
    validated; no other table is touched, and a migration that returns each
    row as it is leaves every table as it was. *)
Theorem migrate_maps_rows (w : World) (d n : string) (t : Table)
    (migrationFn : object -> nat -> list object -> option object) :
  currentDbPath w = Some d -> folder w d !! n = Some t ->
  exists w' t',
    db.migrate n migrationFn w = (Returned tt, w')
    /\ folder w' d !! n = Some t'
    /\ t' = with_rows t (rows t')
    /\ length (rows t') = length (rows t)
    /\ (forall i row, rows t !! i = Some row ->
          rows t' !! i
          = Some match migrationFn row i (rows t) with
                 | Some migrated => migrated
                 | None => row
                 end)
    /\ (forall k, k <> n -> folder w' d !! k = folder w d !! k)
    /\ ((forall i row, rows t !! i = Some row ->
           migrationFn row i (rows t) = Some row
           \/ migrationFn row i (rows t) = None) ->
        forall d', folder w' d' = folder w d').
Proof.
  intros Hd Ht. rewrite (migrate_unfold w d n t migrationFn Hd Ht).
  written. split; [reflexivity|].
  split; [rewrite folder_writeTable; apply lookup_insert_eq|].
  cbn [rows with_rows].
  split; [reflexivity|]. split; [apply length_imap|].
  split.
  { intros i row Hi. rewrite list_lookup_imap, Hi. reflexivity. }
  split.
  { intros k Hk. rewrite folder_writeTable. apply lookup_insert_ne. congruence. }
  intros Hsame.
  assert (Hid : imap (fun index row =>
                        match migrationFn row index (rows t) with
                        | Some migrated => migrated
                        | None => row
                        end) (rows t) = rows t).
  { apply list_eq. intros i. rewrite list_lookup_imap.
    destruct (rows t !! i) as [row|] eqn:Hi; [|reflexivity]. cbn.
    destruct (Hsame i row Hi) as [-> | ->]; reflexivity. }
  rewrite Hid, with_rows_same. now apply writeTable_same.
Qed.

(** ** Indexes and sorting *)

Section IndexFacts.
Context `{Runtime}.




End IndexFacts.


(** X24. The comparison [select] sorts with.  Any direction other than
    ['asc'] gives the opposite of the ascending order.  Ascending, two
    numbers compare as numbers, and a row whose value is missing or null
    comes before a row that has one.  A row without the field and a row
    holding null under it each come before the other. *)
Theorem compare_rows_orders `{Runtime} (field : string) (a b : object) :
  (forall direction, direction <> "asc" ->
     db.compare_rows field direction a b = - db.compare_rows field "asc" a b)
  /\ (forall x y, get a field = Some (JNum x) -> get b field = Some (JNum y) ->
        db.compare_rows field "asc" a b
        = match x ?= y with Eq => 0 | Lt => -1 | Gt => 1 end)
  /\ (nullish (get a field) = true -> nullish (get b field) = false ->
      db.compare_rows field "asc" a b = -1
      /\ db.compare_rows field "asc" b a = 1)
  /\ (get a field = None -> get b field = Some JNull ->
      db.compare_rows field "asc" a b = -1
      /\ db.compare_rows field "asc" b a = -1).
Proof.
  split; [|split; [|split]].
  - intros direction Hdir. unfold db.compare_rows.
    apply String.eqb_neq in Hdir. rewrite Hdir. cbn [String.eqb Ascii.eqb Bool.eqb].
    replace (String.eqb "asc" "asc") with true by reflexivity.
    destruct (strict_eq _ _); [reflexivity|].
    destruct (nullish (get a field)); [reflexivity|].
    destruct (nullish (get b field)); [reflexivity|].
    destruct (js_lt _ _); reflexivity.
  - intros x y Ha Hb. unfold db.compare_rows. rewrite Ha, Hb.
    replace (String.eqb "asc" "asc") with true by reflexivity.
    cbn [strict_eq nullish]. unfold js_lt. cbn [to_primitive Number].
    rewrite number_lt_of_Z.
    destruct (Z.compare_spec x y) as [->|Hlt|Hgt].
    + now rewrite Z.eqb_refl.
    + assert (E : (x =? y) = false) by lia. rewrite E.
      assert (L : (x <? y) = true) by lia. now rewrite L.
    + assert (E : (x =? y) = false) by lia. rewrite E.
      assert (L : (x <? y) = false) by lia. now rewrite L.
  - intros Ha Hb. unfold db.compare_rows.
    replace (String.eqb "asc" "asc") with true by reflexivity.
    rewrite Ha, Hb.
    assert (E1 : strict_eq (get a field) (get b field) = false)
      by (destruct (get a field) as [[]|], (get b field) as [[]|];
          try discriminate; reflexivity).
    assert (E2 : strict_eq (get b field) (get a field) = false)
      by (destruct (get a field) as [[]|], (get b field) as [[]|];
          try discriminate; reflexivity).
    now rewrite E1, E2.
  - intros Ha Hb. unfold db.compare_rows. rewrite Ha, Hb. split; reflexivity.
Qed.

(** ** The validate command *)

Section ValidateFacts.
Context `{Runtime}.

(** The type check of the command is the negation of the validator of the
    engine, for the types the command knows. *)
Lemma type_error_validator (t : string) (value : json) :
  cli.type_error t value
  = match type_validator t with
    | Some test =>
        if String.eqb t "timestamp" || String.eqb t "date" || String.eqb t "json"
        then false else negb (test value)
    | None => false
    end.
Proof.
  unfold cli.type_error, type_validator.
  destruct (String.eqb_spec t "text") as [->|N1]; [reflexivity|].
  destruct (String.eqb_spec t "string") as [->|N2]; [reflexivity|].
  destruct (String.eqb_spec t "int") as [->|N3]; [reflexivity|].
  destruct (String.eqb_spec t "integer") as [->|N4]; [reflexivity|].
  destruct (String.eqb_spec t "float") as [->|N5]; [reflexivity|].
  destruct (String.eqb_spec t "number") as [->|N6]; [reflexivity|].
  destruct (String.eqb_spec t "boolean") as [->|N7];
    [cbn; rewrite ?orb_false_r, ?negb_orb; reflexivity|].
  destruct (String.eqb_spec t "uuid") as [->|N8]; [reflexivity|].
  cbn [orb].
  destruct (String.eqb_spec t "timestamp") as [->|N9]; [reflexivity|].
  destruct (String.eqb_spec t "date") as [->|N10]; [reflexivity|].
  destruct (String.eqb_spec t "json") as [->|N11]; reflexivity.
Qed.

Lemma fold_zero {A B} (proj : B -> nat) (step : B -> A -> B) (P : A -> Prop) :
  (forall acc x, proj (step acc x) = 0%nat -> proj acc = 0%nat /\ P x) ->
  forall l acc,
    proj (fold_left step l acc) = 0%nat ->
    proj acc = 0%nat /\ forall x, In x l -> P x.
Proof.
  intros Hstep. induction l as [|x l IH]; intros acc Hzero; cbn in *.
  - split; [assumption | intros x []].
  - destruct (IH _ Hzero) as [Hacc Hrest].
    destruct (Hstep _ _ Hacc) as [Hacc0 Hx].
    split; [assumption|]. intros y [<-|Hy]; auto.
Qed.

Lemma duplicates_none (a : list json) (v : json) (b : list json) :
  forall seen,
    cli.duplicates seen (a ++ v :: b) = [] ->
    includes (map Some (seen ++ a)) (Some v) = false.
Proof.
  induction a as [|x a IH]; intros seen Hnone; cbn in Hnone.
  - rewrite app_nil_r. destruct (includes _ _); [discriminate | reflexivity].
  - destruct (includes (map Some seen) (Some x)); [discriminate|].
    specialize (IH _ Hnone). now rewrite <- app_assoc in IH.
Qed.

Lemma column_values_app (rs1 rs2 : list object) (c : string) :
  cli.column_values (rs1 ++ rs2) c
  = (cli.column_values rs1 c ++ cli.column_values rs2 c)%list.
Proof. unfold cli.column_values. apply omap_app. Qed.

Lemma length_zero_filter {A} (p : A -> bool) (l : list A) :
  (0 <? length (List.filter p l))%nat = false ->
  forall x, In x l -> p x = false.
Proof.
  intros Hlen x Hx. destruct (p x) eqn:Hp; [|reflexivity].
  assert (Hin : In x (List.filter p l)) by (apply filter_In; auto).
  destruct (List.filter p l); [destruct Hin | discriminate].
Qed.

(** What a column that adds no error is known to satisfy. *)
Lemma column_without_error (rs : list object) (counters : nat * nat)
    (c : string) (d : ColumnDefinition) :
  fst (cli.column_step rs counters (c, d)) = 0%nat ->
  fst counters = 0%nat
  /\ (required d = true ->
      forall row, In row rs -> nullish (get row c) = false)
  /\ (unique d = true ->
      forall pre r1 mid r2 post v1 v2,
        rs = (pre ++ r1 :: mid ++ r2 :: post)%list ->
        get r1 c = Some v1 -> get r2 c = Some v2 ->
        strict_eq (Some v1) (Some v2) = false).
Proof.
  unfold cli.column_step. cbn [fst snd].
  destruct (cli.required_missing rs c d) eqn:Hreq; [discriminate|].
  destruct (cli.unique_violated rs c d) eqn:Huniq; [discriminate|].
  intros Hzero. split; [assumption|]. split.
  - intros Hr. unfold cli.required_missing in Hreq. rewrite Hr in Hreq.
    cbn [andb] in Hreq. exact (length_zero_filter _ rs Hreq).
  - intros Hu pre r1 mid r2 post v1 v2 -> Hv1 Hv2.
    unfold cli.unique_violated in Huniq. rewrite Hu in Huniq. cbn [andb] in Huniq.
    assert (Hnone : cli.duplicates [] (cli.column_values
                      (pre ++ r1 :: mid ++ r2 :: post) c) = []).
    { destruct (cli.duplicates _ _); [reflexivity | discriminate]. }
    change (pre ++ r1 :: mid ++ r2 :: post)%list
      with (pre ++ (r1 :: mid) ++ r2 :: post)%list in Hnone.
    rewrite app_assoc, column_values_app in Hnone.
    assert (Hr2 : cli.column_values (r2 :: post) c
                  = v2 :: cli.column_values post c).
    { unfold cli.column_values. cbn. now rewrite Hv2. }
    rewrite Hr2 in Hnone. apply duplicates_none in Hnone.
    cbn [app] in Hnone. rewrite column_values_app in Hnone.
    assert (Hr1 : cli.column_values (r1 :: mid) c
                  = v1 :: cli.column_values mid c).
    { unfold cli.column_values. cbn. now rewrite Hv1. }
    rewrite Hr1 in Hnone. unfold includes in Hnone.
    rewrite map_app, existsb_app in Hnone. cbn [map existsb] in Hnone.
    apply orb_false_elim in Hnone as [_ Hnone].
    apply orb_false_elim in Hnone as [Hnone _]. exact Hnone.
Qed.

Lemma column_without_warning (rs : list object) (counters : nat * nat)
    (c : string) (d : ColumnDefinition) :
  snd (cli.column_step rs counters (c, d)) = 0%nat ->
  snd counters = 0%nat
  /\ (forall t test row v,
        type d = Some t -> type_validator t = Some test ->
        ~ In t ["timestamp"; "date"; "json"] ->
        In row rs -> get row c = Some v -> v <> JNull ->
        test v = true).
Proof.
  unfold cli.column_step. cbn [fst snd].
  destruct (cli.type_mismatch rs c d) eqn:Htype; [discriminate|].
  intros Hzero. split; [assumption|].
  intros t test row v Ht Htest Hknown Hrow Hv Hnull.
  unfold cli.type_mismatch in Htype. rewrite Ht in Htype.
  destruct (String.eqb t "") eqn:Hempty.
  { apply String.eqb_eq in Hempty. rewrite Hempty in Htest. discriminate Htest. }
  cbn [negb andb] in Htype.
  pose proof (length_zero_filter _ rs Htype row Hrow) as Hfine.
  cbn beta in Hfine. rewrite Hv in Hfine.
  replace (nullish (Some v)) with false in Hfine
    by (destruct v; [contradiction|reflexivity..]).
  rewrite type_error_validator, Htest in Hfine.
  destruct (String.eqb_spec t "timestamp") as [E|];
    [exfalso; apply Hknown; rewrite E; cbn; tauto|].
  destruct (String.eqb_spec t "date") as [E|];
    [exfalso; apply Hknown; rewrite E; cbn; tauto|].
  destruct (String.eqb_spec t "json") as [E|];
    [exfalso; apply Hknown; rewrite E; cbn; tauto|].
  cbn [orb] in Hfine. now destruct (test v).
Qed.

(** What a relationship that adds no error is known to satisfy. *)
Lemma relationship_without_error (tables : gmap string Table)
    (rs : list object) (counters : nat * nat) (f : string) (rel : Relationship) :
  fst (cli.relationship_step tables rs counters (f, rel)) = 0%nat ->
  fst counters = 0%nat
  /\ exists ft,
       tables !! foreignTable rel = Some ft
       /\ forall row v, In row rs -> get row f = Some v -> v <> JNull ->
            exists r, In r (rows ft)
                      /\ strict_eq (get r (foreignKey rel)) (Some v) = true.
Proof.
  unfold cli.relationship_step. cbn [fst snd].
  destruct (cli.foreign_key_violated tables rs f rel) eqn:Hfk; [discriminate|].
  intros Hzero. split; [assumption|].
  unfold cli.foreign_key_violated in Hfk.
  destruct (tables !! foreignTable rel) as [ft|]; [|discriminate].
  exists ft. split; [reflexivity|].
  intros row v Hrow Hv Hnull. cbn zeta in Hfk.
  assert (Hin : In (Some v)
                  (List.filter (fun value => negb (nullish value))
                     (map (fun row => get row f) rs))).
  { apply filter_In. split.
    - apply in_map_iff. exists row. auto.
    - destruct v; [contradiction|reflexivity..]. }
  pose proof (length_zero_filter _ _ Hfk (Some v) Hin) as Hfound.
  apply negb_false_iff in Hfound. unfold includes in Hfound.
  apply existsb_exists in Hfound as (x & Hx & Heq).
  apply in_map_iff in Hx as (r & <- & Hr). eauto.
Qed.

Lemma relationship_step_warnings (tables : gmap string Table)
    (rs : list object) (rels : list (string * Relationship)) :
  forall counters,
    snd (fold_left (cli.relationship_step tables rs) rels counters)
    = snd counters.
Proof.
  induction rels as [|fr rels IH]; intros counters; [reflexivity|].
  cbn [fold_left]. now rewrite IH.
Qed.

(** What a table that adds no error is known to satisfy. *)
Lemma table_without_error (tables : gmap string Table) (counters : nat * nat)
    (t : Table) :
  fst (cli.validate_table tables counters t) = 0%nat ->
  fst counters = 0%nat
  /\ (forall c d, In (c, d) (columns t) ->
        (required d = true ->
         forall row, In row (rows t) -> nullish (get row c) = false)
        /\ (unique d = true ->
            forall pre r1 mid r2 post v1 v2,
              rows t = (pre ++ r1 :: mid ++ r2 :: post)%list ->
              get r1 c = Some v1 -> get r2 c = Some v2 ->
              strict_eq (Some v1) (Some v2) = false))
  /\ (forall f rel, In (f, rel) (relationships t) ->
        exists ft,
          tables !! foreignTable rel = Some ft
          /\ forall row v, In row (rows t) -> get row f = Some v -> v <> JNull ->
               exists r, In r (rows ft)
                         /\ strict_eq (get r (foreignKey rel)) (Some v) = true).
Proof.
  unfold cli.validate_table. intros Hzero.
  apply (fold_zero fst (cli.relationship_step tables (rows t))
           (fun fr => exists ft,
              tables !! foreignTable (snd fr) = Some ft
              /\ forall row v, In row (rows t) -> get row (fst fr) = Some v ->
                   v <> JNull ->
                   exists r, In r (rows ft)
                             /\ strict_eq (get r (foreignKey (snd fr))) (Some v)
                                = true)) in Hzero.
  2:{ intros acc [f rel]. apply relationship_without_error. }
  destruct Hzero as [Hcols Hrels].
  apply (fold_zero fst (cli.column_step (rows t))
           (fun cd =>
              (required (snd cd) = true ->
               forall row, In row (rows t) -> nullish (get row (fst cd)) = false)
              /\ (unique (snd cd) = true ->
                  forall pre r1 mid r2 post v1 v2,
                    rows t = (pre ++ r1 :: mid ++ r2 :: post)%list ->
                    get r1 (fst cd) = Some v1 -> get r2 (fst cd) = Some v2 ->
                    strict_eq (Some v1) (Some v2) = false))) in Hcols.
  2:{ intros acc [c d]. apply column_without_error. }
  destruct Hcols as [Hacc Hcols].
  split; [assumption|]. split.
  - intros c d Hin. exact (Hcols (c, d) Hin).
  - intros f rel Hin. exact (Hrels (f, rel) Hin).
Qed.

Lemma table_without_warning (tables : gmap string Table) (counters : nat * nat)
    (t : Table) :
  snd (cli.validate_table tables counters t) = 0%nat ->
  snd counters = 0%nat
  /\ (forall c d ty test row v,
        In (c, d) (columns t) -> type d = Some ty ->
        type_validator ty = Some test ->
        ~ In ty ["timestamp"; "date"; "json"] ->
        In row (rows t) -> get row c = Some v -> v <> JNull ->
        test v = true).
Proof.
  unfold cli.validate_table. rewrite relationship_step_warnings. intros Hzero.
  apply (fold_zero snd (cli.column_step (rows t))
           (fun cd =>
              forall ty test row v,
                type (snd cd) = Some ty -> type_validator ty = Some test ->
                ~ In ty ["timestamp"; "date"; "json"] ->
                In row (rows t) -> get row (fst cd) = Some v -> v <> JNull ->
                test v = true)) in Hzero.
  2:{ intros acc [c d]. apply column_without_warning. }
  destruct Hzero as [Hacc Hcols]. split; [assumption|].
  intros c d ty test row v Hin. exact (Hcols (c, d) Hin ty test row v).
Qed.

End ValidateFacts.

(** X25. The type check of the [validate] command agrees with the type
    validators of the engine: for a value that is not null, under a type
    other than [timestamp], [date] and [json], the command counts a type
    error exactly when [validateRow] reports a type mismatch; under those
    three types, and under a type the engine has no validator for, the
    command counts none. *)
Theorem validate_type_check_agrees `{Runtime} (c t : string)
    (d : ColumnDefinition) (v : json) :
  type d = Some t ->
  (~ In t ["timestamp"; "date"; "json"] ->
   cli.type_error t v = negb (bool_decide (check_type c d v = [])))
  /\ (In t ["timestamp"; "date"; "json"] \/ type_validator t = None ->
      cli.type_error t v = false).
Proof.
  intros Ht. rewrite type_error_validator. unfold check_type. rewrite Ht.
  split.
  - intros Hknown.
    destruct (String.eqb_spec t "timestamp") as [E|];
      [exfalso; apply Hknown; rewrite E; cbn; tauto|].
    destruct (String.eqb_spec t "date") as [E|];
      [exfalso; apply Hknown; rewrite E; cbn; tauto|].
    destruct (String.eqb_spec t "json") as [E|];
      [exfalso; apply Hknown; rewrite E; cbn; tauto|].
    cbn [orb].
    destruct (String.eqb t "") eqn:Hempty.
    { apply String.eqb_eq in Hempty. rewrite Hempty. reflexivity. }
    cbn [negb].
    destruct (type_validator t) as [test|]; [|reflexivity].
    destruct (test v); reflexivity.
  - intros [Hin | Hnone].
    + cbn in Hin. destruct Hin as [E|[E|[E|[]]]]; rewrite <- E; reflexivity.
    + now rewrite Hnone.
Qed.

(** X26. What a run of [validate] that counts no error establishes, for
    every table of the default database: no row has null or nothing under a
    required column; no two rows hold strictly equal values under a unique
    column; the foreign table of every relationship exists, and every
    reference that is not null is the foreign key of one of its rows.  When
    it counts no warning either, every value that is not null under a column
    of a type other than [timestamp], [date] and [json] passes the validator
    the engine has for that type. *)
Theorem validate_clean `{Runtime} (files : gmap string (gmap string Table))
    (defaultDatabase : string) (tables : gmap string Table)
    (warnings : nat) (n : string) (t : Table) :
  cli.validate files defaultDatabase = Some (0%nat, warnings) ->
  files !! defaultDatabase = Some tables -> tables !! n = Some t ->
  (forall c d, In (c, d) (columns t) -> required d = true ->
     forall row, In row (rows t) -> nullish (get row c) = false)
  /\ (forall c d, In (c, d) (columns t) -> unique d = true ->
        forall pre r1 mid r2 post v1 v2,
          rows t = (pre ++ r1 :: mid ++ r2 :: post)%list ->
          get r1 c = Some v1 -> get r2 c = Some v2 ->
          strict_eq (Some v1) (Some v2) = false)
  /\ (forall f rel, In (f, rel) (relationships t) ->
        exists ft,
          tables !! foreignTable rel = Some ft
          /\ forall row v, In row (rows t) -> get row f = Some v -> v <> JNull ->
               exists r, In r (rows ft)
                         /\ strict_eq (get r (foreignKey rel)) (Some v) = true)
  /\ (warnings = 0%nat ->
      forall c d ty test row v,
        In (c, d) (columns t) -> type d = Some ty ->
        type_validator ty = Some test ->
        ~ In ty ["timestamp"; "date"; "json"] ->
        In row (rows t) -> get row c = Some v -> v <> JNull ->
        test v = true).
Proof.
  unfold cli.validate. intros Hrun Htables Ht. rewrite Htables in Hrun.
  injection Hrun as Hrun.
  assert (Hin : In t (snd <$> map_to_list tables)).
  { apply list_elem_of_In, list_elem_of_fmap. exists (n, t).
    split; [reflexivity|]. now apply elem_of_map_to_list. }
  assert (Herrors : fst (fold_left (cli.validate_table tables)
                           (snd <$> map_to_list tables) (0%nat, 0%nat)) = 0%nat)
    by now rewrite Hrun.
  assert (Hwarnings : snd (fold_left (cli.validate_table tables)
                             (snd <$> map_to_list tables) (0%nat, 0%nat))
                      = warnings)
    by now rewrite Hrun.
  apply (fold_zero fst (cli.validate_table tables)
           (fun t0 =>
              (forall c d, In (c, d) (columns t0) ->
                 (required d = true ->
                  forall row, In row (rows t0) -> nullish (get row c) = false)
                 /\ (unique d = true ->
                     forall pre r1 mid r2 post v1 v2,
                       rows t0 = (pre ++ r1 :: mid ++ r2 :: post)%list ->
                       get r1 c = Some v1 -> get r2 c = Some v2 ->
                       strict_eq (Some v1) (Some v2) = false))
              /\ (forall f rel, In (f, rel) (relationships t0) ->
                    exists ft,
                      tables !! foreignTable rel = Some ft
                      /\ forall row v, In row (rows t0) -> get row f = Some v ->
                           v <> JNull ->
                           exists r, In r (rows ft)
                                     /\ strict_eq (get r (foreignKey rel)) (Some v)
                                        = true)))
    in Herrors.
  2:{ intros acc t0. apply table_without_error. }
  destruct Herrors as [_ Hall].
  destruct (Hall t Hin) as (Hcols & Hrels).
  split; [intros c d Hcd; now apply (Hcols c d Hcd)|].
  split; [intros c d Hcd; now apply (Hcols c d Hcd)|].
  split; [exact Hrels|].
  intros Hzero. rewrite Hzero in Hwarnings.
  apply (fold_zero snd (cli.validate_table tables)
           (fun t0 =>
              forall c d ty test row v,
                In (c, d) (columns t0) -> type d = Some ty ->
                type_validator ty = Some test ->
                ~ In ty ["timestamp"; "date"; "json"] ->
                In row (rows t0) -> get row c = Some v -> v <> JNull ->
                test v = true)) in Hwarnings.
  2:{ intros acc t0. apply table_without_warning. }
  destruct Hwarnings as [_ Hfine]. exact (Hfine t Hin).
Qed.

(** X27. The command and the engine disagree on null under a unique column:
    [validateRow] does not check a null value for uniqueness, so it accepts
    any number of rows with null under a unique column that is not
    required, while [validate] counts an error for a table in which two rows
    hold null under a unique column. *)
Theorem validate_counts_null_duplicates `{Runtime}
    (tables : gmap string Table) (t : Table) (c : string)
    (d : ColumnDefinition) (pre mid post : list object) (r1 r2 : object) :
  In (c, d) (columns t) -> unique d = true ->
  rows t = (pre ++ r1 :: mid ++ r2 :: post)%list ->
  get r1 c = Some JNull -> get r2 c = Some JNull ->
  fst (cli.validate_table tables (0%nat, 0%nat) t) <> 0%nat
  /\ (required d = false ->
      forall row existingRows,
        get row c = Some JNull -> column_checks row existingRows c d = []).
Proof.
  intros Hin Hu Hrows H1 H2. split.
  - intros Hzero.
    destruct (table_without_error tables _ t Hzero) as (_ & Hcols & _).
    destruct (Hcols c d Hin) as [_ Hunique].
    specialize (Hunique Hu pre r1 mid r2 post JNull JNull Hrows H1 H2).
    discriminate.
  - intros Hreq row existingRows Hrow. unfold column_checks.
    rewrite Hrow, Hreq. reflexivity.
Qed.

(** ** Hash indexes *)

Section HashIndexFacts.
Context `{Runtime}.

(** What the [forEach] of [addIndex] leaves under a key. *)
Lemma build_index_get (field k : string) (rs : list object) :
  forall idx index,
    get (db.build_index field rs idx index) k
    = match positions field k rs idx with
      | [] => get index k
      | ps => Some match get index k with
                   | Some old => (old ++ ps)%list
                   | None => ps
                   end
      end.
Proof.
  induction rs as [|row rest IH]; intros idx index; [reflexivity|].
  cbn [db.build_index positions].
  destruct (get row field) as [v|]; [|apply IH].
  rewrite IH.
  destruct (String.eqb (to_string v) k) eqn:Hk.
  - apply String.eqb_eq in Hk. rewrite <- Hk.
    destruct (get index (to_string v)) as [old|] eqn:Hold;
      rewrite get_set_eq;
      destruct (positions field (to_string v) rest (S idx)) as [|p ps];
      try reflexivity.
    cbn zeta. now rewrite <- app_assoc.
  - apply String.eqb_neq in Hk.
    assert (Hkeep : forall x,
              get (set (to_string v) x index) k = get index k)
      by (intros x; now apply get_set_ne).
    destruct (get index (to_string v)); rewrite Hkeep; reflexivity.
Qed.

Lemma positions_spec (field k : string) (rs : list object) :
  forall idx i,
    In i (positions field k rs idx)
    <-> exists j row v,
          i = (idx + j)%nat /\ rs !! j = Some row
          /\ get row field = Some v /\ to_string v = k.
Proof.
  induction rs as [|row rest IH]; intros idx i; cbn [positions].
  - split; [intros [] | intros (j & row & v & _ & Hj & _); discriminate].
  - assert (Hrest : In i (positions field k rest (S idx))
                    <-> exists j row0 v,
                          i = (idx + S j)%nat /\ rest !! j = Some row0
                          /\ get row0 field = Some v /\ to_string v = k).
    { rewrite IH. split; intros (j & r & v & Hi & Hrest);
        exists j, r, v; (split; [lia | exact Hrest]). }
    split.
    + intros Hin.
      assert (Hcases : (exists v, i = idx /\ get row field = Some v
                                  /\ to_string v = k)
                       \/ In i (positions field k rest (S idx))).
      { destruct (get row field) as [v|]; [|now right].
        destruct (String.eqb_spec (to_string v) k) as [Hk|]; [|now right].
        destruct Hin as [<-|Hin]; [left; eauto | now right]. }
      destruct Hcases as [(v & -> & Hv & Hk)|Hin'].
      * exists 0%nat, row, v. rewrite Nat.add_0_r. auto.
      * apply Hrest in Hin' as (j & r & v & Hi & Hj & Hv & Hk).
        exists (S j), r, v. auto.
    + intros (j & r & v & Hi & Hj & Hv & Hk). destruct j as [|j].
      * cbn in Hj. injection Hj as ->. rewrite Hv.
        apply String.eqb_eq in Hk. rewrite Hk. left. lia.
      * cbn in Hj.
        assert (Hin : In i (positions field k rest (S idx))).
        { apply Hrest. exists j, r, v. auto. }
        destruct (get row field) as [v0|]; [|assumption].
        destruct (String.eqb _ _); [now right | assumption].
Qed.

Lemma positions_increasing (field k : string) (rs : list object) :
  forall idx pre i mid j post,
    positions field k rs idx = (pre ++ i :: mid ++ j :: post)%list ->
    (i < j)%nat.
Proof.
  induction rs as [|row rest IH]; intros idx pre i mid j post Heq.
  - destruct pre; discriminate.
  - cbn [positions] in Heq.
    assert (Hcases : positions field k rest (S idx)
                     = (pre ++ i :: mid ++ j :: post)%list
                     \/ (idx :: positions field k rest (S idx)
                         = (pre ++ i :: mid ++ j :: post)%list)).
    { destruct (get row field) as [v|]; [|now left].
      destruct (String.eqb _ _); [now right | now left]. }
    destruct Hcases as [Hrest|Hhere]; [exact (IH _ _ _ _ _ _ Hrest)|].
    destruct pre as [|p pre]; cbn in Hhere; injection Hhere as -> Hrest.
    + assert (Hj : In j (positions field k rest (S i))).
      { rewrite Hrest. apply in_or_app. right. now left. }
      apply positions_spec in Hj as (m & _ & _ & -> & _). lia.
    + exact (IH _ _ _ _ _ _ Hrest).
Qed.

Lemma addIndex_hash_unfold (w : World) (d n field : string) (t : Table)
    (unique_ : bool) :
  currentDbPath w = Some d -> folder w d !! n = Some t ->
  exists entry w1,
    db.addIndex n field (Some "hash") unique_ w
    = writeTable d n (with_indexes t (set field entry (indexes t))) w1
    /\ currentDbPath w1 = currentDbPath w /\ disk w1 = disk w
    /\ Index.data entry = Some (db.build_index field (rows t) 0 []).
Proof.
  intros Hd Ht. unfold db.addIndex, bind at 1, read_currentDbPath. rewrite Hd.
  unfold bind at 1, readTable. rewrite Ht.
  unfold bind, new_Date. eexists _, _. split; [reflexivity|].
  cbn. split; [exact Hd|]. split; reflexivity.
Qed.

End HashIndexFacts.

(** X28. The hash index [addIndex] builds: under each key it lists, in
    ascending order, the positions of the rows whose value under the field
    reads as that key, and it has no entry for a key that no row has; rows
    without the field are in no list (no value reads as a name that every
    object inherits).  The index is a snapshot: an insert
    that succeeds afterwards adds its row to the table and leaves the
    indexes, with their data, as they were. *)
Theorem hash_index_is_a_snapshot `{Runtime} (w : World) (d n field : string)
    (t : Table) (unique_ : bool) :
  currentDbPath w = Some d -> folder w d !! n = Some t ->
  exists w' t' entry index,
    db.addIndex n field (Some "hash") unique_ w = (Returned tt, w')
    /\ currentDbPath w' = Some d
    /\ folder w' d !! n = Some t'
    /\ rows t' = rows t
    /\ get (indexes t') field = Some entry
    /\ Index.data entry = Some index
    /\ (forall k, get index k = match positions field k (rows t) 0 with
                                | [] => None
                                | ps => Some ps
                                end)
    /\ (forall k i,
          In i (positions field k (rows t) 0)
          <-> exists row v, rows t !! i = Some row
                            /\ get row field = Some v /\ to_string v = k)
    /\ (forall k pre i mid j post,
          positions field k (rows t) 0 = (pre ++ i :: mid ++ j :: post)%list ->
          (i < j)%nat)
    /\ (forall row stored w'',
          db.insert n row w' = (Returned stored, w'') ->
          exists t'',
            folder w'' d !! n = Some t''
            /\ rows t'' = (rows t ++ [stored])%list
            /\ indexes t'' = indexes t').
Proof.
  intros Hd Ht.
  destruct (addIndex_hash_unfold w d n field t unique_ Hd Ht)
    as (entry & w1 & Hrun & Hpath & Hdisk & Hdata).
  rewrite Hrun.
  set (t' := with_indexes t (set field entry (indexes t))).
  exists (snd (writeTable d n t' w1)), t', entry,
         (db.build_index field (rows t) 0 []).
  assert (Hd' : currentDbPath (snd (writeTable d n t' w1)) = Some d).
  { cbn. congruence. }
  assert (Ht' : folder (snd (writeTable d n t' w1)) d !! n = Some t').
  { rewrite folder_writeTable. apply lookup_insert_eq. }
  split; [reflexivity|]. split; [exact Hd'|]. split; [exact Ht'|].
  split; [reflexivity|]. split; [apply get_set_eq|]. split; [exact Hdata|].
  split.
  { intros k. rewrite build_index_get. cbn [get].
    destruct (positions field k (rows t) 0); reflexivity. }
  split.
  { intros k i. rewrite positions_spec. split.
    - intros (j & row & v & -> & Hrest). exists row, v. exact Hrest.
    - intros (row & v & Hrest). exists i, row, v. split; [reflexivity | exact Hrest]. }
  split; [intros k; apply positions_increasing|].
  intros row stored w'' Hinsert.
  destruct (insert_success_inv _ w'' n row stored Hinsert)
    as (d0 & t0 & vr & Hd0 & Ht0 & _ & _ & Hfolder & _).
  assert (d0 = d) by congruence. subst d0.
  assert (t0 = t') by congruence. subst t0.
  eexists. split; [rewrite Hfolder; apply lookup_insert_eq|].
  split; reflexivity.
Qed.

(** * Instances of the further properties *)

Lemma createTable_creates_witness :
  currentDbPath empty_world = Some "main"
  /\ folder empty_world "main" !! "people" = None
  /\ exists w' t,
       db.createTable (H := test_runtime) "people" people_columns [] None
         (Some false) empty_world = (Returned tt, w')
       /\ folder w' "main" !! "people" = Some t
       /\ rows t = []
       /\ columns t
          = [("id", column_of_type "int");
             ("name", plain_column "text" true false);
             ("email", plain_column "text" false true)].
Proof.
  assert (H1 : currentDbPath empty_world = Some "main") by reflexivity.
  assert (H2 : folder empty_world "main" !! "people" = None)
    by (vm_compute; reflexivity).
  assert (H3 : NoDup (keys people_columns)).
  { apply (bool_decide_unpack _). vm_compute. reflexivity. }
  assert (H4 : Forall (fun cs => is_definition (snd cs) = true) people_columns).
  { repeat constructor. }
  split; [exact H1|]. split; [exact H2|].
  destruct (createTable_creates (H := test_runtime) empty_world "main" "people"
              people_columns [] None (Some false) H1 ltac:(discriminate) H2 H3 H4)
    as (w' & t & Hrun & _ & Ht & _ & _ & _ & Hrows & _ & _ & _ & Hcols).
  exists w', t. split; [exact Hrun|]. split; [exact Ht|]. split; [exact Hrows|].
  rewrite Hcols. reflexivity.
Defined.

Lemma createTable_rejects_invalid_column_witness :
  db.createTable (H := test_runtime) "notes"
    [("title", TypeName "text"); ("body", NotADefinition);
     ("seen", TypeName "boolean")] [] None None empty_world
  = (Thrown (InvalidColumnDefinition "body"), empty_world).
Proof.
  assert (H1 : currentDbPath empty_world = Some "main") by reflexivity.
  assert (H2 : folder empty_world "main" !! "notes" = None)
    by (vm_compute; reflexivity).
  assert (H3 : Forall (fun cs => is_definition (snd cs) = true)
                 [("title", TypeName "text")]).
  { repeat constructor. }
  exact (createTable_rejects_invalid_column (H := test_runtime) empty_world
           "main" "notes" "body" [("title", TypeName "text")]
           [("seen", TypeName "boolean")] [] None None
           H1 ltac:(discriminate) H2 H3).
Defined.

Lemma insert_stores_row_witness :
  db.insert (H := test_runtime) "people" ann people_world
  = (Returned ann, people_world_ann)
  /\ folder people_world_ann "main" !! "people"
     = Some (with_rows people_table (rows people_table ++ [ann]))
  /\ db.select (H := test_runtime) "people" (page None None) people_world_ann
     = (Returned (rows people_table ++ [ann])%list, people_world_ann).
Proof.
  assert (H1 : currentDbPath people_world = Some "main") by reflexivity.
  assert (H2 : folder people_world "main" !! "people" = Some people_table)
    by (vm_compute; reflexivity).
  assert (H3 : db.insert (H := test_runtime) "people" ann people_world
               = (Returned ann, people_world_ann))
    by (vm_compute; reflexivity).
  destruct (insert_stores_row (H := test_runtime) people_world people_world_ann
              "main" "people" people_table ann ann H1 H2 H3)
    as (Htable & _ & _ & _ & Hselect).
  split; [exact H3|]. split; [exact Htable|].
  apply Hselect. reflexivity.
Defined.

Lemma insert_enforces_foreign_keys_witness :
  exists e w',
    db.insert (H := test_runtime) "posts"
      [("id", JNum 14); ("user_id", JNum 9)] blog_world = (Thrown e, w')
    /\ disk w' = disk blog_world.
Proof.
  assert (H1 : currentDbPath blog_world = Some "main") by reflexivity.
  assert (H2 : folder blog_world "main" !! "posts" = Some posts_table)
    by (vm_compute; reflexivity).
  assert (H3 : In ("user_id", {| foreignTable := "users"; foreignKey := "id" |})
                 (relationships posts_table)) by (left; reflexivity).
  assert (H4 : ~ encrypted_field posts_table "user_id") by (intros []).
  destruct (insert_enforces_foreign_keys (H := test_runtime) blog_world "main"
              "posts" posts_table [("id", JNum 14); ("user_id", JNum 9)]
              "user_id" {| foreignTable := "users"; foreignKey := "id" |}
              H1 H2 H3 H4) as [_ Hdangling].
  apply (Hdangling (JNum 9)).
  - reflexivity.
  - discriminate.
  - intros ft r Hft Hr. vm_compute in Hft. injection Hft as <-.
    destruct Hr as [<-|[<-|[]]]; reflexivity.
Defined.

Lemma insertMany_appends_witness :
  db.insertMany (H := test_runtime) "people" [ann] people_world
  = (Returned [ann], people_world_ann)
  /\ folder people_world_ann "main" !! "people"
     = Some (with_rows people_table (rows people_table ++ [ann])).
Proof.
  assert (H1 : currentDbPath people_world = Some "main") by reflexivity.
  assert (H2 : folder people_world "main" !! "people" = Some people_table)
    by (vm_compute; reflexivity).
  assert (H3 : db.insertMany (H := test_runtime) "people" [ann] people_world
               = (Returned [ann], people_world_ann))
    by (vm_compute; reflexivity).
  destruct (insertMany_appends (H := test_runtime) people_world people_world_ann
              "main" "people" people_table [ann] [ann] H1 H2 H3)
    as (_ & Htable & _).
  split; [exact H3 | exact Htable].
Defined.

Lemma update_keeps_table_shape_witness :
  exists result w' t',
    db.update (H := test_runtime) "people" [("email", JStr "a@x.org")] []
      people_world_two = (Returned result, w')
    /\ Result.count result = length (Result.rows result)
    /\ folder w' "main" !! "people" = Some t'
    /\ length (rows t') = 2%nat
    /\ rows t' !! 1%nat = Some dan
    /\ exists u, rows t' !! 0%nat = Some u /\ In u (Result.rows result).
Proof.
  assert (H1 : currentDbPath people_world_two = Some "main") by reflexivity.
  assert (H2 : folder people_world_two "main" !! "people" = Some people_table_two)
    by (vm_compute; reflexivity).
  destruct (update_keeps_table_shape (H := test_runtime) people_world_two "main"
              "people" people_table_two [("email", JStr "a@x.org")] [] H1 H2)
    as (result & w' & t' & Hrun & Hcount & _ & Ht' & _ & Hlen & _ & Hfailed
        & Hdone & _).
  exists result, w', t'. split; [exact Hrun|]. split; [exact Hcount|].
  split; [exact Ht'|]. split; [exact Hlen|].
  split.
  - apply (Hfailed 1%nat dan
             (SchemaValidationFailed [NotUnique "email" (JStr "a@x.org")]));
      vm_compute; reflexivity.
  - destruct (Hdone 0%nat ann ann) as (u & _ & _ & _ & Hu & Hin);
      [vm_compute; reflexivity..|].
    exists u. split; [exact Hu | exact Hin].
Defined.

Lemma update_drops_rows_with_undeclared_fields_witness :
  db.update (H := test_runtime) "notes" [("title", JStr "final")]
    [("id", JNum 1)] notes_world_draft
  = (Returned {| Result.count := 0; Result.rows := [] |}, notes_world_draft).
Proof.
  assert (H1 : currentDbPath notes_world_draft = Some "main") by reflexivity.
  assert (H2 : folder notes_world_draft "main" !! "notes" = Some notes_table)
    by (vm_compute; reflexivity).
  apply (update_drops_rows_with_undeclared_fields (H := test_runtime)
           notes_world_draft "main" "notes" notes_table
           [("title", JStr "final")] [("id", JNum 1)] H1 H2).
  intros row Hrow _. vm_compute in Hrow. destruct Hrow as [<-|[]].
  exists "createdAt". split; [cbn; tauto|]. split; [reflexivity|].
  split; [reflexivity | discriminate].
Defined.

Lemma update_and_delete_know_no_operators_witness :
  db.update (H := test_runtime) "items" [("id", JNum 0)]
    [("id", JObj [("$gt", JNum 3)])] items_world
  = (Returned {| Result.count := 0; Result.rows := [] |}, items_world)
  /\ matches [("id", JObj [("$gt", JNum 3)])] (item 5) = false.
Proof.
  assert (H1 : currentDbPath items_world = Some "main") by reflexivity.
  assert (H2 : folder items_world "main" !! "items" = Some items_table)
    by (vm_compute; reflexivity).
  destruct (update_and_delete_know_no_operators (H := test_runtime) items_world
              "main" "items" items_table [("id", JNum 0)]
              [("id", JObj [("$gt", JNum 3)])] "id" (JObj [("$gt", JNum 3)])
              H1 H2 eq_refl eq_refl) as (Hno & Hupdate & _).
  split; [exact Hupdate | exact (Hno (item 5))].
Defined.

Lemma delete_without_cascade_witness :
  exists result w',
    db.delete "items" [("id", JNum 3)] false items_world = (Returned result, w')
    /\ Result.rows result = [item 3]
    /\ Result.count result = 1%nat
    /\ folder w' "main" !! "items"
       = Some (with_rows items_table
                 (map item [0; 1; 2; 4; 5; 6; 7; 8; 9])).
Proof.
  assert (H1 : currentDbPath items_world = Some "main") by reflexivity.
  assert (H2 : folder items_world "main" !! "items" = Some items_table)
    by (vm_compute; reflexivity).
  destruct (delete_without_cascade items_world "main"
              "items" items_table [("id", JNum 3)] H1 H2)
    as (result & w' & Hrun & Hrows & Hcount & _ & _ & Htable & _).
  exists result, w'. split; [exact Hrun|].
  split; [rewrite Hrows; reflexivity|].
  split; [rewrite Hcount, Hrows; reflexivity|].
  rewrite Htable. reflexivity.
Defined.

Lemma select_where_agrees_with_update_and_delete_witness :
  db.where_stage (H := test_runtime) (Some [("id", JNum 3)]) (rows items_table)
  = List.filter (matches [("id", JNum 3)]) (rows items_table).
Proof.
  apply (select_where_agrees_with_update_and_delete (H := test_runtime)).
  - apply (bool_decide_unpack _). vm_compute. reflexivity.
  - intros k v [[= <- <-]|[]]. reflexivity.
Defined.

Lemma pages_tile_witness :
  (db.paginate (Some 3) (Some 2) (rows items_table)
   ++ db.paginate (Some 4) (Some (2 + 3)) (rows items_table))%list
  = db.paginate (Some (3 + 4)) (Some 2) (rows items_table).
Proof.
  destruct (pages_tile (H := test_runtime) (rows items_table) 2 3 4
              ltac:(lia) ltac:(lia) ltac:(lia)) as [Htile _].
  exact Htile.
Defined.

Lemma validated_row_satisfies_schema_witness :
  SchemaValidator.validateRow (H := test_runtime) ann (columns people_table) []
  = Returned ann
  /\ exists v, get ann "name" = Some v /\ v <> JNull.
Proof.
  assert (H1 : SchemaValidator.validateRow (H := test_runtime) ann
                 (columns people_table) [] = Returned ann)
    by (vm_compute; reflexivity).
  assert (H2 : In ("name", plain_column "text" true false) (columns people_table))
    by (vm_compute; tauto).
  destruct (validated_row_satisfies_schema (H := test_runtime) ann ann
              (columns people_table) [] "name" (plain_column "text" true false)
              H1 H2) as (_ & Hrequired & _).
  split; [exact H1|]. apply Hrequired. reflexivity.
Defined.

Lemma addColumn_adds_witness :
  exists w' t' row',
    db.addColumn "items" "token" (OfGenerator quantity (Some (JStr "t-1")))
      items_world = (Returned tt, w')
    /\ folder w' "main" !! "items" = Some t'
    /\ get (columns t') "token" = Some (without_default quantity)
    /\ length (rows t') = 10%nat
    /\ rows t' !! 3%nat = Some row'
    /\ get row' "token" = Some (JStr "t-1")
    /\ db.addColumn "items" "id" (OfType "int") items_world
       = (Thrown (ColumnExists "id"), items_world).
Proof.
  assert (H1 : currentDbPath items_world = Some "main") by reflexivity.
  assert (H2 : folder items_world "main" !! "items" = Some items_table)
    by (vm_compute; reflexivity).
  destruct (addColumn_adds items_world "main" "items" "token" items_table
              (OfGenerator quantity (Some (JStr "t-1"))) H1 H2) as [_ Hfresh].
  destruct (addColumn_adds items_world "main" "items"
              "id" items_table (OfType "int") H1 H2) as [Hexists _].
  destruct (Hfresh eq_refl)
    as (w' & t' & stored & value & Hrun & Ht' & Hcol & (-> & _ & ->) & _
        & Hlen & Hrows & _).
  destruct (Hrows 3%nat (item 3) eq_refl) as (row' & Hrow' & Hvalue & _).
  exists w', t', row'. split; [exact Hrun|]. split; [exact Ht'|].
  split; [exact Hcol|]. split; [exact Hlen|]. split; [exact Hrow'|].
  split; [exact Hvalue|].
  apply Hexists. eexists. reflexivity.
Defined.

Lemma removeColumn_removes_witness :
  exists w' t',
    db.removeColumn "posts" "user_id" blog_world = (Returned tt, w')
    /\ folder w' "main" !! "posts" = Some t'
    /\ get (columns t') "user_id" = None
    /\ db.removeColumn "posts" "title" blog_world
       = (Thrown (ColumnMissing "title"), blog_world).
Proof.
  assert (H1 : currentDbPath blog_world = Some "main") by reflexivity.
  assert (H2 : folder blog_world "main" !! "posts" = Some posts_table)
    by (vm_compute; reflexivity).
  destruct (removeColumn_removes blog_world "main" "posts"
              "user_id" posts_table H1 H2) as [_ Hthere].
  destruct (removeColumn_removes blog_world "main" "posts"
              "title" posts_table H1 H2) as [Hmissing _].
  destruct Hthere as (w' & t' & Hrun & Ht' & Hcol & _);
    [eexists; reflexivity|].
  exists w', t'. split; [exact Hrun|]. split; [exact Ht'|].
  split; [exact Hcol|]. apply Hmissing. reflexivity.
Defined.

Lemma addColumn_then_removeColumn_witness :
  exists w1 w2,
    db.addColumn "items" "quantity" (OfDefinition quantity) items_world
    = (Returned tt, w1)
    /\ db.removeColumn "items" "quantity" w1 = (Returned tt, w2)
    /\ folder w2 "main" !! "items" = Some items_table.
Proof.
  assert (H1 : currentDbPath items_world = Some "main") by reflexivity.
  assert (H2 : folder items_world "main" !! "items" = Some items_table)
    by (vm_compute; reflexivity).
  assert (H3 : forall row, In row (rows items_table) -> get row "quantity" = None).
  { intros row Hrow. vm_compute in Hrow.
    repeat (destruct Hrow as [<-|Hrow]; [reflexivity|]). destruct Hrow. }
  destruct (addColumn_then_removeColumn items_world "main"
              "items" "quantity" items_table (OfDefinition quantity) H1 H2 eq_refl H3)
    as (w1 & w2 & Hadd & Hremove & Hsame).
  exists w1, w2. split; [exact Hadd|]. split; [exact Hremove|].
  rewrite Hsame. exact H2.
Defined.

Lemma migrate_maps_rows_witness :
  exists w' t',
    db.migrate "items" numbering items_world = (Returned tt, w')
    /\ folder w' "main" !! "items" = Some t'
    /\ rows t' !! 2%nat = Some [("id", JNum 2); ("position", JNum 2)].
Proof.
  assert (H1 : currentDbPath items_world = Some "main") by reflexivity.
  assert (H2 : folder items_world "main" !! "items" = Some items_table)
    by (vm_compute; reflexivity).
  destruct (migrate_maps_rows items_world "main" "items"
              items_table numbering H1 H2)
    as (w' & t' & Hrun & Ht' & _ & _ & Hrows & _).
  exists w', t'. split; [exact Hrun|]. split; [exact Ht'|].
  rewrite (Hrows 2%nat (item 2) eq_refl). reflexivity.
Defined.


Lemma validate_type_check_agrees_witness :
  cli.type_error (H := test_runtime) "int" (JStr "seven") = true
  /\ check_type (H := test_runtime) "age" (column_of_type "int") (JStr "seven")
     = [TypeMismatch "age" "int" "string"].
Proof.
  destruct (validate_type_check_agrees (H := test_runtime) "age" "int"
              (column_of_type "int") (JStr "seven") eq_refl) as [Hknown _].
  split; [|reflexivity].
  rewrite Hknown; [reflexivity|].
  cbn. intros [E|[E|[E|[]]]]; discriminate E.
Defined.

Lemma validate_clean_witness :
  cli.validate (H := test_runtime) {[ "main" := linked_tables ]} "main"
  = Some (0%nat, 0%nat)
  /\ exists ft,
       linked_tables !! "users" = Some ft
       /\ exists r, In r (rows ft)
                    /\ strict_eq (get r "id") (Some (JNum 2)) = true.
Proof.
  assert (H1 : cli.validate (H := test_runtime) {[ "main" := linked_tables ]}
                 "main" = Some (0%nat, 0%nat)) by (vm_compute; reflexivity).
  assert (H2 : ({[ "main" := linked_tables ]} : gmap string (gmap string Table))
               !! "main" = Some linked_tables) by apply lookup_singleton_eq.
  assert (H3 : linked_tables !! "posts" = Some linked_posts_table)
    by (vm_compute; reflexivity).
  destruct (validate_clean (H := test_runtime) {[ "main" := linked_tables ]}
              "main" linked_tables 0 "posts" linked_posts_table H1 H2 H3)
    as (_ & _ & Hrels & _).
  split; [exact H1|].
  destruct (Hrels "user_id" {| foreignTable := "users"; foreignKey := "id" |})
    as (ft & Hft & Hrefs); [left; reflexivity|].
  exists ft. split; [exact Hft|].
  apply (Hrefs [("id", JNum 11); ("user_id", JNum 2)] (JNum 2)).
  - right. left. reflexivity.
  - reflexivity.
  - discriminate.
Defined.

Lemma validate_counts_null_duplicates_witness :
  fst (cli.validate_table (H := test_runtime) ∅ (0%nat, 0%nat)
         unknown_emails_table) <> 0%nat
  /\ column_checks (H := test_runtime) [("id", JNum 3); ("email", JNull)]
       (rows unknown_emails_table) "email" (plain_column "text" false true)
     = [].
Proof.
  destruct (validate_counts_null_duplicates (H := test_runtime) ∅
              unknown_emails_table "email" (plain_column "text" false true)
              [] [] [] [("id", JNum 1); ("email", JNull)]
              [("id", JNum 2); ("email", JNull)]) as [Hcounted Haccepted].
  - right. left. reflexivity.
  - reflexivity.
  - reflexivity.
  - reflexivity.
  - reflexivity.
  - split; [exact Hcounted|]. apply Haccepted; reflexivity.
Defined.

Lemma hash_index_is_a_snapshot_witness :
  exists w' t' entry index,
    db.addIndex (H := test_runtime) "posts" "user_id" (Some "hash") false
      blog_world = (Returned tt, w')
    /\ folder w' "main" !! "posts" = Some t'
    /\ get (indexes t') "user_id" = Some entry
    /\ Index.data entry = Some index
    /\ get index "1" = Some [0%nat; 2%nat]
    /\ get index "4" = None.
Proof.
  assert (H1 : currentDbPath blog_world = Some "main") by reflexivity.
  assert (H2 : folder blog_world "main" !! "posts" = Some posts_table)
    by (vm_compute; reflexivity).
  destruct (hash_index_is_a_snapshot (H := test_runtime) blog_world "main"
              "posts" "user_id" posts_table false H1 H2)
    as (w' & t' & entry & index & Hrun & _ & Ht' & _ & Hentry & Hdata & Hget & _).
  exists w', t', entry, index. split; [exact Hrun|]. split; [exact Ht'|].
  split; [exact Hentry|]. split; [exact Hdata|].
  split; rewrite Hget; reflexivity.
Defined.
